(** * Subspace: the shared-memory channel core and its client

    A shallow embedding of [common/channel.h] (message prefix, slot lists,
    channel control block, buffer addressing) and of [client/client.cc]
    (the publish / read state machines of the client), with theorems about
    the allocation policy, activation messages, back-pressure, drop
    detection and the placeholder subscriber.

    Conventions.
    - C integers are [Z]; a narrowing store writes the wrapped value
      ([wrap_int16], [wrap_int32], [wrap_uint16]).
    - The channel control block (CCB) is shared memory addressed by byte
      offset from its base.  A [MessageSlot *] is modelled by the CCB offset
      of the slot it points to ([ToCCBOffset] and [FromCCBOffset] are then
      the identity on offsets), a nullable one by [option Z]; the slot table
      is the finite map from offsets to slots.
    - The buffer region is a finite map from the byte offset of a prefix
      (relative to [buffers_]) to the [MessagePrefix] stored there; payload
      bytes are not modelled.
    - The server, the socket, the clock and [mmap] are the environment: the
      world carries their answers, and every theorem quantifies over them.
    - Trigger and poll file descriptors are opaque; touching one is recorded
      as an event of the world's trace.  Debug printing is left out. *)

From Stdlib Require Import ZArith String List Bool Lia.
From stdpp Require Import base option list gmap.
Import ListNotations.

Local Open Scope string_scope.
Local Open Scope Z_scope.

(** ** Machine integers *)

Definition wrap_signed (bits : Z) (v : Z) : Z :=
  (v + 2 ^ (bits - 1)) mod 2 ^ bits - 2 ^ (bits - 1).

Definition wrap_int16 (v : Z) : Z := wrap_signed 16 v.
Definition wrap_int32 (v : Z) : Z := wrap_signed 32 v.
Definition wrap_int64 (v : Z) : Z := wrap_signed 64 v.
Definition wrap_uint16 (v : Z) : Z := v mod 2 ^ 16.

(** ** channel.h: the message prefix *)

Module MessagePrefix.
Record t := mk {
  padding : Z;        (* int32_t, room for Socket::SendMessage *)
  message_size : Z;   (* int32_t *)
  ordinal : Z;        (* int64_t *)
  timestamp : Z;      (* uint64_t *)
  flags : Z           (* int64_t *)
}.

(** What uninitialised buffer memory reads as. *)
Definition zero : t := mk 0 0 0 0 0.
End MessagePrefix.

Definition kMessageActivate : Z := 1.
Definition kMessageBridged : Z := 2.
Definition kMessageSeen : Z := 4.

Definition kMaxChannels : Z := 1024.
Definition kMaxSlotOwners : Z := 1024.
Definition kMaxChannelName : Z := 64.

(** *** Struct layout

    The scalar types used by the structs of channel.h, and the layout rule
    of the platform ABI: every scalar is aligned to its size, fields are
    laid out in declaration order, and the struct size is rounded up to the
    largest field alignment. *)

Inductive CType := c_int16 | c_uint16 | c_int32 | c_int64 | c_uint64.

Definition ctype_size (ty : CType) : Z :=
  match ty with
  | c_int16 | c_uint16 => 2
  | c_int32 => 4
  | c_int64 | c_uint64 => 8
  end.

Definition align_up (v a : Z) : Z := (v + (a - 1)) / a * a.

(** Offsets of the fields, in declaration order, starting at [off]. *)
Fixpoint field_offsets (off : Z) (fields : list (string * CType))
  : list (string * Z) :=
  match fields with
  | [] => []
  | (name, ty) :: rest =>
      let o := align_up off (ctype_size ty) in
      (name, o) :: field_offsets (o + ctype_size ty) rest
  end.

Fixpoint fields_end (off : Z) (fields : list (string * CType)) : Z :=
  match fields with
  | [] => off
  | (_, ty) :: rest =>
      fields_end (align_up off (ctype_size ty) + ctype_size ty) rest
  end.

Definition struct_align (fields : list (string * CType)) : Z :=
  fold_right (fun f a => Z.max (ctype_size (snd f)) a) 1 fields.

Definition struct_sizeof (fields : list (string * CType)) : Z :=
  align_up (fields_end 0 fields) (struct_align fields).

(** [struct MessagePrefix], field by field. *)
Definition MessagePrefix_fields : list (string * CType) :=
  [ ("padding", c_int32);
    ("message_size", c_int32);
    ("ordinal", c_int64);
    ("timestamp", c_uint64);
    ("flags", c_int64) ].

Definition sizeof_MessagePrefix : Z := struct_sizeof MessagePrefix_fields.

(** [Aligned<alignment>(v)]: [(v + (alignment - 1)) & ~(alignment - 1)]. *)
Definition Aligned (alignment v : Z) : Z :=
  Z.land (v + (alignment - 1)) (Z.lnot (alignment - 1)).

(** ** channel.h: slot lists and the channel control block *)

Module SlotListElement.
Record t := mk { prev : Z; next : Z }.
End SlotListElement.

Module SlotList.
Record t := mk { first : Z; last : Z }.
End SlotList.

Module MessageSlot.
Record t := mk {
  element : SlotListElement.t;
  id : Z;                   (* int32_t, 0 ... num_slots-1 *)
  ref_count : Z;            (* int16_t *)
  reliable_ref_count : Z;   (* int16_t *)
  ordinal : Z;              (* int64_t *)
  message_size : Z;         (* int64_t *)
  owners : Z                (* BitSet<kMaxSlotOwners>, bit i = owner i *)
}.

Definition zero : t := mk (SlotListElement.mk 0 0) 0 0 0 0 0 0.

Definition with_element (e : SlotListElement.t) (s : t) : t :=
  mk e (id s) (ref_count s) (reliable_ref_count s) (ordinal s)
     (message_size s) (owners s).
Definition with_ref_count (v : Z) (s : t) : t :=
  mk (element s) (id s) v (reliable_ref_count s) (ordinal s)
     (message_size s) (owners s).
Definition with_reliable_ref_count (v : Z) (s : t) : t :=
  mk (element s) (id s) (ref_count s) v (ordinal s)
     (message_size s) (owners s).
Definition with_ordinal (v : Z) (s : t) : t :=
  mk (element s) (id s) (ref_count s) (reliable_ref_count s) v
     (message_size s) (owners s).
Definition with_message_size (v : Z) (s : t) : t :=
  mk (element s) (id s) (ref_count s) (reliable_ref_count s) (ordinal s)
     v (owners s).
Definition with_owners (v : Z) (s : t) : t :=
  mk (element s) (id s) (ref_count s) (reliable_ref_count s) (ordinal s)
     (message_size s) v.
End MessageSlot.

(** The three list headers of a CCB; a [SlotList *] is one of them. *)
Inductive ListId := active_list | busy_list | free_list.

Module CCB.
Record t := mk {
  channel_name : string;
  num_slots : Z;
  slot_size : Z;
  next_ordinal : Z;
  total_bytes : Z;
  total_messages : Z;
  active : SlotList.t;
  busy : SlotList.t;
  free : SlotList.t;
  slots : gmap Z MessageSlot.t   (* slot memory, by CCB offset *)
}.

Definition list_of (l : ListId) (c : t) : SlotList.t :=
  match l with
  | active_list => active c
  | busy_list => busy c
  | free_list => free c
  end.

Definition with_list (l : ListId) (h : SlotList.t) (c : t) : t :=
  match l with
  | active_list =>
      mk (channel_name c) (num_slots c) (slot_size c) (next_ordinal c)
         (total_bytes c) (total_messages c) h (busy c) (free c) (slots c)
  | busy_list =>
      mk (channel_name c) (num_slots c) (slot_size c) (next_ordinal c)
         (total_bytes c) (total_messages c) (active c) h (free c) (slots c)
  | free_list =>
      mk (channel_name c) (num_slots c) (slot_size c) (next_ordinal c)
         (total_bytes c) (total_messages c) (active c) (busy c) h (slots c)
  end.

Definition with_slots (m : gmap Z MessageSlot.t) (c : t) : t :=
  mk (channel_name c) (num_slots c) (slot_size c) (next_ordinal c)
     (total_bytes c) (total_messages c) (active c) (busy c) (free c) m.

Definition with_next_ordinal (v : Z) (c : t) : t :=
  mk (channel_name c) (num_slots c) (slot_size c) v
     (total_bytes c) (total_messages c) (active c) (busy c) (free c)
     (slots c).

Definition with_totals (bytes messages : Z) (c : t) : t :=
  mk (channel_name c) (num_slots c) (slot_size c) (next_ordinal c)
     bytes messages (active c) (busy c) (free c) (slots c).

(** Reading and writing the slot at a CCB offset. *)
Definition slot (p : Z) (c : t) : MessageSlot.t :=
  default MessageSlot.zero (slots c !! p).

Definition update (p : Z) (f : MessageSlot.t -> MessageSlot.t) (c : t) : t :=
  with_slots (<[p := f (slot p c)]> (slots c)) c.
End CCB.

(** [ToCCBOffset] / [FromCCBOffset]: pointers into the CCB are kept as
    offsets, so both conversions leave the number unchanged. *)
Definition ToCCBOffset (addr : Z) : Z := addr.
Definition FromCCBOffset (offset : Z) : Z := offset.

Definition set_prev (v : Z) (s : MessageSlot.t) : MessageSlot.t :=
  MessageSlot.with_element
    (SlotListElement.mk v (SlotListElement.next (MessageSlot.element s))) s.

Definition set_next (v : Z) (s : MessageSlot.t) : MessageSlot.t :=
  MessageSlot.with_element
    (SlotListElement.mk (SlotListElement.prev (MessageSlot.element s)) v) s.

Definition slot_prev (p : Z) (c : CCB.t) : Z :=
  SlotListElement.prev (MessageSlot.element (CCB.slot p c)).

Definition slot_next (p : Z) (c : CCB.t) : Z :=
  SlotListElement.next (MessageSlot.element (CCB.slot p c)).

(** [Channel::ListInsertAtEnd(SlotList *list, SlotListElement *e)]. *)
Definition ListInsertAtEnd (list : ListId) (e : Z) (c : CCB.t) : CCB.t :=
  let offset := ToCCBOffset e in
  if SlotList.last (CCB.list_of list c) =? 0 then
    CCB.with_list list (SlotList.mk offset offset) c
  else
    let last := FromCCBOffset (SlotList.last (CCB.list_of list c)) in
    let c := CCB.update last (set_next offset) c in
    let c := CCB.update e (set_prev (SlotList.last (CCB.list_of list c))) c in
    CCB.with_list list
      (SlotList.mk (SlotList.first (CCB.list_of list c)) offset) c.

(** [Channel::ListInit]. *)
Definition ListInit (list : ListId) (c : CCB.t) : CCB.t :=
  CCB.with_list list (SlotList.mk 0 0) c.

(** [Channel::ListElementInit]. *)
Definition ListElementInit (e : Z) (c : CCB.t) : CCB.t :=
  CCB.update e (MessageSlot.with_element (SlotListElement.mk 0 0)) c.

(** [Channel::ListRemove(SlotList *list, SlotListElement *e)]. *)
Definition ListRemove (list : ListId) (e : Z) (c : CCB.t) : CCB.t :=
  let c :=
    if slot_prev e c =? 0 then
      CCB.with_list list
        (SlotList.mk (slot_next e c) (SlotList.last (CCB.list_of list c))) c
    else
      let prev := FromCCBOffset (slot_prev e c) in
      CCB.update prev (set_next (slot_next e c)) c in
  let c :=
    if slot_next e c =? 0 then
      CCB.with_list list
        (SlotList.mk (SlotList.first (CCB.list_of list c)) (slot_prev e c)) c
    else
      let next := FromCCBOffset (slot_next e c) in
      CCB.update next (set_prev (slot_prev e c)) c in
  CCB.update e (MessageSlot.with_element (SlotListElement.mk 0 0)) c.

Definition AddToBusyList (slot : Z) (c : CCB.t) : CCB.t :=
  ListInsertAtEnd busy_list slot c.

Definition AddToActiveList (slot : Z) (c : CCB.t) : CCB.t :=
  ListInsertAtEnd active_list slot c.

(** ** The per-participant channel handle (class [Channel]) *)

Module Channel.
Record t := mk {
  name_ : string;
  num_slots_ : Z;
  slot_size_ : Z;
  channel_id_ : Z;
  type_ : string;
  num_updates_ : Z;   (* uint16_t *)
  buffers_ : Z        (* address the buffer region is mapped at; 0 = nullptr *)
}.

Definition Name (ch : t) : string := name_ ch.
Definition SlotSize (ch : t) : Z := slot_size_ ch.
Definition NumSlots (ch : t) : Z := num_slots_ ch.
Definition GetChannelId (ch : t) : Z := channel_id_ ch.
Definition NumUpdates (ch : t) : Z := num_updates_ ch.

(** A placeholder is a channel created for a subscriber where there are
    no publishers and thus the shared memory is not yet valid. *)
Definition IsPlaceholder (ch : t) : bool := NumSlots ch =? 0.

Definition SetSlots (slot_size num_slots : Z) (ch : t) : t :=
  mk (name_ ch) num_slots slot_size (channel_id_ ch) (type_ ch)
     (num_updates_ ch) (buffers_ ch).

(** The [int] argument is stored into a [uint16_t]. *)
Definition SetNumUpdates (num_updates : Z) (ch : t) : t :=
  mk (name_ ch) (num_slots_ ch) (slot_size_ ch) (channel_id_ ch) (type_ ch)
     (wrap_uint16 num_updates) (buffers_ ch).

Definition with_buffers (addr : Z) (ch : t) : t :=
  mk (name_ ch) (num_slots_ ch) (slot_size_ ch) (channel_id_ ch) (type_ ch)
     (num_updates_ ch) addr.

(** Address of the message buffer (after the MessagePrefix) of a slot id. *)
Definition GetBufferAddress (ch : t) (slot_id : Z) : Z :=
  buffers_ ch
  + (sizeof_MessagePrefix + Aligned 32 (slot_size_ ch)) * slot_id
  + sizeof_MessagePrefix.

(** Address of the [MessagePrefix] of a slot. *)
Definition Prefix (ch : t) (slot : MessageSlot.t) : Z :=
  buffers_ ch
  + (sizeof_MessagePrefix + Aligned 32 (slot_size_ ch)) * MessageSlot.id slot.
End Channel.

(** Buffer memory: the prefix stored at a byte offset of the buffer region.
    A participant reaches it through the address it mapped the region at. *)
Definition load_prefix (ch : Channel.t) (mem : gmap Z MessagePrefix.t)
    (addr : Z) : MessagePrefix.t :=
  default MessagePrefix.zero (mem !! (addr - Channel.buffers_ ch)).

Definition store_prefix (ch : Channel.t) (addr : Z) (p : MessagePrefix.t)
    (mem : gmap Z MessagePrefix.t) : gmap Z MessagePrefix.t :=
  <[addr - Channel.buffers_ ch := p]> mem.

(** ** channel.cc: the operations under the CCB lock

    Only the declarations of these are in channel.h; their bodies follow
    the specification of the channel core (sections 4.2 to 4.4). *)

(** Modelled from the spec: [BitSet::Set] of common/bitset.h, which is
    not among the sources; the owners are "one bit per participant ID". *)
Definition BitSet_Set (b : Z) (bits : Z) : Z := Z.setbit bits b.

(** Modelled from the spec: [BitSet::Clear] of common/bitset.h. *)
Definition BitSet_Clear (b : Z) (bits : Z) : Z := Z.clearbit bits b.

(** Modelled from the spec: [BitSet::ClearAll] of common/bitset.h, "clear
    its owners bitset". *)
Definition BitSet_ClearAll (bits : Z) : Z := 0.

(** Modelled from the spec: [BitSet::IsSet] of common/bitset.h. *)
Definition BitSet_IsSet (b : Z) (bits : Z) : bool := Z.testbit bits b.

(** Modelled from the spec: the forward traversal of a list (section 4.1),
    whose code ([Channel::PrintList], channel.cc) is not among the
    sources: the offsets met when following [next] links from [p] up to
    the sentinel 0; [None] when the walk does not end within [fuel]
    steps. *)
Fixpoint list_walk (fuel : nat) (p : Z) (c : CCB.t) : option (list Z) :=
  if p =? 0 then Some []
  else
    match fuel with
    | O => None
    | S fuel' =>
        match list_walk fuel' (slot_next p c) c with
        | Some rest => Some (p :: rest)
        | None => None
        end
    end.

(** Modelled from the spec: step 2 of [FindFreeSlot] (section 4.2), the
    scan of the active list "from the oldest slot forward, looking for a
    slot with ref_count == 0", which for a reliable caller stops "as soon
    as a slot with reliable_ref_count > 0 is encountered".  A list holds at
    most [num_slots] slots, which bounds the scan. *)
Fixpoint scan_active (fuel : nat) (reliable : bool) (p : Z) (c : CCB.t)
  : option Z :=
  match fuel with
  | O => None
  | S fuel' =>
      if p =? 0 then None
      else
        let s := CCB.slot p c in
        if reliable && (0 <? MessageSlot.reliable_ref_count s) then None
        else if MessageSlot.ref_count s =? 0 then Some p
        else scan_active fuel' reliable (slot_next p c) c
  end.

(** Modelled from the spec: [Channel::FindFreeSlotLocked], the body of
    [Channel::FindFreeSlot] (section 4.2; channel.cc is not part of the
    sources): free list first, then reclamation from the active list, and
    on success the slot goes onto the busy list with the owner bit set. *)
Definition FindFreeSlotLocked (reliable : bool) (owner : Z) (c : CCB.t)
  : option Z * CCB.t :=
  let found :=
    if negb (SlotList.first (CCB.free c) =? 0) then
      let slot := FromCCBOffset (SlotList.first (CCB.free c)) in
      (Some slot, ListRemove free_list slot c)
    else
      match scan_active (Z.to_nat (CCB.num_slots c)) reliable
                        (SlotList.first (CCB.active c)) c with
      | Some slot =>
          let c := ListRemove active_list slot c in
          (Some slot,
           CCB.update slot
             (fun s => MessageSlot.with_owners
                         (BitSet_ClearAll (MessageSlot.owners s)) s) c)
      | None => (None, c)
      end in
  match found with
  | (Some slot, c) =>
      let c := AddToBusyList slot c in
      (Some slot,
       CCB.update slot
         (fun s => MessageSlot.with_owners
                     (BitSet_Set owner (MessageSlot.owners s)) s) c)
  | (None, c) => (None, c)
  end.

(** Modelled from the spec: [Channel::FindFreeSlot], declared in channel.h
    ("This locks the CCB") with its body in channel.cc: the search under
    the lock. *)
Definition FindFreeSlot (reliable : bool) (owner : Z) (c : CCB.t)
  : option Z * CCB.t :=
  FindFreeSlotLocked reliable owner c.

(** Modelled from the spec: a subscriber lets go of a slot (section 4.4,
    part of [Channel::NextSlot] in channel.cc): "decrement
    current.ref_count (and reliable_ref_count if reliable) and clear
    owner". *)
Definition release_slot (reliable : bool) (owner : Z) (s : MessageSlot.t)
  : MessageSlot.t :=
  let s := MessageSlot.with_ref_count
             (wrap_int16 (MessageSlot.ref_count s - 1)) s in
  let s := if reliable
           then MessageSlot.with_reliable_ref_count
                  (wrap_int16 (MessageSlot.reliable_ref_count s - 1)) s
           else s in
  MessageSlot.with_owners (BitSet_Clear owner (MessageSlot.owners s)) s.

(** Modelled from the spec: a subscriber takes hold of a slot (section
    4.4, part of [Channel::NextSlot] in channel.cc): "increment ref_count
    (and reliable_ref_count if reliable) and set owner". *)
Definition acquire_slot (reliable : bool) (owner : Z) (s : MessageSlot.t)
  : MessageSlot.t :=
  let s := MessageSlot.with_ref_count
             (wrap_int16 (MessageSlot.ref_count s + 1)) s in
  let s := if reliable
           then MessageSlot.with_reliable_ref_count
                  (wrap_int16 (MessageSlot.reliable_ref_count s + 1)) s
           else s in
  MessageSlot.with_owners (BitSet_Set owner (MessageSlot.owners s)) s.

(** Modelled from the spec: the ownership transfer shared by
    [Channel::NextSlot] and [Channel::LastSlot] (section 4.4, channel.cc):
    nothing changes when the target offset is 0. *)
Definition move_to_slot (current : option Z) (target : Z) (reliable : bool)
    (owner : Z) (c : CCB.t) : option Z * CCB.t :=
  if target =? 0 then (None, c)
  else
    let c := match current with
             | Some cur => CCB.update cur (release_slot reliable owner) c
             | None => c
             end in
    let new_slot := FromCCBOffset target in
    (Some new_slot, CCB.update new_slot (acquire_slot reliable owner) c).

(** Modelled from the spec: [Channel::NextSlot] (section 4.4; channel.cc is
    not part of the sources). *)
Definition NextSlot (slot : option Z) (reliable : bool) (owner : Z)
    (c : CCB.t) : option Z * CCB.t :=
  let target := match slot with
                | None => SlotList.first (CCB.active c)
                | Some cur => slot_next cur c
                end in
  move_to_slot slot target reliable owner c.

(** Modelled from the spec: [Channel::LastSlot] (section 4.4), "identical,
    but target is active.last". *)
Definition LastSlot (slot : option Z) (reliable : bool) (owner : Z)
    (c : CCB.t) : option Z * CCB.t :=
  move_to_slot slot (SlotList.last (CCB.active c)) reliable owner c.

(** [Channel::PublishedMessage] (channel.h), together with the [notify]
    out-parameter of [ActivateSlotAndGetAnother]. *)
Record PublishedMessage := mkPublishedMessage {
  new_slot : option Z;
  pm_ordinal : Z;
  pm_timestamp : Z;
  pm_notify : bool
}.

(** Modelled from the spec: [Channel::ActivateSlotAndGetAnother] (section
    4.3, steps 1 to 7; channel.cc is not part of the sources).  The size of
    the message is the one the publisher left in [slot->message_size], as
    [Client::ActivateReliableChannel] does by hand. *)
Definition ActivateSlotAndGetAnother (ch : Channel.t) (now : Z) (slot : Z)
    (reliable is_activation : bool) (owner : Z) (omit_prefix : bool)
    (c : CCB.t) (mem : gmap Z MessagePrefix.t)
  : PublishedMessage * CCB.t * gmap Z MessagePrefix.t :=
  (* 1: ordinal = ++next_ordinal, timestamp = monotonic_now_ns() *)
  let ordinal := CCB.next_ordinal c + 1 in
  let c := CCB.with_next_ordinal ordinal c in
  let timestamp := now in
  (* 2: the prefix, unless omit_prefix *)
  let size := MessageSlot.message_size (CCB.slot slot c) in
  let addr := Channel.Prefix ch (CCB.slot slot c) in
  let mem :=
    if omit_prefix then mem
    else
      store_prefix ch addr
        (MessagePrefix.mk
           (MessagePrefix.padding (load_prefix ch mem addr))
           (wrap_int32 size) ordinal timestamp
           (if is_activation then kMessageActivate else 0))
        mem in
  (* 3: the slot's ordinal, the statistics *)
  let c := CCB.update slot (MessageSlot.with_ordinal ordinal) c in
  let c := CCB.with_totals (CCB.total_bytes c + size)
                           (CCB.total_messages c + 1) c in
  (* 6: the predicate looks at the active list before the insertion *)
  let notify := negb (SlotList.first (CCB.active c) =? 0) in
  (* 4: from the busy list to the tail of the active list *)
  let c := ListRemove busy_list slot c in
  let c := AddToActiveList slot c in
  (* 5: the publisher lets go of the slot *)
  let c := CCB.update slot
             (fun s => MessageSlot.with_owners
                         (BitSet_Clear owner (MessageSlot.owners s)) s) c in
  (* 7: a reliable publisher gets its next slot later *)
  if reliable then
    (mkPublishedMessage None ordinal timestamp notify, c, mem)
  else
    let '(new_slot, c) := FindFreeSlotLocked false owner c in
    (mkPublishedMessage new_slot ordinal timestamp notify, c, mem).

(** ** client.cc: statuses, messages and the objects of a client *)

Inductive Status :=
| OkStatus
| InternalError (message : string)
| OtherError (code : Z) (message : string).   (* raised by a collaborator *)

Definition Status_ok (s : Status) : bool :=
  match s with OkStatus => true | _ => false end.

(** [absl::StatusOr<A>]. *)
Inductive StatusOr (A : Type) :=
| Ok (a : A)
| Failed (s : Status).
Arguments Ok {A} a.
Arguments Failed {A} s.

(** Modelled from the spec: [ReadMode] of client.h (not among the
    sources), with the two modes [ReadMessageInternal] switches on. *)
Inductive ReadMode := kReadNext | kReadNewest.

(** Modelled from the spec: [Message] of client.h (not among the
    sources): either the default-constructed, empty message [Message()]
    ("an empty read") or [Message(length, buffer, ordinal, timestamp)]. *)
Inductive Message :=
| Message_empty
| Message_of (length buffer ordinal timestamp : Z).

(** A dropped-message callback is user code; it is known by a name and
    calling it is an event. *)
Definition Callback := Z.

Module ChannelCounters.
Record t := mk {
  num_pub_updates : Z;     (* uint16_t, as all of them *)
  num_sub_updates : Z;
  num_pubs : Z;
  num_reliable_pubs : Z;
  num_subs : Z;
  num_reliable_subs : Z
}.
Definition zero : t := mk 0 0 0 0 0 0.
End ChannelCounters.

Module PublisherOptions.
(** Modelled from the spec: [PublisherOptions] of client.h (not among the
    sources), with the accessors [Client::CreatePublisher] calls. *)
Record t := mk {
  IsPublic : bool; IsReliable : bool; IsBridge : bool; Type_ : string
}.
End PublisherOptions.

Module SubscriberOptions.
(** Modelled from the spec: [SubscriberOptions] of client.h (not among
    the sources), with the accessors [Client::CreateSubscriber] calls. *)
Record t := mk { IsReliable : bool; IsBridge : bool; Type_ : string }.
End SubscriberOptions.

(** Modelled from the spec: the requests of proto/subspace.proto (not
    among the sources) that client.cc builds, with the fields it sets. *)
Inductive Request :=
| InitRequest (client_name : string)
| CreatePublisherRequest (channel_name : string) (slot_size num_slots : Z)
    (is_public is_reliable is_bridge : bool) (type : string)
| CreateSubscriberRequest (channel_name : string) (subscriber_id : Z)
    (is_reliable is_bridge : bool) (type : string)
| GetTriggersRequest (channel_name : string).

Module CreatePublisherResponse.
(** Modelled from the spec: [CreatePublisherResponse] of
    proto/subspace.proto, with the fields [Client::CreatePublisher] reads. *)
Record t := mk {
  error : string;
  channel_id : Z;
  publisher_id : Z;
  type : string;
  ccb_fd_index : Z;
  buffers_fd_index : Z;
  pub_trigger_fd_index : Z;
  pub_poll_fd_index : Z;
  sub_trigger_fd_indexes : list Z;
  num_sub_updates : Z
}.
End CreatePublisherResponse.

Module CreateSubscriberResponse.
(** Modelled from the spec: [CreateSubscriberResponse] of
    proto/subspace.proto, with the fields [Client::ReloadSubscriber]
    reads. *)
Record t := mk {
  error : string;
  slot_size : Z;
  num_slots : Z;
  channel_id : Z;
  subscriber_id : Z;
  type : string;
  ccb_fd_index : Z;
  buffers_fd_index : Z;
  trigger_fd_index : Z;
  poll_fd_index : Z;
  reliable_pub_trigger_fd_indexes : list Z;
  num_pub_updates : Z
}.
End CreateSubscriberResponse.

Module GetTriggersResponse.
(** Modelled from the spec: [GetTriggersResponse] of proto/subspace.proto,
    with the fields the reload functions read. *)
Record t := mk {
  sub_trigger_fd_indexes : list Z;
  reliable_pub_trigger_fd_indexes : list Z
}.
End GetTriggersResponse.

Module Response.
(** Modelled from the spec: [Response] of proto/subspace.proto; reading a
    sub-message that was not sent yields its default. *)
Record t := mk {
  init_scb_fd_index : Z;
  create_publisher : CreatePublisherResponse.t;
  create_subscriber : CreateSubscriberResponse.t;
  get_triggers : GetTriggersResponse.t
}.
End Response.

(** How one request / response exchange with the server goes: each step of
    [Client::SendRequestReceiveResponse] may fail. *)
Module Exchange.
Record t := mk {
  serialize_ok : bool;
  send_status : Status;
  receive_status : Status;
  parse_ok : bool;
  receive_fds_status : Status;
  response : Response.t;
  fds : list Z
}.
End Exchange.

(** The collaborators outside the channel core. *)
Record Environment := mkEnvironment {
  connect_status : Status;       (* what [socket_.Connect] returns *)
  server : nat -> Exchange.t;    (* the n-th exchange with the server *)
  map_status : Status;           (* what [Channel::Map] returns *)
  map_address : Z;               (* where [mmap] puts the buffer region *)
  now_ns : Z                     (* the monotonic clock *)
}.

Inductive Event :=
| EvConnect (server_socket : string)
| EvRequest (req : Request)
| EvSocketClose
| EvClearPollFd (channel : Z)
| EvTriggerSubscribers (publisher : Z)
| EvTriggerReliablePublishers (subscriber : Z)
| EvDroppedMessages (callback : Callback) (subscriber : Z) (count : Z).

Module Publisher.
(** Modelled from the spec: [class Publisher] of client.h (not among the
    sources): a channel handle (section 2, item 6), the slot the
    participant holds, its server-given id and options, and the trigger
    descriptors of the subscribers. *)
Record t := mk {
  channel : Channel.t;
  slot_ : option Z;
  publisher_id_ : Z;
  options_ : PublisherOptions.t;
  trigger_fd_ : Z;
  poll_fd_ : Z;
  subscribers_ : list Z
}.

(** What a dangling [Publisher *] reads as. *)
Definition zero : t :=
  mk (Channel.mk EmptyString 0 0 0 EmptyString 0 0) None 0
     (PublisherOptions.mk false false false EmptyString) (-1) (-1) [].

(** The object with its channel handle replaced. *)
Definition with_channel (v : Channel.t) (p : t) : t :=
  mk v (slot_ p) (publisher_id_ p) (options_ p) (trigger_fd_ p)
     (poll_fd_ p) (subscribers_ p).

(** Modelled from the spec: [Publisher::SetSlot] (client.h). *)
Definition SetSlot (v : option Z) (p : t) : t :=
  mk (channel p) v (publisher_id_ p) (options_ p) (trigger_fd_ p)
     (poll_fd_ p) (subscribers_ p).

(** Modelled from the spec: [Publisher::SetTriggerFd] (client.h). *)
Definition SetTriggerFd (v : Z) (p : t) : t :=
  mk (channel p) (slot_ p) (publisher_id_ p) (options_ p) v
     (poll_fd_ p) (subscribers_ p).

(** Modelled from the spec: [Publisher::SetPollFd] (client.h). *)
Definition SetPollFd (v : Z) (p : t) : t :=
  mk (channel p) (slot_ p) (publisher_id_ p) (options_ p) (trigger_fd_ p)
     v (subscribers_ p).

(** The object with [subscribers_] replaced. *)
Definition with_subscribers (v : list Z) (p : t) : t :=
  mk (channel p) (slot_ p) (publisher_id_ p) (options_ p) (trigger_fd_ p)
     (poll_fd_ p) v.

(** Modelled from the spec: [Publisher::CurrentSlot] (client.h). *)
Definition CurrentSlot (p : t) : option Z := slot_ p.

(** Modelled from the spec: [Publisher::IsReliable] (client.h). *)
Definition IsReliable (p : t) : bool :=
  PublisherOptions.IsReliable (options_ p).

(** Modelled from the spec: [Publisher::GetPublisherId] (client.h). *)
Definition GetPublisherId (p : t) : Z := publisher_id_ p.

(** Modelled from the spec: [Publisher::NumSubscribers] (client.h). *)
Definition NumSubscribers (p : t) : Z := Z.of_nat (length (subscribers_ p)).

(** Modelled from the spec: [Publisher::ClearSubscribers] (client.h). *)
Definition ClearSubscribers (p : t) : t := with_subscribers [] p.

(** Modelled from the spec: [Publisher::AddSubscriber] (client.h). *)
Definition AddSubscriber (fd : Z) (p : t) : t :=
  with_subscribers (subscribers_ p ++ [fd]) p.
End Publisher.

Module Subscriber.
(** Modelled from the spec: [class Subscriber] of client.h (not among the
    sources): a channel handle, the slot the subscriber's cursor is on,
    its server-given id and options, and the trigger descriptors of the
    reliable publishers. *)
Record t := mk {
  channel : Channel.t;
  slot_ : option Z;
  subscriber_id_ : Z;
  options_ : SubscriberOptions.t;
  trigger_fd_ : Z;
  poll_fd_ : Z;
  reliable_publishers_ : list Z
}.

(** What a dangling [Subscriber *] reads as. *)
Definition zero : t :=
  mk (Channel.mk EmptyString 0 0 0 EmptyString 0 0) None 0
     (SubscriberOptions.mk false false EmptyString) (-1) (-1) [].

(** The object with its channel handle replaced. *)
Definition with_channel (v : Channel.t) (s : t) : t :=
  mk v (slot_ s) (subscriber_id_ s) (options_ s) (trigger_fd_ s)
     (poll_fd_ s) (reliable_publishers_ s).

(** Modelled from the spec: [Subscriber::SetSlot] (client.h). *)
Definition SetSlot (v : option Z) (s : t) : t :=
  mk (channel s) v (subscriber_id_ s) (options_ s) (trigger_fd_ s)
     (poll_fd_ s) (reliable_publishers_ s).

(** Modelled from the spec: [Subscriber::SetTriggerFd] (client.h). *)
Definition SetTriggerFd (v : Z) (s : t) : t :=
  mk (channel s) (slot_ s) (subscriber_id_ s) (options_ s) v
     (poll_fd_ s) (reliable_publishers_ s).

(** Modelled from the spec: [Subscriber::SetPollFd] (client.h). *)
Definition SetPollFd (v : Z) (s : t) : t :=
  mk (channel s) (slot_ s) (subscriber_id_ s) (options_ s) (trigger_fd_ s)
     v (reliable_publishers_ s).

(** The object with [reliable_publishers_] replaced. *)
Definition with_publishers (v : list Z) (s : t) : t :=
  mk (channel s) (slot_ s) (subscriber_id_ s) (options_ s) (trigger_fd_ s)
     (poll_fd_ s) v.

(** Modelled from the spec: [Subscriber::CurrentSlot] (client.h). *)
Definition CurrentSlot (s : t) : option Z := slot_ s.

(** Modelled from the spec: [Subscriber::IsReliable] (client.h). *)
Definition IsReliable (s : t) : bool :=
  SubscriberOptions.IsReliable (options_ s).

(** Modelled from the spec: [Subscriber::GetSubscriberId] (client.h). *)
Definition GetSubscriberId (s : t) : Z := subscriber_id_ s.

(** Modelled from the spec: [Subscriber::IsPlaceholder] (client.h). *)
Definition IsPlaceholder (s : t) : bool := Channel.IsPlaceholder (channel s).

(** Modelled from the spec: [Subscriber::ClearPublishers] (client.h). *)
Definition ClearPublishers (s : t) : t := with_publishers [] s.

(** Modelled from the spec: [Subscriber::AddPublisher] (client.h). *)
Definition AddPublisher (fd : Z) (s : t) : t :=
  with_publishers (reliable_publishers_ s ++ [fd]) s.
End Subscriber.

(** ** The world a client runs in

    The fields of [class Client], the objects it has made, the shared
    memory of the channel, the environment and the trace. *)

Module World.
Record t := mk {
  socket_connected : bool;
  scb_fd_ : Z;
  dropped_message_callbacks_ : gmap Z Callback;
  publishers : gmap Z Publisher.t;
  subscribers : gmap Z Subscriber.t;
  next_object : Z;
  ccb : CCB.t;
  buffers : gmap Z MessagePrefix.t;
  scb : gmap Z ChannelCounters.t;
  env : Environment;
  rpcs : nat;
  trace : list Event
}.

Definition with_socket_connected (v : bool) (w : t) : t :=
  mk v (scb_fd_ w) (dropped_message_callbacks_ w) (publishers w)
     (subscribers w) (next_object w) (ccb w) (buffers w) (scb w) (env w)
     (rpcs w) (trace w).
Definition with_scb_fd (v : Z) (w : t) : t :=
  mk (socket_connected w) v (dropped_message_callbacks_ w) (publishers w)
     (subscribers w) (next_object w) (ccb w) (buffers w) (scb w) (env w)
     (rpcs w) (trace w).
Definition with_dropped_message_callbacks (v : gmap Z Callback) (w : t) : t :=
  mk (socket_connected w) (scb_fd_ w) v (publishers w) (subscribers w)
     (next_object w) (ccb w) (buffers w) (scb w) (env w) (rpcs w)
     (trace w).
Definition with_publishers (v : gmap Z Publisher.t) (w : t) : t :=
  mk (socket_connected w) (scb_fd_ w) (dropped_message_callbacks_ w) v
     (subscribers w) (next_object w) (ccb w) (buffers w) (scb w) (env w)
     (rpcs w) (trace w).
Definition with_subscribers (v : gmap Z Subscriber.t) (w : t) : t :=
  mk (socket_connected w) (scb_fd_ w) (dropped_message_callbacks_ w)
     (publishers w) v (next_object w) (ccb w) (buffers w) (scb w) (env w)
     (rpcs w) (trace w).
Definition with_next_object (v : Z) (w : t) : t :=
  mk (socket_connected w) (scb_fd_ w) (dropped_message_callbacks_ w)
     (publishers w) (subscribers w) v (ccb w) (buffers w) (scb w) (env w)
     (rpcs w) (trace w).
Definition with_ccb (v : CCB.t) (w : t) : t :=
  mk (socket_connected w) (scb_fd_ w) (dropped_message_callbacks_ w)
     (publishers w) (subscribers w) (next_object w) v (buffers w) (scb w)
     (env w) (rpcs w) (trace w).
Definition with_buffers (v : gmap Z MessagePrefix.t) (w : t) : t :=
  mk (socket_connected w) (scb_fd_ w) (dropped_message_callbacks_ w)
     (publishers w) (subscribers w) (next_object w) (ccb w) v (scb w)
     (env w) (rpcs w) (trace w).
Definition with_rpcs (v : nat) (w : t) : t :=
  mk (socket_connected w) (scb_fd_ w) (dropped_message_callbacks_ w)
     (publishers w) (subscribers w) (next_object w) (ccb w) (buffers w)
     (scb w) (env w) v (trace w).
Definition with_trace (v : list Event) (w : t) : t :=
  mk (socket_connected w) (scb_fd_ w) (dropped_message_callbacks_ w)
     (publishers w) (subscribers w) (next_object w) (ccb w) (buffers w)
     (scb w) (env w) (rpcs w) v.
End World.

(** ** A state-and-status monad for the member functions of [Client]

    A member function changes the world and returns a value or a non-ok
    status; what it changed before failing stays changed. *)

Definition M (A : Type) : Type := World.t -> StatusOr A * World.t.

Definition ret {A} (a : A) : M A := fun w => (Ok a, w).

Definition fail {A} (s : Status) : M A := fun w => (Failed s, w).

Definition bind {A B} (m : M A) (k : A -> M B) : M B :=
  fun w =>
    match m w with
    | (Ok a, w') => k a w'
    | (Failed s, w') => (Failed s, w')
    end.

Notation "x <- m ;; k" := (bind m (fun x => k))
  (at level 100, m at next level, right associativity).
Notation "m ;;; k" := (bind m (fun _ => k))
  (at level 100, right associativity).

Definition get : M World.t := fun w => (Ok w, w).

Definition modify (f : World.t -> World.t) : M unit := fun w => (Ok tt, f w).

Definition add_event (e : Event) (w : World.t) : World.t :=
  World.with_trace (World.trace w ++ [e]) w.

Definition emit (e : Event) : M unit := modify (add_event e).

(** Dereferencing a [Publisher *] or a [Subscriber *]. *)
Definition pub (p : Z) (w : World.t) : Publisher.t :=
  default Publisher.zero (World.publishers w !! p).

Definition sub (s : Z) (w : World.t) : Subscriber.t :=
  default Subscriber.zero (World.subscribers w !! s).

Definition set_pub (p : Z) (f : Publisher.t -> Publisher.t) (w : World.t)
  : World.t :=
  World.with_publishers (<[p := f (pub p w)]> (World.publishers w)) w.

Definition set_sub (s : Z) (f : Subscriber.t -> Subscriber.t) (w : World.t)
  : World.t :=
  World.with_subscribers (<[s := f (sub s w)]> (World.subscribers w)) w.

Definition update_pub (p : Z) (f : Publisher.t -> Publisher.t) : M unit :=
  modify (set_pub p f).

Definition update_sub (s : Z) (f : Subscriber.t -> Subscriber.t) : M unit :=
  modify (set_sub s f).

Definition pub_channel (p : Z) (f : Channel.t -> Channel.t) : M unit :=
  update_pub p (fun o => Publisher.with_channel (f (Publisher.channel o)) o).

Definition sub_channel (s : Z) (f : Channel.t -> Channel.t) : M unit :=
  update_sub s (fun o => Subscriber.with_channel (f (Subscriber.channel o)) o).

(** [scb->counters[channel_id]]. *)
Definition counters (channel_id : Z) (w : World.t) : ChannelCounters.t :=
  default ChannelCounters.zero (World.scb w !! channel_id).

(** [fds[index]]; indexing past the end is undefined in C++, the model
    reads the invalid descriptor there. *)
Definition fd_at (fds : list Z) (index : Z) : Z :=
  if index <? 0 then -1 else default (-1) (fds !! Z.to_nat index).

(** [socket_.Close()]. *)
Definition socket_Close (w : World.t) : World.t :=
  World.with_socket_connected false (add_event EvSocketClose w).

(** ** client.cc *)

(** [Client::CheckConnected]. *)
Definition CheckConnected : M unit :=
  fun w =>
    if negb (World.socket_connected w) then
      (Failed (InternalError
         "Client is not connected to the server; have you called Init()?"), w)
    else (Ok tt, w).

(** [Client::SendRequestReceiveResponse]; the answer is the next exchange
    of the environment. *)
Definition SendRequestReceiveResponse (req : Request)
  : M (Response.t * list Z) :=
  fun w =>
    let x := server (World.env w) (World.rpcs w) in
    let w := World.with_rpcs (S (World.rpcs w)) w in
    if negb (Exchange.serialize_ok x) then
      (Failed (InternalError "Failed to serialize request"), w)
    else
      let w := add_event (EvRequest req) w in
      if negb (Status_ok (Exchange.send_status x)) then
        (Failed (Exchange.send_status x), socket_Close w)
      else if negb (Status_ok (Exchange.receive_status x)) then
        (Failed (Exchange.receive_status x), socket_Close w)
      else if negb (Exchange.parse_ok x) then
        (Failed (InternalError "Failed to parse response"), socket_Close w)
      else if negb (Status_ok (Exchange.receive_fds_status x)) then
        (Failed (Exchange.receive_fds_status x), socket_Close w)
      else (Ok (Exchange.response x, Exchange.fds x), w).

(** [socket_.Connect(server_socket)]. *)
Definition socket_Connect (server_socket : string) : M unit :=
  fun w =>
    let w := add_event (EvConnect server_socket) w in
    let status := connect_status (World.env w) in
    if negb (Status_ok status) then (Failed status, w)
    else (Ok tt, World.with_socket_connected true w).

(** [Client::Init]. *)
Definition Init (server_socket client_name : string) : M unit :=
  fun w =>
    if World.socket_connected w then
      (Failed (InternalError
         "Client is already connected to the server; Init() called twice perhaps?"),
       w)
    else
      (socket_Connect server_socket ;;;
       r <- SendRequestReceiveResponse (InitRequest client_name) ;;
       modify (World.with_scb_fd
                 (fd_at (snd r) (Response.init_scb_fd_index (fst r))))) w.

(** The line feed that ends some of the messages. *)
Definition newline : string := String (Ascii.ascii_of_nat 10) EmptyString.

(** [Client::RegisterDroppedMessageCallback]. *)
Definition RegisterDroppedMessageCallback (subscriber : Z)
    (callback : Callback) (w : World.t) : World.t :=
  World.with_dropped_message_callbacks
    (<[subscriber := callback]> (World.dropped_message_callbacks_ w)) w.

(** [Client::UnregisterDroppedMessageCallback]. *)
Definition UnregisterDroppedMessageCallback (subscriber : Z) : M unit :=
  fun w =>
    match World.dropped_message_callbacks_ w !! subscriber with
    | None =>
        (Failed (InternalError
           ("No dropped message callback has been registered for channel "
            ++ Channel.Name (Subscriber.channel (sub subscriber w))
            ++ newline)), w)
    | Some _ =>
        (Ok tt,
         World.with_dropped_message_callbacks
           (delete subscriber (World.dropped_message_callbacks_ w)) w)
    end.

(** *** Member functions of client.h that client.cc relies on *)

(** Modelled from the spec: [Channel::Map] (channel.cc, not among the
    sources): a participant "maps the CCB and buffer region into its own
    address space"; mapping failures are "surfaced unchanged". *)
Definition Channel_Map (ch : Channel.t) (e : Environment)
  : StatusOr Channel.t :=
  if negb (Status_ok (map_status e)) then Failed (map_status e)
  else Ok (Channel.with_buffers (map_address e) ch).

(** Modelled from the spec: [Channel::Unmap] (channel.cc): the handle
    gives up its mapping of the buffer region. *)
Definition Channel_Unmap (ch : Channel.t) : Channel.t :=
  Channel.with_buffers 0 ch.

(** Modelled from the spec: [ClientChannel::GetCurrentBufferAddress]
    (client.h), the buffer address (section 4.7) of the slot currently
    held, [nullptr] when none is held. *)
Definition GetCurrentBufferAddress (ch : Channel.t) (slot : option Z)
    (c : CCB.t) : Z :=
  match slot with
  | None => 0
  | Some s => Channel.GetBufferAddress ch (MessageSlot.id (CCB.slot s c))
  end.

(** Modelled from the spec: [Publisher::FindFreeSlot] (client.h), the
    channel's [FindFreeSlot] on the shared CCB. *)
Definition Publisher_FindFreeSlot (reliable : bool) (owner : Z)
  : M (option Z) :=
  fun w =>
    let '(slot, c) := FindFreeSlot reliable owner (World.ccb w) in
    (Ok slot, World.with_ccb c w).

(** Modelled from the spec: [Publisher::ActivateSlotAndGetAnother]
    (client.h): the channel operation applied to the publisher's current
    slot, with the publisher's id as owner. *)
Definition Publisher_ActivateSlotAndGetAnother (p : Z) (slot : Z)
    (reliable is_activation omit_prefix : bool) : M PublishedMessage :=
  fun w =>
    let '(msg, c, mem) :=
      ActivateSlotAndGetAnother
        (Publisher.channel (pub p w)) (now_ns (World.env w)) slot
        reliable is_activation (Publisher.GetPublisherId (pub p w))
        omit_prefix (World.ccb w) (World.buffers w) in
    (Ok msg, World.with_buffers mem (World.with_ccb c w)).

(** Modelled from the spec: [Subscriber::NextSlot] (client.h, not among
    the sources): the channel operation at the subscriber's current slot,
    reliability and id. *)
Definition Subscriber_NextSlot (s : Z) (w : World.t) : option Z * World.t :=
  let '(slot, c) :=
    NextSlot (Subscriber.CurrentSlot (sub s w))
             (Subscriber.IsReliable (sub s w))
             (Subscriber.GetSubscriberId (sub s w)) (World.ccb w) in
  (slot, World.with_ccb c w).

(** Modelled from the spec: [Subscriber::LastSlot] (client.h), likewise. *)
Definition Subscriber_LastSlot (s : Z) (w : World.t) : option Z * World.t :=
  let '(slot, c) :=
    LastSlot (Subscriber.CurrentSlot (sub s w))
             (Subscriber.IsReliable (sub s w))
             (Subscriber.GetSubscriberId (sub s w)) (World.ccb w) in
  (slot, World.with_ccb c w).

(** Modelled from the spec: [Subscriber::CurrentOrdinal] (client.h): the
    ordinal of the slot held, as [Client::GetCurrentOrdinal] reads it. *)
Definition Subscriber_CurrentOrdinal (s : Z) (w : World.t) : Z :=
  match Subscriber.CurrentSlot (sub s w) with
  | None => -1
  | Some slot => MessageSlot.ordinal (CCB.slot slot (World.ccb w))
  end.

(** Modelled from the spec: [Subscriber::Timestamp] (client.h): the
    timestamp in the prefix of the slot held. *)
Definition Subscriber_Timestamp (s : Z) (w : World.t) : Z :=
  match Subscriber.CurrentSlot (sub s w) with
  | None => 0
  | Some slot =>
      MessagePrefix.timestamp
        (load_prefix (Subscriber.channel (sub s w)) (World.buffers w)
           (Channel.Prefix (Subscriber.channel (sub s w))
                           (CCB.slot slot (World.ccb w))))
  end.

(** *** Reloading what the server knows *)

Definition add_fds (fds : list Z) (indexes : list Z) (acc : list Z) : list Z :=
  fold_left (fun acc index => (acc ++ [fd_at fds index])%list) indexes acc.

(** [Client::ReloadSubscribersIfNecessary]. *)
Definition ReloadSubscribersIfNecessary (publisher : Z) : M unit :=
  CheckConnected ;;;
  w <- get ;;
  let ch := Publisher.channel (pub publisher w) in
  let updates :=
    ChannelCounters.num_sub_updates (counters (Channel.GetChannelId ch) w) in
  if Channel.NumUpdates ch =? updates then ret tt
  else
    pub_channel publisher (Channel.SetNumUpdates updates) ;;;
    (* We do have updates, get a new list of subscribers for the channel. *)
    r <- SendRequestReceiveResponse (GetTriggersRequest (Channel.Name ch)) ;;
    let sub_resp := Response.get_triggers (fst r) in
    update_pub publisher Publisher.ClearSubscribers ;;;
    update_pub publisher
      (fun o => Publisher.with_subscribers
                  (add_fds (snd r)
                     (GetTriggersResponse.sub_trigger_fd_indexes sub_resp)
                     (Publisher.subscribers_ o)) o).

(** [Client::ReloadReliablePublishersIfNecessary]. *)
Definition ReloadReliablePublishersIfNecessary (subscriber : Z) : M unit :=
  CheckConnected ;;;
  w <- get ;;
  let ch := Subscriber.channel (sub subscriber w) in
  let updates :=
    ChannelCounters.num_pub_updates (counters (Channel.GetChannelId ch) w) in
  if Channel.NumUpdates ch =? updates then ret tt
  else
    sub_channel subscriber (Channel.SetNumUpdates updates) ;;;
    r <- SendRequestReceiveResponse (GetTriggersRequest (Channel.Name ch)) ;;
    let sub_resp := Response.get_triggers (fst r) in
    update_sub subscriber Subscriber.ClearPublishers ;;;
    update_sub subscriber
      (fun o => Subscriber.with_publishers
                  (add_fds (snd r)
                     (GetTriggersResponse.reliable_pub_trigger_fd_indexes
                        sub_resp)
                     (Subscriber.reliable_publishers_ o)) o).

Definition is_empty_string (s : string) : bool :=
  match s with EmptyString => true | _ => false end.

(** [subscriber->Map(...)] on the object behind the pointer. *)
Definition Subscriber_Map (subscriber : Z) : M unit :=
  fun w =>
    match Channel_Map (Subscriber.channel (sub subscriber w)) (World.env w) with
    | Failed s => (Failed s, w)
    | Ok ch => (Ok tt, set_sub subscriber (Subscriber.with_channel ch) w)
    end.

Definition Publisher_Map (publisher : Z) : M unit :=
  fun w =>
    match Channel_Map (Publisher.channel (pub publisher w)) (World.env w) with
    | Failed s => (Failed s, w)
    | Ok ch => (Ok tt, set_pub publisher (Publisher.with_channel ch) w)
    end.

(** [Client::ReloadSubscriber]. *)
Definition ReloadSubscriber (subscriber : Z) : M unit :=
  w <- get ;;
  let ch := Subscriber.channel (sub subscriber w) in
  (* Check if there are any updates to the publishers since that last
     time we checked. *)
  let updates :=
    ChannelCounters.num_pub_updates (counters (Channel.GetChannelId ch) w) in
  if Channel.NumUpdates ch =? updates then ret tt
  else
    sub_channel subscriber (Channel.SetNumUpdates updates) ;;;
    CheckConnected ;;;
    r <- SendRequestReceiveResponse
           (CreateSubscriberRequest (Channel.Name ch)
              (Subscriber.GetSubscriberId (sub subscriber w))
              false false EmptyString) ;;
    let sub_resp := Response.create_subscriber (fst r) in
    let fds := snd r in
    if negb (is_empty_string (CreateSubscriberResponse.error sub_resp)) then
      fail (InternalError (CreateSubscriberResponse.error sub_resp))
    else
      (* Unmap the channel memory. *)
      sub_channel subscriber Channel_Unmap ;;;
      sub_channel subscriber
        (Channel.SetSlots (CreateSubscriberResponse.slot_size sub_resp)
                          (CreateSubscriberResponse.num_slots sub_resp)) ;;;
      Subscriber_Map subscriber ;;;
      update_sub subscriber
        (Subscriber.SetTriggerFd
           (fd_at fds (CreateSubscriberResponse.trigger_fd_index sub_resp))) ;;;
      update_sub subscriber
        (Subscriber.SetPollFd
           (fd_at fds (CreateSubscriberResponse.poll_fd_index sub_resp))) ;;;
      (* Add all publisher trigger fds to the subscriber channel. *)
      update_sub subscriber Subscriber.ClearPublishers ;;;
      update_sub subscriber
        (fun o => Subscriber.with_publishers
                    (add_fds fds
                       (CreateSubscriberResponse.reliable_pub_trigger_fd_indexes
                          sub_resp)
                       (Subscriber.reliable_publishers_ o)) o).

(** *** Publishing *)

(** The tail of [GetMessageBuffer]: the address of the current buffer. *)
Definition current_buffer (publisher : Z) : M Z :=
  w <- get ;;
  let o := pub publisher w in
  let buffer :=
    GetCurrentBufferAddress (Publisher.channel o) (Publisher.CurrentSlot o)
                            (World.ccb w) in
  if buffer =? 0 then
    fail (InternalError
            ("Channel " ++ Channel.Name (Publisher.channel o)
             ++ " has no buffer"))
  else ret buffer.

(** [Client::GetMessageBuffer]; the [void *] returned is an address, 0
    being [nullptr]. *)
Definition GetMessageBuffer (publisher : Z) : M Z :=
  emit (EvClearPollFd publisher) ;;;
  ReloadSubscribersIfNecessary publisher ;;;
  w <- get ;;
  let o := pub publisher w in
  if Publisher.IsReliable o && bool_decide (Publisher.CurrentSlot o = None)
  then
    (* We are a reliable publisher and don't have a slot yet.  Try to
       allocate one now.  If we fail, we return nullptr so that the caller
       knows to try again.  If there are no subscribers to the channel,
       don't allow a message to be published yet. *)
    if Publisher.NumSubscribers o =? 0 then ret 0
    else
      slot <- Publisher_FindFreeSlot true (Publisher.GetPublisherId o) ;;
      match slot with
      | None => ret 0
      | Some s =>
          update_pub publisher (Publisher.SetSlot (Some s)) ;;;
          current_buffer publisher
      end
  else current_buffer publisher.

(** Modelled from the spec: [Publisher::SetMessageSize] (client.h): the
    size is left in the slot being written, where
    [ActivateSlotAndGetAnother] finds it. *)
Definition SetMessageSize (slot : Z) (message_size : Z) : M unit :=
  modify (fun w =>
    World.with_ccb
      (CCB.update slot (MessageSlot.with_message_size message_size)
                  (World.ccb w)) w).

(** [Client::PublishMessageInternal].  Publishing without holding a slot
    dereferences a null slot; the model has no result there ([None]). *)
Definition PublishMessageInternal (publisher : Z) (message_size : Z)
    (omit_prefix : bool) (w : World.t)
  : option (StatusOr Message * World.t) :=
  (* Check if there are any new subscribers and if so, load their trigger
     fds. *)
  match ReloadSubscribersIfNecessary publisher w with
  | (Failed s, w) => Some (Failed s, w)
  | (Ok _, w) =>
      match Publisher.CurrentSlot (pub publisher w) with
      | None => None
      | Some old_slot =>
          Some
            ((SetMessageSize old_slot message_size ;;;
              w1 <- get ;;
              msg <- Publisher_ActivateSlotAndGetAnother publisher old_slot
                       (Publisher.IsReliable (pub publisher w1)) false
                       omit_prefix ;;
              update_pub publisher (Publisher.SetSlot (new_slot msg)) ;;;
              (* Only trigger subscribers if we need to. *)
              (if pm_notify msg then emit (EvTriggerSubscribers publisher)
               else ret tt) ;;;
              w2 <- get ;;
              match new_slot msg with
              | None =>
                  if Publisher.IsReliable (pub publisher w2) then
                    (* Reliable publishers don't get a slot until it's
                       asked for. *)
                    ret (Message_of message_size 0 (pm_ordinal msg)
                                    (pm_timestamp msg))
                  else
                    fail (InternalError
                            ("Out of slots for channel "
                             ++ Channel.Name
                                  (Publisher.channel (pub publisher w2))))
              | Some _ =>
                  ret (Message_of message_size 0 (pm_ordinal msg)
                                  (pm_timestamp msg))
              end) w)
      end
  end.

(** [Client::PublishMessage]. *)
Definition PublishMessage (publisher : Z) (message_size : Z) (w : World.t)
  : option (StatusOr Message * World.t) :=
  PublishMessageInternal publisher message_size false w.

(** [Client::ActivateReliableChannel]: a reliable publisher always sends a
    single activation message when it is created. *)
Definition ActivateReliableChannel (publisher : Z) : M unit :=
  w <- get ;;
  let o := pub publisher w in
  slot <- Publisher_FindFreeSlot true (Publisher.GetPublisherId o) ;;
  match slot with
  | None =>
      fail (InternalError
              ("Channel " ++ Channel.Name (Publisher.channel o)
               ++ " has no free slots"))
  | Some slot =>
      update_pub publisher (Publisher.SetSlot (Some slot)) ;;;
      w <- get ;;
      let buffer :=
        GetCurrentBufferAddress (Publisher.channel (pub publisher w))
          (Publisher.CurrentSlot (pub publisher w)) (World.ccb w) in
      if buffer =? 0 then
        fail (InternalError
                ("Channel " ++ Channel.Name (Publisher.channel o)
                 ++ " has no buffer"))
      else
        (* slot->message_size = 1 *)
        modify (fun w =>
          World.with_ccb
            (CCB.update slot (MessageSlot.with_message_size 1) (World.ccb w))
            w) ;;;
        Publisher_ActivateSlotAndGetAnother publisher slot true true false ;;;
        update_pub publisher (Publisher.SetSlot None) ;;;
        emit (EvTriggerSubscribers publisher)
  end.

(** *** Creating a publisher *)

(** Modelled from the spec: the constructor of [Publisher] (client.h): the
    handle starts with no slot, no mapping ([buffers_ = nullptr]), no
    updates seen ([num_updates_ = 0]) and invalid descriptors. *)
Definition new_Publisher (name : string) (slot_size num_slots : Z)
    (channel_id publisher_id : Z) (type : string) (opts : PublisherOptions.t)
  : Publisher.t :=
  Publisher.mk (Channel.mk name num_slots slot_size channel_id type 0 0)
               None publisher_id opts (-1) (-1) [].

(** The [std::unique_ptr<Publisher>] goes out of scope. *)
Definition destroy_pub (p : Z) (w : World.t) : World.t :=
  World.with_publishers (delete p (World.publishers w)) w.

Definition on_failure {A} (cleanup : World.t -> World.t) (m : M A) : M A :=
  fun w =>
    match m w with
    | (Ok a, w') => (Ok a, w')
    | (Failed s, w') => (Failed s, cleanup w')
    end.

(** [Client::CreatePublisher]; the [Publisher *] returned is the address of
    the new object. *)
Definition CreatePublisher (channel_name : string) (slot_size num_slots : Z)
    (opts : PublisherOptions.t) : M Z :=
  CheckConnected ;;;
  (* Send request to server and wait for response. *)
  r <- SendRequestReceiveResponse
         (CreatePublisherRequest channel_name slot_size num_slots
            (PublisherOptions.IsPublic opts)
            (PublisherOptions.IsReliable opts)
            (PublisherOptions.IsBridge opts)
            (PublisherOptions.Type_ opts)) ;;
  let pub_resp := Response.create_publisher (fst r) in
  let fds := snd r in
  if negb (is_empty_string (CreatePublisherResponse.error pub_resp)) then
    fail (InternalError (CreatePublisherResponse.error pub_resp))
  else
    (* Make a local ClientChannel object and map in the shared memory
       allocated by the server. *)
    w <- get ;;
    let channel := World.next_object w in
    modify (fun w =>
      World.with_next_object (channel + 1)
        (World.with_publishers
           (<[channel :=
                new_Publisher channel_name slot_size num_slots
                  (CreatePublisherResponse.channel_id pub_resp)
                  (CreatePublisherResponse.publisher_id pub_resp)
                  (CreatePublisherResponse.type pub_resp) opts]>
              (World.publishers w)) w)) ;;;
    on_failure (destroy_pub channel)
      (Publisher_Map channel ;;;
       update_pub channel
         (Publisher.SetTriggerFd
            (fd_at fds
               (CreatePublisherResponse.pub_trigger_fd_index pub_resp))) ;;;
       update_pub channel
         (Publisher.SetPollFd
            (fd_at fds (CreatePublisherResponse.pub_poll_fd_index pub_resp))) ;;;
       (* Add all subscriber triggers fds to the publisher channel. *)
       update_pub channel Publisher.ClearSubscribers ;;;
       update_pub channel
         (fun o => Publisher.with_subscribers
                     (add_fds fds
                        (CreatePublisherResponse.sub_trigger_fd_indexes
                           pub_resp)
                        (Publisher.subscribers_ o)) o) ;;;
       pub_channel channel
         (Channel.SetNumUpdates
            (CreatePublisherResponse.num_sub_updates pub_resp)) ;;;
       (if negb (PublisherOptions.IsReliable opts) then
          (* A publisher needs a slot.  Allocate one. *)
          w <- get ;;
          slot <- Publisher_FindFreeSlot false
                    (Publisher.GetPublisherId (pub channel w)) ;;
          match slot with
          | None => fail (InternalError "No slot available for publisher")
          | Some s => update_pub channel (Publisher.SetSlot (Some s))
          end
        else
          (* Send a single activation message to the channel. *)
          ActivateReliableChannel channel) ;;;
       emit (EvTriggerSubscribers channel) ;;;
       ret channel).

(** *** Reading *)

(** Drop detection in [Client::ReadMessageInternal]: when the ordinal of
    the new slot does not follow the last one seen, the callback registered
    for the subscriber, if any, is called. *)
Definition report_drop (subscriber : Z) (last_ordinal : Z) (new_slot : Z)
    (w : World.t) : World.t :=
  let slot := CCB.slot new_slot (World.ccb w) in
  if negb (last_ordinal =? -1)
     && negb (MessageSlot.ordinal slot =? wrap_int64 (last_ordinal + 1))
  then
    (* We dropped a message.  If we have a callback registered for this
       channel, call it with the number of dropped messages. *)
    match World.dropped_message_callbacks_ w !! subscriber with
    | Some callback =>
        add_event
          (EvDroppedMessages callback subscriber
             (wrap_int64 (MessageSlot.ordinal slot - last_ordinal))) w
    | None => w
    end
  else w.

(** The first half of [Client::ReadMessageInternal]: clear the trigger,
    remember the ordinal last seen, move to the next (or newest) slot, make
    it the current slot and check for dropped messages. *)
Definition take_slot (subscriber : Z) (mode : ReadMode) (clear_trigger : bool)
    (w : World.t) : option Z * World.t :=
  let w := if clear_trigger
           then add_event (EvClearPollFd subscriber) w else w in
  let old_slot := Subscriber.CurrentSlot (sub subscriber w) in
  let last_ordinal :=
    match old_slot with
    | Some slot => MessageSlot.ordinal (CCB.slot slot (World.ccb w))
    | None => -1
    end in
  let '(new_slot, w) :=
    match mode with
    | kReadNext => Subscriber_NextSlot subscriber w
    | kReadNewest => Subscriber_LastSlot subscriber w
    end in
  match new_slot with
  | None =>
      (* I'm out of messages to read, trigger the publishers to give me
         some more.  This is only for reliable publishers. *)
      (None, add_event (EvTriggerReliablePublishers subscriber) w)
  | Some new_slot =>
      let w := set_sub subscriber (Subscriber.SetSlot (Some new_slot)) w in
      (Some new_slot, report_drop subscriber last_ordinal new_slot w)
  end.

(** [prefix != nullptr && (prefix->flags & kMessageActivate) != 0] for the
    prefix of a slot, as the subscriber sees it. *)
Definition is_activation (subscriber : Z) (new_slot : Z) (w : World.t) : bool :=
  let ch := Subscriber.channel (sub subscriber w) in
  let prefix := Channel.Prefix ch (CCB.slot new_slot (World.ccb w)) in
  negb (prefix =? 0)
  && negb (Z.land (MessagePrefix.flags
                     (load_prefix ch (World.buffers w) prefix))
                  kMessageActivate =? 0).

(** The message [Client::ReadMessageInternal] hands out for a slot. *)
Definition message_in (subscriber : Z) (new_slot : Z) (w : World.t) : Message :=
  Message_of
    (MessageSlot.message_size (CCB.slot new_slot (World.ccb w)))
    (GetCurrentBufferAddress (Subscriber.channel (sub subscriber w))
       (Subscriber.CurrentSlot (sub subscriber w)) (World.ccb w))
    (Subscriber_CurrentOrdinal subscriber w)
    (Subscriber_Timestamp subscriber w).

(** [Client::ReadMessageInternal].  The function calls itself after an
    activation message it does not pass on; [fuel] bounds the depth of
    these calls and [None] is "not finished within [fuel]". *)
Fixpoint ReadMessageInternal (fuel : nat) (subscriber : Z) (mode : ReadMode)
    (pass_activation clear_trigger : bool) (w : World.t)
  : option (StatusOr Message * World.t) :=
  match fuel with
  | O => None
  | S fuel' =>
      match take_slot subscriber mode clear_trigger w with
      | (None, w) => Some (Ok Message_empty, w)
      | (Some new_slot, w) =>
          if is_activation subscriber new_slot w && negb pass_activation
          then ReadMessageInternal fuel' subscriber mode false false w
          else Some (Ok (message_in subscriber new_slot w), w)
      end
  end.

(** [Client::ReadMessage]. *)
Definition ReadMessage (fuel : nat) (subscriber : Z) (mode : ReadMode)
    (w : World.t) : option (StatusOr Message * World.t) :=
  let read (w : World.t) :=
    (* Check if there are any new reliable publishers and if so, load
       their trigger fds. *)
    match ReloadReliablePublishersIfNecessary subscriber w with
    | (Failed s, w) => Some (Failed s, w)
    | (Ok _, w) => ReadMessageInternal fuel subscriber mode false true w
    end in
  (* If the channel is a placeholder (no publishers present), contact the
     server to see if there is now a publisher.  If there still isn't a
     publisher, we will still be a placeholder. *)
  if Subscriber.IsPlaceholder (sub subscriber w) then
    let '(status, w) := ReloadSubscriber subscriber w in
    if negb (match status with Ok _ => true | Failed _ => false end)
       || Subscriber.IsPlaceholder (sub subscriber w)
    then Some (Ok Message_empty, add_event (EvClearPollFd subscriber) w)
    else read w
  else read w.

(** [Client::GetCurrentOrdinal]. *)
Definition GetCurrentOrdinal (subscriber : Z) (w : World.t) : Z :=
  match Subscriber.CurrentSlot (sub subscriber w) with
  | None => -1
  | Some slot => MessageSlot.ordinal (CCB.slot slot (World.ccb w))
  end.

(** The calls of dropped-message callbacks in a trace. *)
Definition dropped_message_calls (trace : list Event) : list Event :=
  List.filter
    (fun e => match e with EvDroppedMessages _ _ _ => true | _ => false end)
    trace.

(** ** client.cc: creating a subscriber, polling and waiting *)

(** Modelled from the spec: the constructor of [Subscriber] (client.h):
    like a publisher's handle, it starts with no slot, no mapping, no
    updates seen and invalid descriptors. *)
Definition new_Subscriber (name : string) (slot_size num_slots : Z)
    (channel_id subscriber_id : Z) (type : string) (opts : SubscriberOptions.t)
  : Subscriber.t :=
  Subscriber.mk (Channel.mk name num_slots slot_size channel_id type 0 0)
                None subscriber_id opts (-1) (-1) [].

(** The [std::unique_ptr<Subscriber>] goes out of scope. *)
Definition destroy_sub (s : Z) (w : World.t) : World.t :=
  World.with_subscribers (delete s (World.subscribers w)) w.

(** [Client::CreateSubscriber]; the [Subscriber *] returned is the address
    of the new object.  [channel->Trigger()] writes to the trigger
    descriptor of the new subscriber; the descriptor written to is handed
    back beside the pointer. *)
Definition CreateSubscriber (channel_name : string)
    (opts : SubscriberOptions.t) : M (Z * Z) :=
  CheckConnected ;;;
  (* Send request to server and wait for response. *)
  r <- SendRequestReceiveResponse
         (CreateSubscriberRequest channel_name (-1)
            (SubscriberOptions.IsReliable opts)
            (SubscriberOptions.IsBridge opts)
            (SubscriberOptions.Type_ opts)) ;;
  let sub_resp := Response.create_subscriber (fst r) in
  let fds := snd r in
  if negb (is_empty_string (CreateSubscriberResponse.error sub_resp)) then
    fail (InternalError (CreateSubscriberResponse.error sub_resp))
  else
    (* Make a local Subscriber object and map in the shared memory
       allocated by the server. *)
    w <- get ;;
    let channel := World.next_object w in
    modify (fun w =>
      World.with_next_object (channel + 1)
        (World.with_subscribers
           (<[channel :=
                new_Subscriber channel_name
                  (CreateSubscriberResponse.slot_size sub_resp)
                  (CreateSubscriberResponse.num_slots sub_resp)
                  (CreateSubscriberResponse.channel_id sub_resp)
                  (CreateSubscriberResponse.subscriber_id sub_resp)
                  (CreateSubscriberResponse.type sub_resp) opts]>
              (World.subscribers w)) w)) ;;;
    on_failure (destroy_sub channel)
      (Subscriber_Map channel ;;;
       update_sub channel
         (Subscriber.SetTriggerFd
            (fd_at fds (CreateSubscriberResponse.trigger_fd_index sub_resp))) ;;;
       update_sub channel
         (Subscriber.SetPollFd
            (fd_at fds (CreateSubscriberResponse.poll_fd_index sub_resp))) ;;;
       (* Add all publisher triggers fds to the subscriber channel. *)
       update_sub channel Subscriber.ClearPublishers ;;;
       update_sub channel
         (fun o => Subscriber.with_publishers
                     (add_fds fds
                        (CreateSubscriberResponse.reliable_pub_trigger_fd_indexes
                           sub_resp)
                        (Subscriber.reliable_publishers_ o)) o) ;;;
       sub_channel channel
         (Channel.SetNumUpdates
            (CreateSubscriberResponse.num_pub_updates sub_resp)) ;;;
       (* Trigger the subscriber to pick up all existing messages. *)
       w <- get ;;
       ret (channel, Subscriber.trigger_fd_ (sub channel w))).

(** [struct pollfd], with the two members client.cc sets. *)
Record pollfd := mk_pollfd { pollfd_fd : Z; pollfd_events : Z }.

Definition POLLIN : Z := 1.

(** [Client::GetPollFd], the overload for a [Subscriber] pointer. *)
Definition GetPollFd_Subscriber (subscriber : Z) (w : World.t) : pollfd :=
  mk_pollfd (Subscriber.poll_fd_ (sub subscriber w)) POLLIN.

(** The initial value of the function-local [static struct pollfd fd] of
    [Client::GetPollFd] for a [Publisher] pointer. *)
Definition static_pollfd : pollfd := mk_pollfd (-1) POLLIN.

(** [Client::GetPollFd], the overload for a [Publisher] pointer.  The function keeps its result in a
    [static] variable: the value the variable has on entry is [static_fd],
    and the value it has on return is given back with the result. *)
Definition GetPollFd_Publisher (publisher : Z) (w : World.t)
    (static_fd : pollfd) : pollfd * pollfd :=
  if negb (Publisher.IsReliable (pub publisher w)) then (static_fd, static_fd)
  else
    let fd := mk_pollfd (Publisher.poll_fd_ (pub publisher w)) POLLIN in
    (fd, fd).

(** How a wait ends is up to the system: with a coroutine ([co_ != nullptr])
    [co_->Wait] comes back once the descriptor is ready; without one,
    [::poll] returns a number and [strerror(errno)] describes a failure. *)
Record Waiter := mkWaiter {
  co_ : bool;
  poll : pollfd -> Z;
  strerror_errno : string
}.

(** [Client::WaitForReliablePublisher]. *)
Definition WaitForReliablePublisher (wt : Waiter) (publisher : Z) : M unit :=
  CheckConnected ;;;
  w <- get ;;
  if negb (Publisher.IsReliable (pub publisher w)) then
    fail (InternalError "Unreliable publishers can't wait")
  else
    (* Check if there are any new subscribers and if so, load their trigger
       fds. *)
    ReloadSubscribersIfNecessary publisher ;;;
    w <- get ;;
    if co_ wt then
      (* Coroutine aware.  Yield control back until the poll fd is
         triggered. *)
      ret tt
    else
      let fd := mk_pollfd (Publisher.poll_fd_ (pub publisher w)) POLLIN in
      let e := poll wt fd in
      if negb (e =? 1) then
        fail (InternalError
                ("Error from poll waiting for reliable publisher: "
                 ++ strerror_errno wt))
      else ret tt.

(** [Client::WaitForSubscriber]. *)
Definition WaitForSubscriber (wt : Waiter) (subscriber : Z) : M unit :=
  CheckConnected ;;;
  w <- get ;;
  if co_ wt then ret tt
  else
    let fd := mk_pollfd (Subscriber.poll_fd_ (sub subscriber w)) POLLIN in
    let e := poll wt fd in
    if negb (e =? 1) then
      fail (InternalError
              ("Error from poll waiting for subscriber: " ++ strerror_errno wt))
    else ret tt.

(** ** Concrete channels

    A three-slot channel as the server hands it out, and the states of the
    scenarios the theorems are tried on. *)

Module Scenario.

(** Slot [i] of the slot table sits at this offset of the CCB. *)
Definition slot_offset (i : Z) : Z := 160 + 160 * i.

(** Modelled from the spec: the CCB as [Channel::Allocate] leaves it
    (channel.cc): [next_ordinal] "starts at 1", the lists are initialised
    and every slot, with its id, is on the free list. *)
Fixpoint add_free_slots (n : nat) (i : Z) (c : CCB.t) : CCB.t :=
  match n with
  | O => c
  | S n' =>
      let p := slot_offset i in
      let c :=
        CCB.with_slots
          (<[p := MessageSlot.mk (SlotListElement.mk 0 0) i 0 0 0 0 0]>
             (CCB.slots c)) c in
      add_free_slots n' (i + 1) (ListInsertAtEnd free_list p c)
  end.

(** Modelled from the spec: a CCB fresh from [Channel::Allocate], with
    [num_slots] free slots. *)
Definition fresh_ccb (name : string) (slot_size num_slots : Z) : CCB.t :=
  add_free_slots (Z.to_nat num_slots) 0
    (CCB.mk name num_slots slot_size 1 0 0
            (SlotList.mk 0 0) (SlotList.mk 0 0) (SlotList.mk 0 0) ∅).

Definition no_error : string := EmptyString.

(** A server that answers every request, for the channel "chan" of 3
    slots of 64 bytes, with ids 0 and descriptors 3, 4, 5, ... *)
Definition the_response (subscribers : list Z) (num_slots : Z) : Response.t :=
  Response.mk 0
    (CreatePublisherResponse.mk no_error 0 1 "t" 1 2 3 4 subscribers 0)
    (CreateSubscriberResponse.mk no_error 64 num_slots 0 2 "t" 1 2 3 4 [] 0)
    (GetTriggersResponse.mk subscribers []).

Definition the_env (subscribers : list Z) (num_slots : Z) : Environment :=
  mkEnvironment OkStatus
    (fun _ => Exchange.mk true OkStatus OkStatus true OkStatus
                (the_response subscribers num_slots) [3; 4; 5; 6; 7; 8])
    OkStatus 4096 1000.

(** A connected client with no channel objects yet. *)
Definition world0 (subscribers : list Z) (num_slots : Z) : World.t :=
  World.mk true 3 ∅ ∅ ∅ 100 (fresh_ccb "chan" 64 3) ∅ ∅
           (the_env subscribers num_slots) 0 [].

Definition reliable_opts : PublisherOptions.t :=
  PublisherOptions.mk false true false "t".

Definition unreliable_opts : PublisherOptions.t :=
  PublisherOptions.mk false false false "t".

(** A client that has not called [Init]. *)
Definition unconnected : World.t :=
  World.with_socket_connected false (world0 [] 3).

(** A mapped subscriber object, at address 200, holding [slot]. *)
Definition a_subscriber (slot : option Z) (num_slots : Z) : Subscriber.t :=
  Subscriber.mk (Channel.mk "chan" num_slots 64 0 "t" 0 4096) slot 2
                (SubscriberOptions.mk false false "t") 5 6 [].

Definition with_subscriber (s : Subscriber.t) (w : World.t) : World.t :=
  World.with_subscribers (<[200 := s]> (World.subscribers w)) w.

(** A placeholder subscriber on a channel nobody publishes to; the
    server has bumped the publisher-update counter of the channel, so
    the next read asks it again, and it still reports no slots. *)
Definition placeholder_world : World.t :=
  World.mk true 3 ∅ ∅
    (<[200 := Subscriber.mk (Channel.mk "chan" 0 0 0 "t" 0 0) None 2
                (SubscriberOptions.mk false false "t") 5 6 []]> ∅)
    100 (fresh_ccb "chan" 64 0) ∅
    (<[0 := ChannelCounters.mk 1 0 0 0 0 0]> ∅)
    (the_env [] 0) 0 [].

(** The slot table of a channel in use: the slots at 160 and 320 are
    active with ordinals [o1] and [o2], the slot at 480 is busy, and the
    owner with id 2 holds the first active slot. *)
Definition ccb_in_use (o1 o2 : Z) : CCB.t :=
  CCB.mk "chan" 3 64 (o2 + 1) 0 o2
    (SlotList.mk 160 320) (SlotList.mk 480 480) (SlotList.mk 0 0)
    (<[160 := MessageSlot.mk (SlotListElement.mk 0 320) 0 1 0 o1 2 4]>
     (<[320 := MessageSlot.mk (SlotListElement.mk 160 0) 1 0 0 o2 2 0]>
      (<[480 := MessageSlot.mk (SlotListElement.mk 0 0) 2 0 0 0 0 2]> ∅))).

Definition prefix_of (size ordinal flags : Z) : MessagePrefix.t :=
  MessagePrefix.mk 0 size ordinal 1000 flags.

(** Scenario D after the ring has wrapped: the subscriber saw ordinal 1,
    the next active slot carries ordinal 5, and a callback (named 77) is
    registered for dropped messages. *)
Definition dropped_world : World.t :=
  RegisterDroppedMessageCallback 200 77
    (World.with_buffers
       (<[0 := prefix_of 2 1 0]> (<[96 := prefix_of 2 5 0]> ∅))
       (World.with_ccb (ccb_in_use 1 5)
          (with_subscriber (a_subscriber (Some 160) 3) (world0 [] 3)))).

(** A subscriber that has read nothing yet, on a channel whose active
    list is: an activation message, then an ordinary message. *)
Definition activation_world : World.t :=
  World.with_buffers
    (<[0 := prefix_of 1 1 kMessageActivate]> (<[96 := prefix_of 2 2 0]> ∅))
    (World.with_ccb
       (CCB.update 160 (fun s => MessageSlot.mk (MessageSlot.element s) 0 0 0 1 1 0)
          (ccb_in_use 1 2))
       (with_subscriber (a_subscriber None 3) (world0 [] 3))).

(** The same slot table when a reliable subscriber holds the oldest
    active slot, and when every active slot is referred to. *)
Definition ccb_reliable_hold : CCB.t :=
  CCB.update 160 (MessageSlot.with_reliable_ref_count 1) (ccb_in_use 1 5).

Definition ccb_all_held : CCB.t :=
  CCB.update 320 (MessageSlot.with_ref_count 1) (ccb_in_use 1 5).

(** A reliable publisher, just created, on a channel without
    subscribers: the object is at address 100. *)
Definition reliable_world : World.t :=
  snd (CreatePublisher "chan" 64 3 reliable_opts (world0 [] 3)).

(** Scenario C: the reliable publisher knows of one subscriber, the free
    list is used up and a reliable subscriber still holds the oldest
    active slot. *)
Definition backpressure_world : World.t :=
  World.with_ccb ccb_reliable_hold
    (set_pub 100 (Publisher.AddSubscriber 5) reliable_world).

(** An unreliable publisher, just created: the object is at address
    100 and holds the slot at 160. *)
Definition unreliable_world : World.t :=
  snd (CreatePublisher "chan" 64 3 unreliable_opts (world0 [] 3)).

(** The reliable publisher once a subscriber has turned up and a buffer
    was asked for: it holds the slot at 320. *)
Definition reliable_writing_world : World.t :=
  snd (GetMessageBuffer 100
         (set_pub 100 (Publisher.AddSubscriber 5) reliable_world)).

(** An unreliable publisher writing the slot at 480 while every slot of
    the ring, that one included, is referred to by a subscriber. *)
Definition exhausted_world : World.t :=
  World.with_ccb
    (CCB.update 480 (MessageSlot.with_ref_count 1) ccb_all_held)
    (set_pub 100 (Publisher.SetSlot (Some 480)) unreliable_world).

(** The same channel when the activation message is the only active
    slot: the slot at 320 is back on the free list. *)
Definition activation_only_world : World.t :=
  World.with_ccb
    (ListInsertAtEnd free_list 320
       (ListRemove active_list 320 (World.ccb activation_world)))
    activation_world.

(** Scenario D from the start: an unreliable publisher on a fresh
    three-slot channel, a subscriber with a dropped-message callback
    (named 77), and the two steps the participants take. *)
Definition drop_start : World.t :=
  RegisterDroppedMessageCallback 200 77
    (with_subscriber (a_subscriber None 3) unreliable_world).

Definition publish (w : World.t) : World.t :=
  match PublishMessage 100 2 w with
  | Some (_, w') => w'
  | None => w
  end.

Definition read (w : World.t) : option Message * World.t :=
  match ReadMessage 2 200 kReadNext w with
  | Some (Ok msg, w') => (Some msg, w')
  | Some (Failed _, w') => (None, w')
  | None => (None, w)
  end.

End Scenario.

(** ** What the scan of the active list makes of a slot *)

(** The scan walks on past a slot that some subscriber refers to, unless
    the caller is reliable and a reliable subscriber refers to it. *)
Definition passed_over (reliable : bool) (s : MessageSlot.t) : Prop :=
  MessageSlot.ref_count s <> 0
  /\ (reliable = true -> MessageSlot.reliable_ref_count s <= 0).

(** The scan takes a slot no subscriber refers to. *)
Definition reclaimable (reliable : bool) (s : MessageSlot.t) : Prop :=
  MessageSlot.ref_count s = 0
  /\ (reliable = true -> MessageSlot.reliable_ref_count s <= 0).

(** The active list, oldest slot first. *)
Definition active_slots (c : CCB.t) : option (list Z) :=
  list_walk (Z.to_nat (CCB.num_slots c)) (SlotList.first (CCB.active c)) c.

(** ** What reloading the subscribers leaves alone *)

Definition pub_frame (p : Z) (w w' : World.t) : Prop :=
  World.ccb w' = World.ccb w
  /\ World.buffers w' = World.buffers w
  /\ World.env w' = World.env w
  /\ World.dropped_message_callbacks_ w' = World.dropped_message_callbacks_ w
  /\ Publisher.slot_ (pub p w') = Publisher.slot_ (pub p w)
  /\ Publisher.options_ (pub p w') = Publisher.options_ (pub p w)
  /\ Publisher.publisher_id_ (pub p w') = Publisher.publisher_id_ (pub p w)
  /\ Channel.name_ (Publisher.channel (pub p w'))
     = Channel.name_ (Publisher.channel (pub p w))
  /\ Channel.slot_size_ (Publisher.channel (pub p w'))
     = Channel.slot_size_ (Publisher.channel (pub p w))
  /\ Channel.buffers_ (Publisher.channel (pub p w'))
     = Channel.buffers_ (Publisher.channel (pub p w)).

(** The header counters, which no list operation touches. *)
Definition counters_of (c : CCB.t) : Z * Z * Z :=
  (CCB.next_ordinal c, CCB.total_bytes c, CCB.total_messages c).

(** What the channel hands back to [PublishMessage] for the slot being
    written, once the subscribers are reloaded. *)
Definition published (publisher slot message_size : Z) (w : World.t)
  : PublishedMessage :=
  let o := pub publisher w in
  fst (fst (ActivateSlotAndGetAnother
              (Publisher.channel o) (now_ns (World.env w)) slot
              (Publisher.IsReliable o) false (Publisher.GetPublisherId o) false
              (CCB.update slot (MessageSlot.with_message_size message_size)
                          (World.ccb w))
              (World.buffers w))).

(** ** What a read relies on *)

(** The subscriber has the buffer region mapped: [buffers_] is a real
    address, the slot size is not negative and neither is any slot id, so
    that no prefix address is null. *)
Definition mapped (subscriber : Z) (w : World.t) : Prop :=
  0 < Channel.buffers_ (Subscriber.channel (sub subscriber w))
  /\ 0 <= Channel.slot_size_ (Subscriber.channel (sub subscriber w))
  /\ map_Forall (fun _ s => 0 <= MessageSlot.id s) (CCB.slots (World.ccb w)).

(** The prefix of a slot carries the Activate flag, as the subscriber
    reads it. *)
Definition carries_activate (subscriber slot : Z) (w : World.t) : bool :=
  let ch := Subscriber.channel (sub subscriber w) in
  negb (Z.land (MessagePrefix.flags
                  (load_prefix ch (World.buffers w)
                     (Channel.Prefix ch (CCB.slot slot (World.ccb w)))))
               kMessageActivate =? 0).

(** The offset a forward read moves to: the head of the active list for a
    subscriber without a slot, the [next] link of its slot otherwise. *)
Definition cursor_next (subscriber : Z) (w : World.t) : Z :=
  match Subscriber.CurrentSlot (sub subscriber w) with
  | None => SlotList.first (CCB.active (World.ccb w))
  | Some cur => slot_next cur (World.ccb w)
  end.

(** What reloading the reliable publishers leaves alone. *)
Definition sub_frame (s : Z) (w w' : World.t) : Prop :=
  World.ccb w' = World.ccb w
  /\ World.buffers w' = World.buffers w
  /\ World.dropped_message_callbacks_ w' = World.dropped_message_callbacks_ w
  /\ Subscriber.slot_ (sub s w') = Subscriber.slot_ (sub s w)
  /\ Subscriber.options_ (sub s w') = Subscriber.options_ (sub s w)
  /\ Subscriber.subscriber_id_ (sub s w') = Subscriber.subscriber_id_ (sub s w)
  /\ Channel.slot_size_ (Subscriber.channel (sub s w'))
     = Channel.slot_size_ (Subscriber.channel (sub s w))
  /\ Channel.buffers_ (Subscriber.channel (sub s w'))
     = Channel.buffers_ (Subscriber.channel (sub s w)).

(** ** Well-formed slot lists and buffer strides *)

(** The buffer slots of a channel are laid out one after the other, this
    many bytes apart. *)
Definition buffer_stride (ch : Channel.t) : Z :=
  sizeof_MessagePrefix + Aligned 32 (Channel.slot_size_ ch).

(** A channel whose slot size is not a multiple of the alignment, and the
    slot with id 1. *)
Definition odd_channel : Channel.t := Channel.mk "chan" 3 65 0 "t" 0 4096.

Definition second_slot : MessageSlot.t :=
  MessageSlot.mk (SlotListElement.mk 0 0) 1 0 0 0 0 0.

(** The offset at position [i] of a sequence of slots, 0 past its end. *)
Definition slot_at (l : list Z) (i : nat) : Z := default 0 (l !! i).

(** The [prev] and [next] links of the slots in [l] chain them in this
    order, with the sentinel 0 before the first and after the last. *)
Definition linked (c : CCB.t) (l : list Z) : Prop :=
  forall i p, l !! i = Some p ->
    p <> 0
    /\ slot_prev p c = match i with O => 0 | S j => slot_at l j end
    /\ slot_next p c = slot_at l (S i).

(** The list with header [L] holds exactly the slots [l], in order. *)
Definition holds_list (L : ListId) (l : list Z) (c : CCB.t) : Prop :=
  SlotList.first (CCB.list_of L c) = slot_at l 0
  /\ SlotList.last (CCB.list_of L c) = default 0 (last l)
  /\ linked c l
  /\ NoDup l.

(** A slot with its list links blanked: what the list primitives must
    leave alone. *)
Definition payload (s : MessageSlot.t) : MessageSlot.t :=
  MessageSlot.with_element (SlotListElement.mk 0 0) s.

(** Filling a list: each slot in turn is initialised ([ListElementInit])
    and put at the end of the list ([ListInsertAtEnd]). *)
Definition fill_list (L : ListId) (es : list Z) (c : CCB.t) : CCB.t :=
  foldl (fun c e => ListInsertAtEnd L e (ListElementInit e c)) c es.

(** ** Servers that let the client down *)

Module Faults.
(** An exchange in which everything works, one whose request cannot be
    serialized and one whose response never comes. *)
Definition good : Exchange.t :=
  Exchange.mk true OkStatus OkStatus true OkStatus
              (Scenario.the_response [] 3) [3; 4; 5; 6; 7; 8].

Definition unserializable : Exchange.t :=
  Exchange.mk false OkStatus OkStatus true OkStatus
              (Scenario.the_response [] 3) [].

Definition lost : Exchange.t :=
  Exchange.mk true OkStatus (OtherError 14 "connection reset") true OkStatus
              (Scenario.the_response [] 3) [].

(** A client of a server whose every exchange goes as [x]. *)
Definition world (connected : bool) (connect : Status) (x : Exchange.t)
  : World.t :=
  World.mk connected 3 ∅ ∅ ∅ 100 (Scenario.fresh_ccb "chan" 64 3) ∅ ∅
           (mkEnvironment connect (fun _ => x) OkStatus 4096 1000) 0 [].

(** The world with other counters in the system control block. *)
Definition with_scb (scb : gmap Z ChannelCounters.t) (w : World.t) : World.t :=
  World.mk (World.socket_connected w) (World.scb_fd_ w)
           (World.dropped_message_callbacks_ w) (World.publishers w)
           (World.subscribers w) (World.next_object w) (World.ccb w)
           (World.buffers w) scb (World.env w) (World.rpcs w) (World.trace w).

(** An unreliable publisher, at address 100, whose channel has seen a
    subscriber come since the publisher last looked. *)
Definition stale_publisher : World.t :=
  with_scb (<[0 := ChannelCounters.mk 1 1 1 0 1 0]> ∅)
    (snd (CreatePublisher "chan" 64 3 Scenario.unreliable_opts
            (Scenario.world0 [4; 5] 3))).

(** The subscriber of the scenarios, at address 200, whose channel has
    seen a publisher come since the subscriber last looked. *)
Definition stale_subscriber : World.t :=
  with_scb (<[0 := ChannelCounters.mk 1 1 1 0 1 0]> ∅) Scenario.dropped_world.

(** A placeholder subscriber, at address 200, on a channel that has just
    got its first publisher: the server now reports three slots. *)
Definition waking_world : World.t :=
  World.mk true 3 ∅ ∅
    (<[200 := Subscriber.mk (Channel.mk "chan" 0 0 0 "t" 0 0) None 2
                (SubscriberOptions.mk false false "t") 5 6 []]> ∅)
    100 (Scenario.fresh_ccb "chan" 64 3) ∅
    (<[0 := ChannelCounters.mk 1 0 1 0 1 0]> ∅)
    (Scenario.the_env [] 3) 0 [].

(** A reliable publisher, at address 100, that has learnt of a
    subscriber and holds no slot. *)
Definition reliable_with_subscriber : World.t :=
  set_pub 100 (Publisher.AddSubscriber 5) Scenario.reliable_world.

(** A client with a reliable publisher, at address 100, and an unreliable
    one, at address 101. *)
Definition two_publishers : World.t :=
  snd (CreatePublisher "chan" 64 3 Scenario.unreliable_opts
         Scenario.reliable_world).

(** The unreliable publisher of the scenarios when its channel has seen
    a subscriber come and the server no longer answers. *)
Definition cut_off : World.t :=
  World.mk true 3 ∅ (World.publishers Scenario.unreliable_world) ∅ 101
           (World.ccb Scenario.unreliable_world) ∅
           (<[0 := ChannelCounters.mk 1 1 1 0 1 0]> ∅)
           (mkEnvironment OkStatus (fun _ => lost) OkStatus 4096 1000) 0 [].
End Faults.

(** ** What the theorems speak of *)

(** The update counters of the system control block that a publisher and a
    subscriber compare their own count with. *)
Definition sub_updates (publisher : Z) (w : World.t) : Z :=
  ChannelCounters.num_sub_updates
    (counters (Channel.GetChannelId (Publisher.channel (pub publisher w))) w).

Definition pub_updates (subscriber : Z) (w : World.t) : Z :=
  ChannelCounters.num_pub_updates
    (counters (Channel.GetChannelId (Subscriber.channel (sub subscriber w))) w).

(** The counters are [uint16_t]. *)
Definition is_uint16 (v : Z) : Prop := 0 <= v < 65536.

(** The status [Client::CheckConnected] gives a client without a
    connection. *)
Definition not_connected : Status :=
  InternalError "Client is not connected to the server; have you called Init()?".

(** The exchange the server is about to have with the client. *)
Definition next_exchange (w : World.t) : Exchange.t :=
  server (World.env w) (World.rpcs w).

(** An exchange in which every step succeeds. *)
Definition exchange_ok (x : Exchange.t) : bool :=
  Exchange.serialize_ok x && Status_ok (Exchange.send_status x)
  && Status_ok (Exchange.receive_status x) && Exchange.parse_ok x
  && Status_ok (Exchange.receive_fds_status x).

(** The memory shared with the other participants is as it was. *)
Definition same_memory (w w' : World.t) : Prop :=
  World.ccb w' = World.ccb w
  /\ World.buffers w' = World.buffers w
  /\ World.scb w' = World.scb w.

(** An event a read on behalf of [subscriber] may leave in the trace: when
    it is the call of a dropped-message callback, the callback is the one
    registered for that subscriber, called with that subscriber. *)
Definition own_callback (subscriber : Z) (w : World.t) (e : Event) : Prop :=
  match e with
  | EvDroppedMessages callback s _ =>
      s = subscriber
      /\ World.dropped_message_callbacks_ w !! subscriber = Some callback
  | _ => True
  end.

(** The trace of [w'] is the trace of [w] and then events that are all
    [P]. *)
Definition grows (P : Event -> Prop) (w w' : World.t) : Prop :=
  exists new, World.trace w' = (World.trace w ++ new)%list /\ Forall P new.

(** What a read leaves alone, and how it lengthens the trace. *)
Definition read_frame (subscriber : Z) (w w' : World.t) : Prop :=
  World.rpcs w' = World.rpcs w
  /\ World.dropped_message_callbacks_ w' = World.dropped_message_callbacks_ w
  /\ World.socket_connected w' = World.socket_connected w
  /\ grows (own_callback subscriber w) w w'.

(** An event that is not the call of a dropped-message callback. *)
Definition no_callback (e : Event) : Prop :=
  match e with EvDroppedMessages _ _ _ => False | _ => True end.

(** A member function that relates every world to the one it leaves. *)
Definition keeps {A : Type} (F : World.t -> World.t -> Prop) (m : M A) : Prop :=
  forall w, F w (snd (m w)).

(** Every publisher object but the one at [k] is as it was, and so are
    the subscriber objects. *)
Definition publishers_but (k : Z) (w w' : World.t) : Prop :=
  (forall q, q <> k -> World.publishers w' !! q = World.publishers w !! q)
  /\ (is_Some (World.publishers w !! k) -> is_Some (World.publishers w' !! k))
  /\ World.subscribers w' = World.subscribers w
  /\ World.next_object w' = World.next_object w.

(** Every subscriber object but the one at [k] is as it was, and so are
    the publisher objects and the shared memory. *)
Definition subscribers_but (k : Z) (w w' : World.t) : Prop :=
  (forall q, q <> k -> World.subscribers w' !! q = World.subscribers w !! q)
  /\ World.publishers w' = World.publishers w
  /\ World.next_object w' = World.next_object w
  /\ same_memory w w'.

(** ** 64-bit alignment *)

(** The values of an [int64_t]. *)
Definition is_int64 (v : Z) : Prop := - 2 ^ 63 <= v < 2 ^ 63.

(** [Aligned<alignment>(v)] as 64-bit arithmetic carries it out: the sum
    [v + (alignment - 1)] is an [int64_t], kept to 64 bits here.  It is
    [Aligned] whenever that sum fits. *)
Definition Aligned_int64 (alignment v : Z) : Z :=
  Z.land (wrap_int64 (v + (alignment - 1))) (Z.lnot (alignment - 1)).

(** ** What a read hands out *)

(** The world in which [Client::ReadMessage] goes on to
    [ReadMessageInternal]: a placeholder has reloaded and found its channel
    in use, and the reliable publishers were reloaded without an error.
    [None] when the read ends before that. *)
Definition read_entry (subscriber : Z) (w : World.t) : option World.t :=
  let awake :=
    if Subscriber.IsPlaceholder (sub subscriber w) then
      match ReloadSubscriber subscriber w with
      | (Ok _, w0) =>
          if Subscriber.IsPlaceholder (sub subscriber w0) then None else Some w0
      | (Failed _, _) => None
      end
    else Some w in
  match awake with
  | Some w0 =>
      match ReloadReliablePublishersIfNecessary subscriber w0 with
      | (Ok _, w1) => Some w1
      | (Failed _, _) => None
      end
  | None => None
  end.

(** The offset a read moves to: the slot after the cursor when reading
    forward, the tail of the active list when reading the newest message;
    0 stands for no slot. *)
Definition slot_ahead (subscriber : Z) (mode : ReadMode) (w : World.t) : Z :=
  match mode with
  | kReadNext => cursor_next subscriber w
  | kReadNewest => SlotList.last (CCB.active (World.ccb w))
  end.

(** The message of a slot as the subscriber sees it: size and ordinal from
    the slot, the address of its buffer, the timestamp from its prefix. *)
Definition message_at (subscriber slot : Z) (w : World.t) : Message :=
  let ch := Subscriber.channel (sub subscriber w) in
  let s := CCB.slot slot (World.ccb w) in
  Message_of (MessageSlot.message_size s)
             (Channel.GetBufferAddress ch (MessageSlot.id s))
             (MessageSlot.ordinal s)
             (MessagePrefix.timestamp
                (load_prefix ch (World.buffers w) (Channel.Prefix ch s))).

(** The first of the slots [l] whose prefix does not carry the Activate
    flag. *)
Definition first_message (subscriber : Z) (w : World.t) (l : list Z)
  : option Z :=
  List.find (fun slot => negb (carries_activate subscriber slot w)) l.

(** Where the cursor of a forward read ends up when it went through all of
    [l]: on the last of them, or where it was when there is none. *)
Definition cursor_after (subscriber : Z) (w : World.t) (l : list Z)
  : option Z :=
  match last l with
  | Some slot => Some slot
  | None => Subscriber.CurrentSlot (sub subscriber w)
  end.

(** A reliable publisher has just been created, which put its activation
    message on the active list, and then a subscriber, at address 101, which
    has read nothing yet. *)
Definition first_read_world : World.t :=
  snd (CreateSubscriber "chan" (SubscriberOptions.mk false false "t")
         Scenario.reliable_world).

(** * Theorems *)

Local Open Scope list_scope.

(** ** The message prefix (channel.h) *)

(** C8: [MessagePrefix] is 32 bytes long, its fields are, in order,
    padding (4 bytes), message_size (4), ordinal (8), timestamp (8) and
    flags (8), at offsets 0, 4, 8, 16 and 24, and the flag bits are
    Activate = 1, Bridged = 2 and Seen = 4. *)
Theorem MessagePrefix_layout :
  sizeof_MessagePrefix = 32
  /\ map (fun f => (fst f, ctype_size (snd f))) MessagePrefix_fields
     = [("padding", 4); ("message_size", 4); ("ordinal", 8);
        ("timestamp", 8); ("flags", 8)]
  /\ field_offsets 0 MessagePrefix_fields
     = [("padding", 0); ("message_size", 4); ("ordinal", 8);
        ("timestamp", 16); ("flags", 24)]
  /\ kMessageActivate = 1 /\ kMessageBridged = 2 /\ kMessageSeen = 4.
Proof. repeat split; reflexivity. Qed.

(** The three flags are distinct single bits of the flags word. *)
Lemma flag_bits_disjoint :
  Z.land kMessageActivate kMessageBridged = 0
  /\ Z.land kMessageActivate kMessageSeen = 0
  /\ Z.land kMessageBridged kMessageSeen = 0.
Proof. repeat split; reflexivity. Qed.

(** ** Client::Init *)

(** C9: calling [Init] on a client whose socket is already connected
    returns an internal error and changes nothing: no connection attempt
    is made (the trace is unchanged), the socket stays connected and the
    stored SCB file descriptor is the one from before. *)
Theorem Init_already_connected (server_socket client_name : string)
    (w : World.t) :
  World.socket_connected w = true ->
  Init server_socket client_name w
  = (Failed (InternalError
       "Client is already connected to the server; Init() called twice perhaps?"),
     w).
Proof. intros H. unfold Init. rewrite H. reflexivity. Qed.

Lemma Init_already_connected_witness :
  World.socket_connected (Scenario.world0 [] 3) = true
  /\ Init "/tmp/subspace" "client" (Scenario.world0 [] 3)
     = (Failed (InternalError
          "Client is already connected to the server; Init() called twice perhaps?"),
        Scenario.world0 [] 3).
Proof.
  split; [reflexivity |].
  apply (Init_already_connected "/tmp/subspace" "client" (Scenario.world0 [] 3)).
  reflexivity.
Defined.

(** On a client that is not connected, [Init] does try to connect. *)
Lemma Init_connects (server_socket client_name : string) (w : World.t) :
  World.socket_connected w = false ->
  exists rest,
    World.trace (snd (Init server_socket client_name w))
    = (World.trace w ++ EvConnect server_socket :: rest)%list.
Proof.
  intros H. unfold Init. rewrite H.
  unfold bind, socket_Connect, SendRequestReceiveResponse, modify.
  cbn -[String.append].
  destruct (Status_ok (connect_status (World.env w))); cbn.
  2: { exists []. reflexivity. }
  destruct (Exchange.serialize_ok _); cbn.
  2: { exists []. reflexivity. }
  repeat (match goal with
          | |- context [if negb ?b then _ else _] => destruct b; cbn
          end);
    rewrite <- ?app_assoc; cbn; eexists; reflexivity.
Qed.

Example Init_first_time :
  let w := snd (Init "/tmp/subspace" "client" Scenario.unconnected) in
  fst (Init "/tmp/subspace" "client" Scenario.unconnected) = Ok tt
  /\ World.socket_connected w = true
  /\ World.scb_fd_ w = 3
  /\ World.trace w
     = [EvConnect "/tmp/subspace"; EvRequest (InitRequest "client")].
Proof. cbn zeta. repeat split; vm_compute; reflexivity. Qed.

(** ** Client::GetCurrentOrdinal *)

(** C10: [GetCurrentOrdinal] returns -1 for a subscriber that holds no
    slot, and otherwise the ordinal stored in the slot it holds. *)
Theorem GetCurrentOrdinal_spec (subscriber : Z) (w : World.t) :
  (Subscriber.CurrentSlot (sub subscriber w) = None ->
   GetCurrentOrdinal subscriber w = -1)
  /\ (forall slot,
        Subscriber.CurrentSlot (sub subscriber w) = Some slot ->
        GetCurrentOrdinal subscriber w
        = MessageSlot.ordinal (CCB.slot slot (World.ccb w))).
Proof.
  unfold GetCurrentOrdinal. split.
  - intros ->. reflexivity.
  - intros slot ->. reflexivity.
Qed.

Lemma GetCurrentOrdinal_spec_witness :
  GetCurrentOrdinal 200 Scenario.activation_world = -1
  /\ GetCurrentOrdinal 200 Scenario.dropped_world = 1.
Proof.
  split.
  - apply (proj1 (GetCurrentOrdinal_spec 200 Scenario.activation_world)).
    reflexivity.
  - apply (proj2 (GetCurrentOrdinal_spec 200 Scenario.dropped_world) 160).
    reflexivity.
Defined.

(** ** The placeholder subscriber *)

(** Touching the trace does not touch the objects. *)
Lemma sub_add_event (s : Z) (e : Event) (w : World.t) :
  sub s (add_event e w) = sub s w.
Proof. reflexivity. Qed.

Lemma pub_add_event (p : Z) (e : Event) (w : World.t) :
  pub p (add_event e w) = pub p w.
Proof. reflexivity. Qed.

(** C6: a placeholder subscriber (no slots, no publisher) that is still a
    placeholder once [ReloadSubscriber] has asked the server again gets an
    empty message from [ReadMessage], not an error, whatever the reload
    returned; and it is still a placeholder afterwards. *)
Theorem ReadMessage_placeholder (fuel : nat) (subscriber : Z)
    (mode : ReadMode) (w : World.t) (status : StatusOr unit) (w1 : World.t) :
  Subscriber.IsPlaceholder (sub subscriber w) = true ->
  ReloadSubscriber subscriber w = (status, w1) ->
  Subscriber.IsPlaceholder (sub subscriber w1) = true ->
  exists w',
    ReadMessage fuel subscriber mode w = Some (Ok Message_empty, w')
    /\ Subscriber.IsPlaceholder (sub subscriber w') = true
    /\ World.ccb w' = World.ccb w1.
Proof.
  intros Hp Hr Hp1. unfold ReadMessage. rewrite Hp, Hr, Hp1.
  rewrite orb_true_r.
  exists (add_event (EvClearPollFd subscriber) w1).
  rewrite sub_add_event. auto.
Qed.

Lemma ReadMessage_placeholder_witness :
  exists w',
    ReadMessage 1 200 kReadNext Scenario.placeholder_world
    = Some (Ok Message_empty, w')
    /\ Subscriber.IsPlaceholder (sub 200 w') = true
    /\ World.ccb w'
       = World.ccb (snd (ReloadSubscriber 200 Scenario.placeholder_world)).
Proof.
  apply (ReadMessage_placeholder 1 200 kReadNext Scenario.placeholder_world
           (fst (ReloadSubscriber 200 Scenario.placeholder_world))
           (snd (ReloadSubscriber 200 Scenario.placeholder_world))).
  - reflexivity.
  - apply surjective_pairing.
  - reflexivity.
Defined.

(** ** Slot allocation *)

Lemma list_walk_cons (fuel : nat) (p : Z) (c : CCB.t) (x : Z) (rest : list Z) :
  list_walk fuel p c = Some (x :: rest) ->
  p = x /\ p <> 0
  /\ exists fuel', fuel = S fuel'
                   /\ list_walk fuel' (slot_next p c) c = Some rest.
Proof.
  destruct fuel as [|fuel']; simpl; destruct (Z.eqb_spec p 0) as [E|E];
    try discriminate.
  destruct (list_walk fuel' (slot_next p c) c) eqn:W; try discriminate.
  intros [= -> ->]. eauto.
Qed.

Lemma list_walk_nil (fuel : nat) (p : Z) (c : CCB.t) :
  list_walk fuel p c = Some [] -> p = 0.
Proof.
  destruct fuel as [|fuel']; simpl; destruct (Z.eqb_spec p 0) as [E|E];
    try discriminate; auto.
  destruct (list_walk fuel' (slot_next p c) c); discriminate.
Qed.

Lemma passed_over_step (reliable : bool) (s : MessageSlot.t) :
  passed_over reliable s ->
  reliable && (0 <? MessageSlot.reliable_ref_count s) = false
  /\ (MessageSlot.ref_count s =? 0) = false.
Proof.
  intros [Hr Hl]. split.
  - destruct reliable; [|reflexivity]. simpl. apply Z.ltb_ge. auto.
  - apply Z.eqb_neq. exact Hr.
Qed.

Lemma scan_active_found (reliable : bool) (c : CCB.t) (pre : list Z) :
  forall (fuel : nat) (p q : Z) (rest : list Z),
    list_walk fuel p c = Some (pre ++ q :: rest) ->
    Forall (fun x => passed_over reliable (CCB.slot x c)) pre ->
    reclaimable reliable (CCB.slot q c) ->
    scan_active fuel reliable p c = Some q.
Proof.
  induction pre as [|x pre IH]; intros fuel p q rest W Hpre Hq.
  - apply list_walk_cons in W as (-> & Hne & fuel' & -> & _).
    simpl. rewrite (proj2 (Z.eqb_neq q 0) Hne).
    destruct Hq as [H0 Hl].
    replace (reliable && (0 <? MessageSlot.reliable_ref_count (CCB.slot q c)))
      with false.
    + rewrite H0. reflexivity.
    + destruct reliable; [|reflexivity]. simpl. symmetry. apply Z.ltb_ge. auto.
  - simpl in W. apply list_walk_cons in W as (-> & Hne & fuel' & -> & W).
    inversion Hpre as [|? ? Hx Hpre']; subst.
    simpl. rewrite (proj2 (Z.eqb_neq x 0) Hne).
    destruct (passed_over_step _ _ Hx) as [-> ->].
    eapply IH; eauto.
Qed.

Lemma scan_active_stops (c : CCB.t) (pre : list Z) :
  forall (fuel : nat) (p q : Z) (rest : list Z),
    list_walk fuel p c = Some (pre ++ q :: rest) ->
    Forall (fun x => passed_over true (CCB.slot x c)) pre ->
    0 < MessageSlot.reliable_ref_count (CCB.slot q c) ->
    scan_active fuel true p c = None.
Proof.
  induction pre as [|x pre IH]; intros fuel p q rest W Hpre Hq.
  - apply list_walk_cons in W as (-> & Hne & fuel' & -> & _).
    simpl. rewrite (proj2 (Z.eqb_neq q 0) Hne).
    rewrite (proj2 (Z.ltb_lt _ _) Hq). reflexivity.
  - simpl in W. apply list_walk_cons in W as (-> & Hne & fuel' & -> & W).
    inversion Hpre as [|? ? Hx Hpre']; subst.
    simpl. rewrite (proj2 (Z.eqb_neq x 0) Hne).
    destruct (passed_over_step _ _ Hx) as [E ->]. simpl in E. rewrite E.
    eapply IH; eauto.
Qed.

Lemma scan_active_all_held (reliable : bool) (c : CCB.t) (l : list Z) :
  forall (fuel : nat) (p : Z),
    list_walk fuel p c = Some l ->
    Forall (fun x => MessageSlot.ref_count (CCB.slot x c) <> 0) l ->
    scan_active fuel reliable p c = None.
Proof.
  induction l as [|x l IH]; intros fuel p W Hl.
  - apply list_walk_nil in W as ->. destruct fuel; reflexivity.
  - apply list_walk_cons in W as (-> & Hne & fuel' & -> & W).
    inversion Hl as [|? ? Hx Hl']; subst.
    simpl. rewrite (proj2 (Z.eqb_neq x 0) Hne).
    destruct (reliable && _); [reflexivity|].
    rewrite (proj2 (Z.eqb_neq _ 0) Hx). eapply IH; eauto.
Qed.

(** A scan that finds something finds an actual slot. *)
Lemma scan_active_nonzero (reliable : bool) (c : CCB.t) :
  forall (fuel : nat) (p q : Z),
    scan_active fuel reliable p c = Some q -> q <> 0.
Proof.
  induction fuel as [|fuel IH]; intros p q; simpl; [discriminate|].
  destruct (Z.eqb_spec p 0); [discriminate|].
  destruct (reliable && _); [discriminate|].
  destruct (MessageSlot.ref_count (CCB.slot p c) =? 0).
  - intros [= <-]. assumption.
  - apply IH.
Qed.

(** A failed search leaves the CCB as it was. *)
Lemma FindFreeSlot_none (reliable : bool) (owner : Z) (c : CCB.t) :
  fst (FindFreeSlot reliable owner c) = None ->
  FindFreeSlot reliable owner c = (None, c).
Proof.
  unfold FindFreeSlot, FindFreeSlotLocked.
  destruct (negb (SlotList.first (CCB.free c) =? 0)); [discriminate|].
  destruct (scan_active _ _ _ _); [discriminate | reflexivity].
Qed.

Lemma FindFreeSlot_some_nonzero (reliable : bool) (owner : Z) (c : CCB.t)
    (slot : Z) :
  fst (FindFreeSlot reliable owner c) = Some slot -> slot <> 0.
Proof.
  unfold FindFreeSlot, FindFreeSlotLocked.
  destruct (Z.eqb_spec (SlotList.first (CCB.free c)) 0) as [E|E]; simpl.
  - destruct (scan_active _ _ _ _) eqn:S; simpl; [|discriminate].
    intros [= <-]. eapply scan_active_nonzero; eauto.
  - intros [= <-]. exact E.
Qed.

(** C7: [FindFreeSlot] returns the head of the free list whenever the free
    list is not empty.  Otherwise it scans the active list from the oldest
    slot on: the first slot with [ref_count = 0] is returned, provided no
    slot before it stopped the scan; for a reliable caller the scan stops
    at the first slot with [reliable_ref_count > 0] and the result is none,
    whatever comes after that slot; and when every active slot is
    referred to, the result is none.  A search that returns none changes
    nothing. *)
Theorem FindFreeSlot_policy (reliable : bool) (owner : Z) (c : CCB.t) :
  (SlotList.first (CCB.free c) <> 0 ->
   fst (FindFreeSlot reliable owner c) = Some (SlotList.first (CCB.free c)))
  /\ (SlotList.first (CCB.free c) = 0 ->
      forall pre q rest,
        active_slots c = Some (pre ++ q :: rest) ->
        Forall (fun x => passed_over reliable (CCB.slot x c)) pre ->
        (reclaimable reliable (CCB.slot q c) ->
         fst (FindFreeSlot reliable owner c) = Some q)
        /\ (reliable = true ->
            0 < MessageSlot.reliable_ref_count (CCB.slot q c) ->
            FindFreeSlot reliable owner c = (None, c)))
  /\ (SlotList.first (CCB.free c) = 0 ->
      forall l,
        active_slots c = Some l ->
        Forall (fun x => MessageSlot.ref_count (CCB.slot x c) <> 0) l ->
        FindFreeSlot reliable owner c = (None, c)).
Proof.
  unfold active_slots, FindFreeSlot, FindFreeSlotLocked.
  split; [|split].
  - intros Hne. rewrite (proj2 (Z.eqb_neq _ 0) Hne). reflexivity.
  - intros He pre q rest W Hpre. rewrite He. simpl. split.
    + intros Hq. rewrite (scan_active_found _ _ _ _ _ _ _ W Hpre Hq).
      reflexivity.
    + intros -> Hq. rewrite (scan_active_stops _ _ _ _ _ _ W Hpre Hq).
      reflexivity.
  - intros He l W Hl. rewrite He. simpl.
    rewrite (scan_active_all_held _ _ _ _ _ W Hl). reflexivity.
Qed.

Lemma FindFreeSlot_policy_witness :
  fst (FindFreeSlot true 1 (Scenario.fresh_ccb "chan" 64 3)) = Some 160
  /\ fst (FindFreeSlot true 1 (Scenario.ccb_in_use 1 5)) = Some 320
  /\ FindFreeSlot true 1 Scenario.ccb_reliable_hold
     = (None, Scenario.ccb_reliable_hold)
  /\ FindFreeSlot false 1 Scenario.ccb_all_held
     = (None, Scenario.ccb_all_held).
Proof.
  split; [|split; [|split]].
  - apply (proj1 (FindFreeSlot_policy true 1 (Scenario.fresh_ccb "chan" 64 3))).
    vm_compute. discriminate.
  - apply (proj1 (proj1 (proj2 (FindFreeSlot_policy true 1
                                  (Scenario.ccb_in_use 1 5)))
                    eq_refl [160] 320 [] eq_refl
                    ltac:(repeat constructor; vm_compute; discriminate))).
    split; [reflexivity | vm_compute; discriminate].
  - apply (proj2 (proj1 (proj2 (FindFreeSlot_policy true 1
                                  Scenario.ccb_reliable_hold))
                    eq_refl [] 160 [320] eq_refl ltac:(constructor)));
      reflexivity.
  - apply (proj2 (proj2 (FindFreeSlot_policy false 1 Scenario.ccb_all_held))
             eq_refl [160; 320] eq_refl).
    repeat constructor; vm_compute; discriminate.
Defined.

(** ** Slot memory and the list primitives *)

Lemma slot_update_eq (p : Z) (f : MessageSlot.t -> MessageSlot.t) (c : CCB.t) :
  CCB.slot p (CCB.update p f c) = f (CCB.slot p c).
Proof. unfold CCB.slot, CCB.update. cbn. rewrite lookup_insert_eq. reflexivity. Qed.

Lemma slot_update_ne (p q : Z) (f : MessageSlot.t -> MessageSlot.t) (c : CCB.t) :
  p <> q -> CCB.slot q (CCB.update p f c) = CCB.slot q c.
Proof.
  intros Hne. unfold CCB.slot, CCB.update. cbn.
  rewrite lookup_insert_ne by exact Hne. reflexivity.
Qed.

Lemma slot_with_list (q : Z) (l : ListId) (h : SlotList.t) (c : CCB.t) :
  CCB.slot q (CCB.with_list l h c) = CCB.slot q c.
Proof. destruct l; reflexivity. Qed.

Lemma slot_with_next_ordinal (q v : Z) (c : CCB.t) :
  CCB.slot q (CCB.with_next_ordinal v c) = CCB.slot q c.
Proof. reflexivity. Qed.

Lemma slot_with_totals (q a b : Z) (c : CCB.t) :
  CCB.slot q (CCB.with_totals a b c) = CCB.slot q c.
Proof. reflexivity. Qed.

Create Rewrite HintDb ccb.
#[local] Hint Rewrite slot_update_eq slot_with_list slot_with_next_ordinal
  slot_with_totals : ccb.

Section Projections.
(** A field of a slot other than its list links. *)
Context {A : Type} (g : MessageSlot.t -> A).
Hypothesis g_links : forall e s, g (MessageSlot.with_element e s) = g s.

Lemma proj_update (p q : Z) (f : MessageSlot.t -> MessageSlot.t) (c : CCB.t) :
  (forall s, g (f s) = g s) ->
  g (CCB.slot q (CCB.update p f c)) = g (CCB.slot q c).
Proof.
  intros Hf. destruct (decide (p = q)) as [->|Hne].
  - rewrite slot_update_eq. apply Hf.
  - rewrite slot_update_ne by exact Hne. reflexivity.
Qed.

Lemma proj_ListRemove (l : ListId) (e q : Z) (c : CCB.t) :
  g (CCB.slot q (ListRemove l e c)) = g (CCB.slot q c).
Proof.
  unfold ListRemove.
  rewrite proj_update by (intros; apply g_links).
  destruct (slot_next e _ =? 0);
    [rewrite slot_with_list | rewrite proj_update by (intros; apply g_links)];
    (destruct (slot_prev e c =? 0);
     [rewrite slot_with_list | rewrite proj_update by (intros; apply g_links)]);
    reflexivity.
Qed.

Lemma proj_ListInsertAtEnd (l : ListId) (e q : Z) (c : CCB.t) :
  g (CCB.slot q (ListInsertAtEnd l e c)) = g (CCB.slot q c).
Proof.
  unfold ListInsertAtEnd.
  destruct (SlotList.last (CCB.list_of l c) =? 0).
  - rewrite slot_with_list. reflexivity.
  - rewrite slot_with_list.
    rewrite !proj_update by (intros; apply g_links). reflexivity.
Qed.
End Projections.

Lemma message_size_links e s :
  MessageSlot.message_size (MessageSlot.with_element e s) = MessageSlot.message_size s.
Proof. reflexivity. Qed.
Lemma ordinal_links e s :
  MessageSlot.ordinal (MessageSlot.with_element e s) = MessageSlot.ordinal s.
Proof. reflexivity. Qed.
Lemma id_links e s :
  MessageSlot.id (MessageSlot.with_element e s) = MessageSlot.id s.
Proof. reflexivity. Qed.

Lemma counters_update p f c : counters_of (CCB.update p f c) = counters_of c.
Proof. reflexivity. Qed.

Lemma counters_with_list l h c : counters_of (CCB.with_list l h c) = counters_of c.
Proof. destruct l; reflexivity. Qed.

Lemma counters_ListRemove l e c : counters_of (ListRemove l e c) = counters_of c.
Proof.
  unfold ListRemove. rewrite counters_update.
  destruct (slot_next e _ =? 0); rewrite ?counters_with_list, ?counters_update;
    destruct (slot_prev e c =? 0); rewrite ?counters_with_list, ?counters_update;
    reflexivity.
Qed.

Lemma counters_ListInsertAtEnd l e c :
  counters_of (ListInsertAtEnd l e c) = counters_of c.
Proof.
  unfold ListInsertAtEnd. destruct (_ =? 0);
    rewrite ?counters_with_list, ?counters_update; reflexivity.
Qed.

Lemma counters_FindFreeSlot reliable owner c :
  counters_of (snd (FindFreeSlot reliable owner c)) = counters_of c.
Proof.
  unfold FindFreeSlot, FindFreeSlotLocked, AddToBusyList.
  destruct (negb _); cbn [snd].
  - rewrite counters_update, counters_ListInsertAtEnd, counters_ListRemove.
    reflexivity.
  - destruct (scan_active _ _ _ _); cbn [snd]; [|reflexivity].
    rewrite counters_update, counters_ListInsertAtEnd, counters_update,
      counters_ListRemove. reflexivity.
Qed.

Lemma list_of_update l p f c : CCB.list_of l (CCB.update p f c) = CCB.list_of l c.
Proof. destruct l; reflexivity. Qed.

Lemma list_of_with_list l h c : CCB.list_of l (CCB.with_list l h c) = h.
Proof. destruct l; reflexivity. Qed.

Lemma ListInsertAtEnd_last l e c :
  SlotList.last (CCB.list_of l (ListInsertAtEnd l e c)) = e.
Proof.
  unfold ListInsertAtEnd. destruct (_ =? 0); rewrite list_of_with_list; reflexivity.
Qed.

(** A successful search puts the slot found at the tail of the busy list. *)
Lemma FindFreeSlot_busy reliable owner c slot :
  fst (FindFreeSlot reliable owner c) = Some slot ->
  SlotList.last (CCB.busy (snd (FindFreeSlot reliable owner c))) = slot.
Proof.
  unfold FindFreeSlot, FindFreeSlotLocked, AddToBusyList.
  destruct (negb _); cbn [fst snd].
  - intros [= <-]. 
    change (CCB.busy ?c) with (CCB.list_of busy_list c).
    rewrite list_of_update. apply ListInsertAtEnd_last.
  - destruct (scan_active _ _ _ _); cbn [fst snd]; [|discriminate].
    intros [= <-].
    change (CCB.busy ?c) with (CCB.list_of busy_list c).
    rewrite list_of_update. apply ListInsertAtEnd_last.
Qed.

(** ** Stepping through the monad *)

Lemma bind_ok {A B} (m : M A) (k : A -> M B) (w : World.t) (b : B)
    (w' : World.t) :
  bind m k w = (Ok b, w') ->
  exists a w1, m w = (Ok a, w1) /\ k a w1 = (Ok b, w').
Proof.
  unfold bind. destruct (m w) as [[a|s] w1]; [eauto | discriminate].
Qed.

Lemma modify_ok (f : World.t -> World.t) (w : World.t) (u : unit) (w' : World.t) :
  modify f w = (Ok u, w') -> w' = f w.
Proof. unfold modify. intros [= _ <-]. reflexivity. Qed.

Lemma pub_set_pub (p : Z) (f : Publisher.t -> Publisher.t) (w : World.t) :
  pub p (set_pub p f w) = f (pub p w).
Proof. unfold pub, set_pub. cbn. rewrite lookup_insert_eq. reflexivity. Qed.

Lemma pub_with_rpcs (p : Z) (n : nat) (w : World.t) :
  pub p (World.with_rpcs n w) = pub p w.
Proof. reflexivity. Qed.

Lemma pub_socket_Close (p : Z) (w : World.t) : pub p (socket_Close w) = pub p w.
Proof. reflexivity. Qed.

Lemma pub_with_ccb (p : Z) (c : CCB.t) (w : World.t) :
  pub p (World.with_ccb c w) = pub p w.
Proof. reflexivity. Qed.

Lemma pub_with_buffers (p : Z) (m : gmap Z MessagePrefix.t) (w : World.t) :
  pub p (World.with_buffers m w) = pub p w.
Proof. reflexivity. Qed.

Lemma ccb_set_pub (p : Z) (f : Publisher.t -> Publisher.t) (w : World.t) :
  World.ccb (set_pub p f w) = World.ccb w.
Proof. reflexivity. Qed.

Lemma buffers_set_pub (p : Z) (f : Publisher.t -> Publisher.t) (w : World.t) :
  World.buffers (set_pub p f w) = World.buffers w.
Proof. reflexivity. Qed.

Lemma env_set_pub (p : Z) (f : Publisher.t -> Publisher.t) (w : World.t) :
  World.env (set_pub p f w) = World.env w.
Proof. reflexivity. Qed.

Create Rewrite HintDb world.
#[local] Hint Rewrite pub_set_pub pub_add_event pub_with_rpcs pub_socket_Close
  pub_with_ccb pub_with_buffers ccb_set_pub buffers_set_pub env_set_pub : world.

Ltac simpl_world :=
  repeat (progress (cbn -[set_pub pub set_sub sub CCB.update ListRemove
                          ListInsertAtEnd wrap_int32 wrap_int64 Z.add];
                    autorewrite with world)).

Lemma load_store_prefix ch addr p mem :
  load_prefix ch (store_prefix ch addr p mem) addr = p.
Proof. unfold load_prefix, store_prefix. rewrite lookup_insert_eq. reflexivity. Qed.

(** ** Back-pressure on a reliable publisher *)

Lemma ReloadSubscribersIfNecessary_frame (p : Z) (w : World.t) :
  pub_frame p w (snd (ReloadSubscribersIfNecessary p w)).
Proof.
  unfold ReloadSubscribersIfNecessary, bind, CheckConnected, get, ret,
    pub_channel, update_pub, modify, SendRequestReceiveResponse.
  destruct (World.socket_connected w); cbn -[set_pub pub].
  2: { repeat split. }
  destruct (_ =? _); cbn -[set_pub pub].
  1: { repeat split. }
  repeat (match goal with
          | |- context [if negb ?b then _ else _] => destruct b; cbn -[set_pub pub]
          end);
  unfold pub_frame; cbn -[set_pub pub]; autorewrite with world; cbn; repeat split.
Qed.

(** C2: a buffer request of a reliable publisher that holds no slot and
    cannot obtain one, because the channel has no subscribers or because
    [FindFreeSlot] finds nothing, returns an absent buffer ([nullptr]) and
    not an error, given that reloading the subscribers succeeded; it
    leaves the CCB as it was, so [next_ordinal] is unchanged, and the
    publisher still holds no slot. *)
Theorem GetMessageBuffer_backpressure (publisher : Z) (w w1 : World.t) :
  ReloadSubscribersIfNecessary publisher
    (add_event (EvClearPollFd publisher) w) = (Ok tt, w1) ->
  Publisher.IsReliable (pub publisher w) = true ->
  Publisher.CurrentSlot (pub publisher w) = None ->
  Publisher.NumSubscribers (pub publisher w1) = 0
  \/ fst (FindFreeSlot true (Publisher.GetPublisherId (pub publisher w))
                       (World.ccb w)) = None ->
  exists w',
    GetMessageBuffer publisher w = (Ok 0, w')
    /\ CCB.next_ordinal (World.ccb w') = CCB.next_ordinal (World.ccb w)
    /\ World.ccb w' = World.ccb w
    /\ Publisher.CurrentSlot (pub publisher w') = None.
Proof.
  intros Hr Hrel Hslot Hno.
  pose proof (ReloadSubscribersIfNecessary_frame publisher
                (add_event (EvClearPollFd publisher) w)) as F.
  rewrite Hr in F. cbn [snd] in F.
  destruct F as (Fc & _ & _ & _ & Fs & Fo & Fi & _).
  rewrite pub_add_event in Fs, Fo, Fi. cbn in Fc.
  unfold GetMessageBuffer, bind, emit, modify, get. rewrite Hr.
  unfold Publisher.IsReliable, Publisher.CurrentSlot in *.
  rewrite Fo, Hrel, Fs, Hslot. cbn [andb].
  rewrite bool_decide_eq_true_2 by reflexivity.
  destruct (Z.eqb_spec (Publisher.NumSubscribers (pub publisher w1)) 0) as [E|E].
  - exists w1. unfold ret. rewrite Fc, Fs, Hslot. auto.
  - destruct Hno as [Hno|Hno]; [contradiction|].
    unfold Publisher_FindFreeSlot, Publisher.GetPublisherId in *.
    rewrite Fi, Fc. rewrite (FindFreeSlot_none _ _ _ Hno).
    exists (World.with_ccb (World.ccb w) w1). unfold ret.
    autorewrite with world. rewrite Fs, Hslot. auto.
Qed.

Lemma GetMessageBuffer_backpressure_witness :
  (exists w',
     GetMessageBuffer 100 Scenario.reliable_world = (Ok 0, w')
     /\ CCB.next_ordinal (World.ccb w')
        = CCB.next_ordinal (World.ccb Scenario.reliable_world)
     /\ World.ccb w' = World.ccb Scenario.reliable_world
     /\ Publisher.CurrentSlot (pub 100 w') = None)
  /\ (exists w',
        GetMessageBuffer 100 Scenario.backpressure_world = (Ok 0, w')
        /\ CCB.next_ordinal (World.ccb w')
           = CCB.next_ordinal (World.ccb Scenario.backpressure_world)
        /\ World.ccb w' = World.ccb Scenario.backpressure_world
        /\ Publisher.CurrentSlot (pub 100 w') = None).
Proof.
  split.
  - apply (GetMessageBuffer_backpressure 100 Scenario.reliable_world
             (snd (ReloadSubscribersIfNecessary 100
                     (add_event (EvClearPollFd 100) Scenario.reliable_world)))).
    + vm_compute. reflexivity.
    + reflexivity.
    + reflexivity.
    + left. reflexivity.
  - apply (GetMessageBuffer_backpressure 100 Scenario.backpressure_world
             (snd (ReloadSubscribersIfNecessary 100
                     (add_event (EvClearPollFd 100)
                                Scenario.backpressure_world)))).
    + vm_compute. reflexivity.
    + reflexivity.
    + reflexivity.
    + right. reflexivity.
Defined.

(** ** Activation of a reliable channel *)

(** What a successful [ActivateReliableChannel] has done. *)
Lemma ActivateReliableChannel_ok (p : Z) (w w' : World.t) (u : unit) :
  ActivateReliableChannel p w = (Ok u, w') ->
  let ch := Publisher.channel (pub p w) in
  pub p w' = Publisher.SetSlot None (pub p w)
  /\ counters_of (World.ccb w')
     = (CCB.next_ordinal (World.ccb w) + 1,
        CCB.total_bytes (World.ccb w) + 1,
        CCB.total_messages (World.ccb w) + 1)
  /\ exists slot,
       slot <> 0
       /\ SlotList.last (CCB.active (World.ccb w')) = slot
       /\ MessageSlot.message_size (CCB.slot slot (World.ccb w')) = 1
       /\ World.buffers w'
          = store_prefix ch (Channel.Prefix ch (CCB.slot slot (World.ccb w')))
              (MessagePrefix.mk
                 (MessagePrefix.padding
                    (load_prefix ch (World.buffers w)
                       (Channel.Prefix ch (CCB.slot slot (World.ccb w')))))
                 1 (MessageSlot.ordinal (CCB.slot slot (World.ccb w')))
                 (now_ns (World.env w)) kMessageActivate)
              (World.buffers w).
Proof.
  intros H ch. unfold ActivateReliableChannel in H.
  apply bind_ok in H as (w0 & w1 & [= <- <-] & H).
  apply bind_ok in H as (slot & w1 & Hf & H).
  unfold Publisher_FindFreeSlot in Hf.
  destruct (FindFreeSlot true (Publisher.GetPublisherId (pub p w)) (World.ccb w))
    as [found c1] eqn:F.
  injection Hf as <- <-.
  destruct found as [slot|]; [|discriminate].
  apply bind_ok in H as (u1 & w2 & E2 & H). apply modify_ok in E2. subst w2.
  apply bind_ok in H as (w2 & w3 & [= <- <-] & H).
  destruct (_ =? 0); [discriminate|].
  apply bind_ok in H as (u3 & w3 & E3 & H). apply modify_ok in E3. subst w3.
  apply bind_ok in H as (msg & w4 & E4 & H).
  apply bind_ok in H as (u5 & w5 & E5 & H). apply modify_ok in E5. subst w5.
  apply modify_ok in H. subst w'.
  unfold Publisher_ActivateSlotAndGetAnother, ActivateSlotAndGetAnother in E4.
  injection E4 as _ <-.
  pose proof (FindFreeSlot_some_nonzero true
                (Publisher.GetPublisherId (pub p w)) (World.ccb w) slot) as Hnz.
  pose proof (counters_FindFreeSlot true (Publisher.GetPublisherId (pub p w))
                (World.ccb w)) as Hc.
  rewrite F in Hnz, Hc. cbn [fst snd] in Hnz, Hc.
  specialize (Hnz eq_refl).
  split; [|split].
  - simpl_world. destruct (pub p w); reflexivity.
  - simpl_world. unfold AddToActiveList.
    rewrite counters_update, counters_ListInsertAtEnd, counters_ListRemove.
    unfold counters_of in *. cbn -[CCB.update].
    injection Hc as -> -> ->. autorewrite with ccb. reflexivity.
  - exists slot. split; [exact Hnz|].
    simpl_world. unfold AddToActiveList.
    change (Publisher.channel (Publisher.SetSlot (Some slot) (pub p w)))
      with (Publisher.channel (pub p w)).
    split; [|split].
    + change (CCB.active ?c) with (CCB.list_of active_list c).
      rewrite list_of_update. apply ListInsertAtEnd_last.
    + rewrite (proj_update MessageSlot.message_size) by reflexivity.
      rewrite (proj_ListInsertAtEnd MessageSlot.message_size message_size_links).
      rewrite (proj_ListRemove MessageSlot.message_size message_size_links).
      autorewrite with ccb. reflexivity.
    + unfold Channel.Prefix.
      rewrite (proj_update MessageSlot.id) by reflexivity.
      rewrite (proj_ListInsertAtEnd MessageSlot.id id_links).
      rewrite (proj_ListRemove MessageSlot.id id_links).
      rewrite (proj_update MessageSlot.ordinal) by reflexivity.
      rewrite (proj_ListInsertAtEnd MessageSlot.ordinal ordinal_links).
      rewrite (proj_ListRemove MessageSlot.ordinal ordinal_links).
      autorewrite with ccb. reflexivity.
Qed.

Lemma CheckConnected_ok (w : World.t) (u : unit) (w' : World.t) :
  CheckConnected w = (Ok u, w') -> w' = w /\ World.socket_connected w = true.
Proof.
  unfold CheckConnected. destruct (World.socket_connected w); cbn.
  - intros [= _ <-]. auto.
  - discriminate.
Qed.

(** An exchange with the server that succeeds touches neither the shared
    memory nor the objects of the client. *)
Lemma SendRequestReceiveResponse_ok (req : Request) (w : World.t)
    (r : Response.t * list Z) (w' : World.t) :
  SendRequestReceiveResponse req w = (Ok r, w') ->
  w' = add_event (EvRequest req) (World.with_rpcs (S (World.rpcs w)) w).
Proof.
  unfold SendRequestReceiveResponse.
  repeat (match goal with
          | |- context [if negb ?b then _ else _] => destruct b; cbn [negb]
          end); try discriminate.
  intros [= _ <-]. reflexivity.
Qed.

Lemma on_failure_ok {A} (cleanup : World.t -> World.t) (m : M A)
    (w : World.t) (a : A) (w' : World.t) :
  on_failure cleanup m w = (Ok a, w') -> m w = (Ok a, w').
Proof.
  unfold on_failure. destruct (m w) as [[a'|s] w1]; [auto | discriminate].
Qed.

Lemma Publisher_Map_ok (p : Z) (w : World.t) (u : unit) (w' : World.t) :
  Publisher_Map p w = (Ok u, w') ->
  exists ch, w' = set_pub p (Publisher.with_channel ch) w.
Proof.
  unfold Publisher_Map. destruct (Channel_Map _ _) as [ch|s].
  - intros [= _ <-]. eauto.
  - discriminate.
Qed.

(** C3: a publisher that [CreatePublisher] has created successfully is,
    when reliable, left without a current slot after exactly one message
    was published: [total_messages] went up by one, the slot at the tail
    of the active list has [message_size = 1], its prefix has
    [message_size = 1] and the Activate flag, and no other prefix of the
    buffer region changed.  When unreliable, nothing was published (the
    counters and the buffer region are unchanged) and the publisher holds
    a slot, the one at the tail of the busy list. *)
Theorem CreatePublisher_activation (channel_name : string)
    (slot_size num_slots : Z) (opts : PublisherOptions.t)
    (w : World.t) (p : Z) (w' : World.t) :
  CreatePublisher channel_name slot_size num_slots opts w = (Ok p, w') ->
  (PublisherOptions.IsReliable opts = true ->
   Publisher.CurrentSlot (pub p w') = None
   /\ CCB.total_messages (World.ccb w')
      = CCB.total_messages (World.ccb w) + 1
   /\ exists slot,
        slot <> 0
        /\ SlotList.last (CCB.active (World.ccb w')) = slot
        /\ MessageSlot.message_size (CCB.slot slot (World.ccb w')) = 1
        /\ (let ch := Publisher.channel (pub p w') in
            let addr := Channel.Prefix ch (CCB.slot slot (World.ccb w')) in
            let prefix := load_prefix ch (World.buffers w') addr in
            MessagePrefix.message_size prefix = 1
            /\ Z.land (MessagePrefix.flags prefix) kMessageActivate <> 0
            /\ forall k, k <> addr - Channel.buffers_ ch ->
                         World.buffers w' !! k = World.buffers w !! k))
  /\ (PublisherOptions.IsReliable opts = false ->
      CCB.total_messages (World.ccb w') = CCB.total_messages (World.ccb w)
      /\ CCB.next_ordinal (World.ccb w') = CCB.next_ordinal (World.ccb w)
      /\ World.buffers w' = World.buffers w
      /\ exists slot,
           slot <> 0
           /\ Publisher.CurrentSlot (pub p w') = Some slot
           /\ SlotList.last (CCB.busy (World.ccb w')) = slot).
Proof.
  intros H. unfold CreatePublisher in H.
  apply bind_ok in H as (u0 & w0 & E0 & H).
  apply CheckConnected_ok in E0 as [-> _].
  apply bind_ok in H as (r & w1 & E1 & H).
  apply SendRequestReceiveResponse_ok in E1.
  destruct (negb (is_empty_string _)); [discriminate|].
  apply bind_ok in H as (w2 & w3 & [= <- <-] & H).
  apply bind_ok in H as (u2 & w2 & E2 & H). apply modify_ok in E2.
  apply on_failure_ok in H.
  apply bind_ok in H as (u3 & w3 & E3 & H).
  apply Publisher_Map_ok in E3 as [ch E3].
  unfold update_pub, pub_channel, emit in H.
  apply bind_ok in H as (u4 & w4 & E4 & H). apply modify_ok in E4.
  apply bind_ok in H as (u5 & w5 & E5 & H). apply modify_ok in E5.
  apply bind_ok in H as (u6 & w6 & E6 & H). apply modify_ok in E6.
  apply bind_ok in H as (u7 & w7 & E7 & H). apply modify_ok in E7.
  apply bind_ok in H as (u8 & w8 & E8 & H). unfold update_pub in E8.
  apply modify_ok in E8.
  apply bind_ok in H as (u9 & w9 & E9 & H).
  apply bind_ok in H as (u10 & w10 & E10 & H). apply modify_ok in E10.
  injection H as <- <-.
  assert (Hccb : World.ccb w8 = World.ccb w).
  { subst. reflexivity. }
  assert (Hbuf : World.buffers w8 = World.buffers w).
  { subst. reflexivity. }
  split; intros Hrel; rewrite Hrel in E9; cbn [negb] in E9.
  - apply ActivateReliableChannel_ok in E9 as (Hpub & Hcnt & slot & Hnz & Hlast & Hsize & Hmem).
    cbn zeta in Hpub, Hmem.
    rewrite E10. simpl_world. rewrite Hpub.
    split; [reflexivity|].
    unfold counters_of in Hcnt. injection Hcnt as _ _ Hcnt.
    rewrite Hccb in Hcnt.
    split; [exact Hcnt|].
    exists slot. repeat (split; [assumption|]).
    change (Publisher.channel (Publisher.SetSlot None ?o))
      with (Publisher.channel o).
    rewrite Hmem, load_store_prefix. cbn.
    split; [reflexivity|]. split; [discriminate|].
    intros k Hk. unfold store_prefix. rewrite Hbuf.
    apply lookup_insert_ne. congruence.
  - apply bind_ok in E9 as (w11 & w12 & [= <- <-] & E9).
    apply bind_ok in E9 as (found & w12 & E12 & E9).
    unfold Publisher_FindFreeSlot in E12.
    pose proof (counters_FindFreeSlot false
                  (Publisher.GetPublisherId (pub (World.next_object w1) w8))
                  (World.ccb w8)) as Hc.
    pose proof (FindFreeSlot_busy false
                  (Publisher.GetPublisherId (pub (World.next_object w1) w8))
                  (World.ccb w8)) as Hb.
    pose proof (FindFreeSlot_some_nonzero false
                  (Publisher.GetPublisherId (pub (World.next_object w1) w8))
                  (World.ccb w8)) as Hz.
    destruct (FindFreeSlot _ _ _) as [f c1].
    injection E12 as <- <-. cbn [fst snd] in *.
    destruct f as [slot|]; [|discriminate].
    unfold update_pub in E9. apply modify_ok in E9.
    rewrite E10, E9. simpl_world.
    unfold counters_of in Hc. injection Hc as Hc1 _ Hc3.
    rewrite Hccb in Hc1, Hc3.
    repeat (split; [assumption|]).
    exists slot. split; [apply Hz; reflexivity|].
    split; [reflexivity|]. apply Hb. reflexivity.
Qed.


Lemma CreatePublisher_activation_witness :
  (Publisher.CurrentSlot (pub 100 Scenario.reliable_world) = None
   /\ CCB.total_messages (World.ccb Scenario.reliable_world)
      = CCB.total_messages (World.ccb (Scenario.world0 [] 3)) + 1
   /\ exists slot,
        slot <> 0
        /\ SlotList.last (CCB.active (World.ccb Scenario.reliable_world)) = slot
        /\ MessageSlot.message_size
             (CCB.slot slot (World.ccb Scenario.reliable_world)) = 1
        /\ (let ch := Publisher.channel (pub 100 Scenario.reliable_world) in
            let addr :=
              Channel.Prefix ch
                (CCB.slot slot (World.ccb Scenario.reliable_world)) in
            let prefix :=
              load_prefix ch (World.buffers Scenario.reliable_world) addr in
            MessagePrefix.message_size prefix = 1
            /\ Z.land (MessagePrefix.flags prefix) kMessageActivate <> 0
            /\ forall k, k <> addr - Channel.buffers_ ch ->
                         World.buffers Scenario.reliable_world !! k
                         = World.buffers (Scenario.world0 [] 3) !! k))
  /\ (CCB.total_messages (World.ccb Scenario.unreliable_world)
      = CCB.total_messages (World.ccb (Scenario.world0 [] 3))
      /\ CCB.next_ordinal (World.ccb Scenario.unreliable_world)
         = CCB.next_ordinal (World.ccb (Scenario.world0 [] 3))
      /\ World.buffers Scenario.unreliable_world
         = World.buffers (Scenario.world0 [] 3)
      /\ exists slot,
           slot <> 0
           /\ Publisher.CurrentSlot (pub 100 Scenario.unreliable_world)
              = Some slot
           /\ SlotList.last (CCB.busy (World.ccb Scenario.unreliable_world))
              = slot).
Proof.
  split.
  - apply (proj1 (CreatePublisher_activation "chan" 64 3
                    Scenario.reliable_opts (Scenario.world0 [] 3) 100
                    Scenario.reliable_world ltac:(vm_compute; reflexivity))).
    reflexivity.
  - apply (proj2 (CreatePublisher_activation "chan" 64 3
                    Scenario.unreliable_opts (Scenario.world0 [] 3) 100
                    Scenario.unreliable_world ltac:(vm_compute; reflexivity))).
    reflexivity.
Defined.

(** ** Publishing without a replacement slot *)

(** C5: once the subscribers are reloaded, publishing the slot held when
    the channel hands back no new slot ends, for an unreliable publisher,
    with the internal error "Out of slots for channel <name>"; for a
    reliable publisher the channel never hands back a new slot, this is
    no error, and the publish returns the size together with the ordinal
    and timestamp of the message, the ordinal being the one now stored in
    the slot.  Either way the publisher is left without a slot. *)
Theorem PublishMessage_without_new_slot (publisher message_size : Z)
    (w w1 : World.t) (slot : Z) :
  ReloadSubscribersIfNecessary publisher w = (Ok tt, w1) ->
  Publisher.CurrentSlot (pub publisher w) = Some slot ->
  let msg := published publisher slot message_size w1 in
  let name := Channel.Name (Publisher.channel (pub publisher w1)) in
  (Publisher.IsReliable (pub publisher w) = false ->
   new_slot msg = None ->
   exists w',
     PublishMessage publisher message_size w
     = Some (Failed (InternalError
                       ("Out of slots for channel " ++ name)%string), w')
     /\ Publisher.CurrentSlot (pub publisher w') = None)
  /\ (Publisher.IsReliable (pub publisher w) = true ->
      new_slot msg = None
      /\ exists w',
           PublishMessage publisher message_size w
           = Some (Ok (Message_of message_size 0 (pm_ordinal msg)
                                  (pm_timestamp msg)), w')
           /\ Publisher.CurrentSlot (pub publisher w') = None
           /\ MessageSlot.ordinal (CCB.slot slot (World.ccb w'))
              = pm_ordinal msg).
Proof.
  intros Hr Hslot msg name.
  pose proof (ReloadSubscribersIfNecessary_frame publisher w) as F.
  rewrite Hr in F. cbn [snd] in F.
  destruct F as (_ & _ & _ & _ & Fs & Fo & _).
  unfold PublishMessage, PublishMessageInternal. rewrite Hr.
  unfold Publisher.CurrentSlot, Publisher.IsReliable in *.
  rewrite Fs, Hslot.
  unfold bind, SetMessageSize, modify, get, Publisher_ActivateSlotAndGetAnother,
    update_pub, emit, ret, fail.
  subst msg name. unfold published, Publisher.IsReliable.
  simpl_world.
  split; intros Hrel; rewrite Fo, Hrel.
  - destruct (ActivateSlotAndGetAnother _ _ _ _ _ _ _ _ _) as [[msg c] mem].
    cbn [fst]. intros Hnone. unfold modify.
    destruct (pm_notify msg); rewrite Hnone; simpl_world;
      change (Publisher.options_ (Publisher.SetSlot None ?o))
        with (Publisher.options_ o);
      rewrite Fo, Hrel; eexists; (split; [reflexivity|]);
      simpl_world; reflexivity.
  - unfold ActivateSlotAndGetAnother.
    cbn [fst new_slot pm_notify pm_ordinal pm_timestamp].
    split; [reflexivity|]. unfold modify.
    destruct (negb _); simpl_world;
      change (Publisher.options_ (Publisher.SetSlot None ?o))
        with (Publisher.options_ o);
      rewrite Fo, Hrel; eexists; (split; [reflexivity|]); simpl_world;
      (split; [reflexivity|]); unfold AddToActiveList;
      rewrite (proj_update MessageSlot.ordinal) by reflexivity;
      rewrite (proj_ListInsertAtEnd MessageSlot.ordinal ordinal_links);
      rewrite (proj_ListRemove MessageSlot.ordinal ordinal_links);
      autorewrite with ccb; reflexivity.
Qed.

Lemma PublishMessage_without_new_slot_witness :
  (exists w',
     PublishMessage 100 7 Scenario.exhausted_world
     = Some (Failed (InternalError "Out of slots for channel chan"), w')
     /\ Publisher.CurrentSlot (pub 100 w') = None)
  /\ (new_slot (published 100 320 7 Scenario.reliable_writing_world) = None
      /\ exists w',
           PublishMessage 100 7 Scenario.reliable_writing_world
           = Some (Ok (Message_of 7 0
                         (pm_ordinal
                            (published 100 320 7
                               Scenario.reliable_writing_world))
                         (pm_timestamp
                            (published 100 320 7
                               Scenario.reliable_writing_world))), w')
           /\ Publisher.CurrentSlot (pub 100 w') = None
           /\ MessageSlot.ordinal (CCB.slot 320 (World.ccb w'))
              = pm_ordinal (published 100 320 7
                              Scenario.reliable_writing_world)).
Proof.
  split.
  - apply (proj1 (PublishMessage_without_new_slot 100 7
                    Scenario.exhausted_world Scenario.exhausted_world 480
                    ltac:(vm_compute; reflexivity) eq_refl));
      reflexivity.
  - apply (proj2 (PublishMessage_without_new_slot 100 7
                    Scenario.reliable_writing_world
                    Scenario.reliable_writing_world 320
                    ltac:(vm_compute; reflexivity) eq_refl)).
    reflexivity.
Defined.

(** ** Reading: activation messages are filtered *)

Lemma sub_set_sub (s : Z) (f : Subscriber.t -> Subscriber.t) (w : World.t) :
  sub s (set_sub s f w) = f (sub s w).
Proof. unfold sub, set_sub. cbn. rewrite lookup_insert_eq. reflexivity. Qed.

Lemma sub_with_rpcs (s : Z) (n : nat) (w : World.t) :
  sub s (World.with_rpcs n w) = sub s w.
Proof. reflexivity. Qed.

Lemma sub_socket_Close (s : Z) (w : World.t) : sub s (socket_Close w) = sub s w.
Proof. reflexivity. Qed.

Lemma sub_with_ccb (s : Z) (c : CCB.t) (w : World.t) :
  sub s (World.with_ccb c w) = sub s w.
Proof. reflexivity. Qed.

Lemma ccb_set_sub (s : Z) (f : Subscriber.t -> Subscriber.t) (w : World.t) :
  World.ccb (set_sub s f w) = World.ccb w.
Proof. reflexivity. Qed.

Lemma buffers_set_sub (s : Z) (f : Subscriber.t -> Subscriber.t) (w : World.t) :
  World.buffers (set_sub s f w) = World.buffers w.
Proof. reflexivity. Qed.

Lemma callbacks_set_sub (s : Z) (f : Subscriber.t -> Subscriber.t) (w : World.t) :
  World.dropped_message_callbacks_ (set_sub s f w)
  = World.dropped_message_callbacks_ w.
Proof. reflexivity. Qed.

#[local] Hint Rewrite sub_set_sub sub_add_event sub_with_rpcs sub_socket_Close
  sub_with_ccb ccb_set_sub buffers_set_sub callbacks_set_sub : world.

Lemma ReloadReliablePublishersIfNecessary_frame (s : Z) (w : World.t) :
  sub_frame s w (snd (ReloadReliablePublishersIfNecessary s w)).
Proof.
  unfold ReloadReliablePublishersIfNecessary, bind, CheckConnected, get, ret,
    sub_channel, update_sub, modify, SendRequestReceiveResponse.
  destruct (World.socket_connected w); cbn -[set_sub sub].
  2: { repeat split. }
  destruct (_ =? _); cbn -[set_sub sub].
  1: { repeat split. }
  repeat (match goal with
          | |- context [if negb ?b then _ else _] => destruct b; cbn -[set_sub sub]
          end);
  unfold sub_frame; cbn -[set_sub sub]; autorewrite with world; cbn; repeat split.
Qed.

Lemma Aligned_nonneg (v : Z) : 0 <= v -> 0 <= Aligned 32 v.
Proof. intros H. unfold Aligned. apply Z.land_nonneg. left. lia. Qed.

Lemma slot_id_nonneg (p : Z) (c : CCB.t) :
  map_Forall (fun _ s => 0 <= MessageSlot.id s) (CCB.slots c) ->
  0 <= MessageSlot.id (CCB.slot p c).
Proof.
  intros H. unfold CCB.slot. destruct (CCB.slots c !! p) as [s|] eqn:E; cbn.
  - exact (H p s E).
  - reflexivity.
Qed.

Lemma ids_update (p : Z) (f : MessageSlot.t -> MessageSlot.t) (c : CCB.t) :
  (forall s, MessageSlot.id (f s) = MessageSlot.id s) ->
  map_Forall (fun _ s => 0 <= MessageSlot.id s) (CCB.slots c) ->
  map_Forall (fun _ s => 0 <= MessageSlot.id s) (CCB.slots (CCB.update p f c)).
Proof.
  intros Hf H. unfold CCB.update. cbn. apply map_Forall_insert_2; [|exact H].
  rewrite Hf. apply slot_id_nonneg. exact H.
Qed.

Lemma Prefix_nonnull (s : Z) (slot : Z) (w : World.t) :
  mapped s w ->
  Channel.Prefix (Subscriber.channel (sub s w)) (CCB.slot slot (World.ccb w)) <> 0.
Proof.
  intros (Hb & Hs & Hi). unfold Channel.Prefix.
  pose proof (Aligned_nonneg _ Hs). pose proof (slot_id_nonneg slot _ Hi).
  change sizeof_MessagePrefix with 32. nia.
Qed.

Lemma is_activation_mapped (s slot : Z) (w : World.t) :
  mapped s w -> is_activation s slot w = carries_activate s slot w.
Proof.
  intros H. unfold is_activation, carries_activate. cbn zeta.
  rewrite (proj2 (Z.eqb_neq _ 0) (Prefix_nonnull s slot w H)). reflexivity.
Qed.

Lemma release_slot_id r o s : MessageSlot.id (release_slot r o s) = MessageSlot.id s.
Proof. unfold release_slot. destruct r; reflexivity. Qed.

Lemma acquire_slot_id r o s : MessageSlot.id (acquire_slot r o s) = MessageSlot.id s.
Proof. unfold acquire_slot. destruct r; reflexivity. Qed.

Lemma ids_move_to_slot cur target r o c :
  map_Forall (fun _ s => 0 <= MessageSlot.id s) (CCB.slots c) ->
  map_Forall (fun _ s => 0 <= MessageSlot.id s)
             (CCB.slots (snd (move_to_slot cur target r o c))).
Proof.
  intros H. unfold move_to_slot. destruct (target =? 0); [exact H|]. cbn [snd].
  apply ids_update; [apply acquire_slot_id|].
  destruct cur; [apply ids_update; [apply release_slot_id | exact H] | exact H].
Qed.

Lemma report_drop_frame (s last n : Z) (w : World.t) :
  sub s (report_drop s last n w) = sub s w
  /\ World.ccb (report_drop s last n w) = World.ccb w
  /\ World.buffers (report_drop s last n w) = World.buffers w.
Proof.
  unfold report_drop. destruct (_ && _); [|auto].
  destruct (_ !! s); auto.
Qed.

(** [take_slot] keeps the subscriber's mapping and the buffer region, and
    makes the slot it returns the current one. *)
Lemma take_slot_frame (s : Z) (mode : ReadMode) (clear : bool) (w : World.t) :
  let r := take_slot s mode clear w in
  Subscriber.channel (sub s (snd r)) = Subscriber.channel (sub s w)
  /\ World.buffers (snd r) = World.buffers w
  /\ (mapped s w -> mapped s (snd r))
  /\ (forall slot, fst r = Some slot ->
                   Subscriber.CurrentSlot (sub s (snd r)) = Some slot).
Proof.
  cbn zeta. unfold take_slot.
  set (w0 := if clear then add_event (EvClearPollFd s) w else w).
  assert (E0 : sub s w0 = sub s w) by (subst w0; destruct clear; reflexivity).
  assert (E1 : World.ccb w0 = World.ccb w) by (subst w0; destruct clear; reflexivity).
  assert (E2 : World.buffers w0 = World.buffers w) by (subst w0; destruct clear; reflexivity).
  set (last := match Subscriber.CurrentSlot (sub s w0) with
               | Some slot => MessageSlot.ordinal (CCB.slot slot (World.ccb w0))
               | None => -1
               end).
  assert (Hm : forall cur target,
             mapped s w ->
             map_Forall (fun _ s => 0 <= MessageSlot.id s)
               (CCB.slots (snd (move_to_slot cur target
                  (Subscriber.IsReliable (sub s w0))
                  (Subscriber.GetSubscriberId (sub s w0)) (World.ccb w0))))).
  { intros cur target (_ & _ & Hi). apply ids_move_to_slot. rewrite E1. exact Hi. }
  assert (Hgoal : forall cur target,
    let r := match (let '(slot, c) :=
                      move_to_slot cur target (Subscriber.IsReliable (sub s w0))
                        (Subscriber.GetSubscriberId (sub s w0)) (World.ccb w0) in
                    (slot, World.with_ccb c w0)) with
             | (None, w1) =>
                 (None, add_event (EvTriggerReliablePublishers s) w1)
             | (Some n, w1) =>
                 (Some n,
                  report_drop s last n
                    (set_sub s (Subscriber.SetSlot (Some n)) w1))
             end in
    Subscriber.channel (sub s (snd r)) = Subscriber.channel (sub s w)
    /\ World.buffers (snd r) = World.buffers w
    /\ (mapped s w -> mapped s (snd r))
    /\ (forall slot, fst r = Some slot ->
                     Subscriber.CurrentSlot (sub s (snd r)) = Some slot)).
  { intros cur target. specialize (Hm cur target).
    destruct (move_to_slot _ _ _ _ _) as [[n|] c1]; cbn [fst snd] in *; cbn zeta.
    - destruct (report_drop_frame s last n
                  (set_sub s (Subscriber.SetSlot (Some n)) (World.with_ccb c1 w0)))
        as (K2 & K4 & K3).
      cbn [fst snd]. rewrite K2, K3. simpl_world. rewrite E0, E2.
      split; [destruct (sub s w); reflexivity|]. split; [reflexivity|].
      split.
      + intros M. pose proof (Hm M). destruct M as (? & ? & ?).
        unfold mapped. rewrite K2, K4. simpl_world. rewrite E0. cbn. auto.
      + intros ? [= <-]. reflexivity.
    - simpl_world. rewrite E0, E2.
      split; [reflexivity|]. split; [reflexivity|]. split; [|discriminate].
      intros M. pose proof (Hm M). destruct M as (? & ? & ?).
      unfold mapped. simpl_world. rewrite E0. auto. }
  unfold Subscriber_NextSlot, Subscriber_LastSlot, NextSlot, LastSlot.
  destruct mode; apply Hgoal.
Qed.

Lemma ReadMessageInternal_filters (s : Z) (mode : ReadMode) :
  forall (fuel : nat) (clear : bool) (w : World.t) (msg : Message)
         (w' : World.t),
    mapped s w ->
    ReadMessageInternal fuel s mode false clear w = Some (Ok msg, w') ->
    msg = Message_empty
    \/ exists slot,
         Subscriber.CurrentSlot (sub s w') = Some slot
         /\ carries_activate s slot w' = false
         /\ msg = message_in s slot w'.
Proof.
  induction fuel as [|fuel IH]; intros clear w msg w' Hmap H; [discriminate|].
  cbn [ReadMessageInternal] in H.
  destruct (take_slot_frame s mode clear w) as (_ & _ & Hm & Hcur).
  destruct (take_slot s mode clear w) as [[slot|] w1]; cbn [fst snd] in *.
  - specialize (Hm Hmap). rewrite (is_activation_mapped _ _ _ Hm) in H.
    destruct (carries_activate s slot w1) eqn:Ha; cbn [andb negb] in H.
    + eapply IH; eauto.
    + injection H as <- <-. right. exists slot. auto.
  - injection H as <- <-. left. reflexivity.
Qed.

Lemma with_ccb_same (w : World.t) : World.with_ccb (World.ccb w) w = w.
Proof. destruct w; reflexivity. Qed.

Lemma element_release r o s :
  MessageSlot.element (release_slot r o s) = MessageSlot.element s.
Proof. unfold release_slot. destruct r; reflexivity. Qed.

Lemma element_acquire r o s :
  MessageSlot.element (acquire_slot r o s) = MessageSlot.element s.
Proof. unfold acquire_slot. destruct r; reflexivity. Qed.

Lemma slot_next_update (p q : Z) (f : MessageSlot.t -> MessageSlot.t) (c : CCB.t) :
  (forall s, MessageSlot.element (f s) = MessageSlot.element s) ->
  slot_next q (CCB.update p f c) = slot_next q c.
Proof.
  intros Hf. unfold slot_next. destruct (decide (p = q)) as [->|Hne].
  - rewrite slot_update_eq, Hf. reflexivity.
  - rewrite slot_update_ne by exact Hne. reflexivity.
Qed.

Lemma slot_next_move_to_slot cur target r o c q :
  slot_next q (snd (move_to_slot cur target r o c)) = slot_next q c.
Proof.
  unfold move_to_slot. destruct (target =? 0); [reflexivity|]. cbn [snd].
  rewrite slot_next_update by apply element_acquire.
  destruct cur; [apply slot_next_update, element_release | reflexivity].
Qed.

Lemma list_walk_ext (c c' : CCB.t) :
  (forall q, slot_next q c' = slot_next q c) ->
  forall fuel p, list_walk fuel p c' = list_walk fuel p c.
Proof.
  intros H. induction fuel as [|fuel IH]; intros p; simpl; [reflexivity|].
  rewrite H, IH. reflexivity.
Qed.

(** Reading forward: the slot taken is the one the cursor points to, and
    taking it changes no list link. *)
Lemma take_slot_forward (s : Z) (clear : bool) (w : World.t) :
  let r := take_slot s kReadNext clear w in
  fst r = (if cursor_next s w =? 0 then None else Some (cursor_next s w))
  /\ (forall q, slot_next q (World.ccb (snd r)) = slot_next q (World.ccb w))
  /\ (cursor_next s w <> 0 ->
      Subscriber.CurrentSlot (sub s (snd r)) = Some (cursor_next s w)).
Proof.
  cbn zeta. unfold take_slot, cursor_next.
  set (w0 := if clear then add_event (EvClearPollFd s) w else w).
  assert (E0 : sub s w0 = sub s w) by (subst w0; destruct clear; reflexivity).
  assert (E1 : World.ccb w0 = World.ccb w) by (subst w0; destruct clear; reflexivity).
  unfold Subscriber_NextSlot, NextSlot. rewrite E0, E1.
  set (target := match Subscriber.CurrentSlot (sub s w) with
                 | Some cur => slot_next cur (World.ccb w)
                 | None => SlotList.first (CCB.active (World.ccb w))
                 end).
  pose proof (slot_next_move_to_slot (Subscriber.CurrentSlot (sub s w)) target
                (Subscriber.IsReliable (sub s w))
                (Subscriber.GetSubscriberId (sub s w)) (World.ccb w)) as Hn.
  unfold move_to_slot in *. destruct (Z.eqb_spec target 0) as [E|E];
    cbn [fst snd] in *.
  - split; [reflexivity|]. split; [exact Hn | contradiction].
  - match goal with
    | |- context [report_drop s ?L ?n ?w1] =>
        destruct (report_drop_frame s L n w1) as (K1 & K2 & _)
    end.
    rewrite K1, K2.
    split; [reflexivity|]. split.
    + intros q. cbn. apply Hn.
    + intros _. rewrite sub_set_sub. reflexivity.
Qed.

(** *** What moving to a slot leaves alone *)

Lemma release_slot_payload r o s :
  MessageSlot.ordinal (release_slot r o s) = MessageSlot.ordinal s
  /\ MessageSlot.message_size (release_slot r o s) = MessageSlot.message_size s.
Proof. unfold release_slot. destruct r; split; reflexivity. Qed.

Lemma acquire_slot_payload r o s :
  MessageSlot.ordinal (acquire_slot r o s) = MessageSlot.ordinal s
  /\ MessageSlot.message_size (acquire_slot r o s) = MessageSlot.message_size s.
Proof. unfold acquire_slot. destruct r; split; reflexivity. Qed.

(** The ownership transfer changes reference counts and owner bits only:
    ids, ordinals, sizes and the heads of the lists stay. *)
Lemma move_to_slot_payload cur target r o c :
  let c' := snd (move_to_slot cur target r o c) in
  CCB.active c' = CCB.active c
  /\ forall q,
       MessageSlot.id (CCB.slot q c') = MessageSlot.id (CCB.slot q c)
       /\ MessageSlot.ordinal (CCB.slot q c') = MessageSlot.ordinal (CCB.slot q c)
       /\ MessageSlot.message_size (CCB.slot q c')
          = MessageSlot.message_size (CCB.slot q c).
Proof.
  cbn zeta. unfold move_to_slot. destruct (target =? 0); cbn [snd]; [auto|].
  split; [destruct cur; reflexivity|]. intros q.
  rewrite (proj_update MessageSlot.id) by apply acquire_slot_id.
  rewrite (proj_update MessageSlot.ordinal) by apply acquire_slot_payload.
  rewrite (proj_update MessageSlot.message_size) by apply acquire_slot_payload.
  destruct cur as [cur|]; [|auto].
  rewrite (proj_update MessageSlot.id) by apply release_slot_id.
  rewrite (proj_update MessageSlot.ordinal) by apply release_slot_payload.
  rewrite (proj_update MessageSlot.message_size) by apply release_slot_payload.
  auto.
Qed.

(** The slot table after [take_slot] is the one the ownership transfer
    leaves. *)
Lemma take_slot_ccb (s : Z) (mode : ReadMode) (clear : bool) (w : World.t) :
  World.ccb (snd (take_slot s mode clear w))
  = snd (move_to_slot (Subscriber.CurrentSlot (sub s w))
           (slot_ahead s mode w) (Subscriber.IsReliable (sub s w))
           (Subscriber.GetSubscriberId (sub s w)) (World.ccb w))
  /\ fst (take_slot s mode clear w)
     = (if slot_ahead s mode w =? 0 then None else Some (slot_ahead s mode w))
  /\ (slot_ahead s mode w = 0 ->
      snd (take_slot s mode clear w)
      = add_event (EvTriggerReliablePublishers s)
          (if clear then add_event (EvClearPollFd s) w else w)).
Proof.
  unfold take_slot.
  set (w0 := if clear then add_event (EvClearPollFd s) w else w).
  assert (E0 : sub s w0 = sub s w) by (subst w0; destruct clear; reflexivity).
  assert (E1 : World.ccb w0 = World.ccb w) by (subst w0; destruct clear; reflexivity).
  assert (Hgoal : forall target,
    let r := match (let '(slot, c) :=
                      move_to_slot (Subscriber.CurrentSlot (sub s w0)) target
                        (Subscriber.IsReliable (sub s w0))
                        (Subscriber.GetSubscriberId (sub s w0)) (World.ccb w0) in
                    (slot, World.with_ccb c w0)) with
             | (None, w1) =>
                 (None, add_event (EvTriggerReliablePublishers s) w1)
             | (Some n, w1) =>
                 (Some n,
                  report_drop s
                    (match Subscriber.CurrentSlot (sub s w0) with
                     | Some slot => MessageSlot.ordinal (CCB.slot slot (World.ccb w0))
                     | None => -1
                     end) n
                    (set_sub s (Subscriber.SetSlot (Some n)) w1))
             end in
    World.ccb (snd r)
    = snd (move_to_slot (Subscriber.CurrentSlot (sub s w0)) target
             (Subscriber.IsReliable (sub s w0))
             (Subscriber.GetSubscriberId (sub s w0)) (World.ccb w0))
    /\ fst r = (if target =? 0 then None else Some target)
    /\ (target = 0 -> snd r = add_event (EvTriggerReliablePublishers s) w0)).
  { intros target. cbn zeta. unfold move_to_slot.
    destruct (Z.eqb_spec target 0) as [E|E]; cbn [fst snd].
    - rewrite with_ccb_same. repeat split.
    - match goal with
      | |- context [report_drop s ?L ?n ?w1] =>
          destruct (report_drop_frame s L n w1) as (_ & K & _)
      end.
      rewrite K. split; [reflexivity|]. split; [reflexivity|contradiction]. }
  destruct mode; cbn [slot_ahead];
    unfold cursor_next, Subscriber_NextSlot, Subscriber_LastSlot, NextSlot,
      LastSlot;
    rewrite <- E0, <- E1; apply Hgoal.
Qed.

Lemma take_slot_payload (s : Z) (mode : ReadMode) (clear : bool) (w : World.t) :
  let w' := snd (take_slot s mode clear w) in
  CCB.active (World.ccb w') = CCB.active (World.ccb w)
  /\ (forall q, carries_activate s q w' = carries_activate s q w)
  /\ (forall q, message_at s q w' = message_at s q w).
Proof.
  cbn zeta.
  destruct (take_slot_frame s mode clear w) as (Hc & Hb & _ & _).
  destruct (take_slot_ccb s mode clear w) as (Ht & _ & _).
  pose proof (move_to_slot_payload (Subscriber.CurrentSlot (sub s w))
                (slot_ahead s mode w) (Subscriber.IsReliable (sub s w))
                (Subscriber.GetSubscriberId (sub s w)) (World.ccb w)) as P.
  cbn zeta in P. rewrite <- Ht in P. destruct P as (Pa & Pq).
  split; [exact Pa|]. split; intros q; destruct (Pq q) as (Pi & Po & Pm).
  - unfold carries_activate, Channel.Prefix. cbn zeta. rewrite Hc, Hb, Pi.
    reflexivity.
  - unfold message_at, Channel.Prefix. cbn zeta. rewrite Hc, Hb, Pi, Po, Pm.
    reflexivity.
Qed.

(** The message handed out for the slot the subscriber holds. *)
Lemma message_in_current (s slot : Z) (w : World.t) :
  Subscriber.CurrentSlot (sub s w) = Some slot ->
  message_in s slot w = message_at s slot w.
Proof.
  intros H. unfold message_in, message_at, GetCurrentBufferAddress,
    Subscriber_CurrentOrdinal, Subscriber_Timestamp.
  rewrite H. reflexivity.
Qed.

(** One call of [ReadMessageInternal], by what lies ahead. *)
Lemma ReadMessageInternal_step (s : Z) (mode : ReadMode) (pass clear : bool)
    (fuel : nat) (w : World.t) :
  mapped s w ->
  ReadMessageInternal (S fuel) s mode pass clear w
  = if slot_ahead s mode w =? 0
    then Some (Ok Message_empty, snd (take_slot s mode clear w))
    else if carries_activate s (slot_ahead s mode w) w && negb pass
         then ReadMessageInternal fuel s mode false false
                (snd (take_slot s mode clear w))
         else Some (Ok (message_at s (slot_ahead s mode w) w),
                    snd (take_slot s mode clear w)).
Proof.
  intros Hmap. cbn [ReadMessageInternal].
  destruct (take_slot_frame s mode clear w) as (_ & _ & Hm & Hcur).
  destruct (take_slot_ccb s mode clear w) as (_ & Hf & _).
  destruct (take_slot_payload s mode clear w) as (_ & Ha & Hmsg).
  destruct (take_slot s mode clear w) as [o w1]; cbn [fst snd] in *.
  subst o. destruct (slot_ahead s mode w =? 0); [reflexivity|].
  rewrite (is_activation_mapped _ _ _ (Hm Hmap)), Ha.
  rewrite (message_in_current _ _ _ (Hcur _ eq_refl)), Hmsg. reflexivity.
Qed.

(** *** Reading the newest message *)


Lemma ReadMessage_enters (fuel : nat) (s : Z) (mode : ReadMode)
    (w w1 : World.t) :
  read_entry s w = Some w1 ->
  ReadMessage fuel s mode w = ReadMessageInternal fuel s mode false true w1.
Proof.
  unfold read_entry, ReadMessage. intros H.
  destruct (Subscriber.IsPlaceholder (sub s w)).
  - destruct (ReloadSubscriber s w) as [[u|st] w0]; [|discriminate].
    cbn [negb orb].
    destruct (Subscriber.IsPlaceholder (sub s w0)); [discriminate|].
    destruct (ReloadReliablePublishersIfNecessary s w0) as [[u'|st] w2];
      [|discriminate].
    injection H as <-. reflexivity.
  - destruct (ReloadReliablePublishersIfNecessary s w) as [[u'|st] w2];
      [|discriminate].
    injection H as <-. reflexivity.
Qed.

(** *** Reading forward *)

Lemma first_message_ext (s : Z) (w w' : World.t) (l : list Z) :
  (forall q, carries_activate s q w' = carries_activate s q w) ->
  first_message s w' l = first_message s w l.
Proof.
  intros H. unfold first_message. induction l as [|x l IH]; [reflexivity|].
  cbn [List.find]. rewrite H, IH. reflexivity.
Qed.

Lemma last_cons_or {A} (x : A) (l : list A) :
  last (x :: l) = match last l with Some y => Some y | None => Some x end.
Proof.
  revert x. induction l as [|y l IH]; intros x; [reflexivity|].
  change (last (x :: y :: l)) with (last (y :: l)).
  rewrite (IH y). destruct (last l); reflexivity.
Qed.

Lemma ReadMessageInternal_forward (s : Z) (l : list Z) :
  forall (n fuel : nat) (clear : bool) (w : World.t),
    mapped s w ->
    list_walk n (cursor_next s w) (World.ccb w) = Some l ->
    (length l < fuel)%nat ->
    exists w',
      ReadMessageInternal fuel s kReadNext false clear w
      = Some (Ok (match first_message s w l with
                  | Some slot => message_at s slot w
                  | None => Message_empty
                  end), w')
      /\ Subscriber.CurrentSlot (sub s w')
         = match first_message s w l with
           | Some slot => Some slot
           | None => cursor_after s w l
           end.
Proof.
  induction l as [|x l IH]; intros n fuel clear w Hmap W Hf;
    (destruct fuel as [|fuel]; [inversion Hf|]);
    rewrite (ReadMessageInternal_step s kReadNext false clear fuel w Hmap);
    change (slot_ahead s kReadNext w) with (cursor_next s w);
    destruct (take_slot_forward s clear w) as (_ & T2 & T3);
    destruct (take_slot_frame s kReadNext clear w) as (_ & _ & Hm & _);
    destruct (take_slot_payload s kReadNext clear w) as (_ & Hca & Hmsg);
    destruct (take_slot_ccb s kReadNext clear w) as (_ & _ & Hnone);
    change (slot_ahead s kReadNext w) with (cursor_next s w) in Hnone.
  - apply list_walk_nil in W. rewrite W. cbn [Z.eqb].
    eexists. split; [reflexivity|]. rewrite (Hnone W).
    destruct clear; reflexivity.
  - apply list_walk_cons in W as (Hx & Hne & n' & -> & W). subst x.
    rewrite (proj2 (Z.eqb_neq _ 0) Hne).
    unfold first_message. cbn [List.find].
    destruct (carries_activate s (cursor_next s w) w) eqn:Ha; cbn [andb negb].
    + destruct (IH n' fuel false (snd (take_slot s kReadNext clear w)))
        as (w' & R & C).
      * exact (Hm Hmap).
      * unfold cursor_next at 1. rewrite (T3 Hne), T2.
        rewrite (list_walk_ext _ _ T2). exact W.
      * cbn in Hf. lia.
      * exists w'. rewrite R, C.
        rewrite (first_message_ext _ _ _ l Hca). unfold first_message.
        destruct (List.find _ l) as [slot|].
        -- rewrite Hmsg. split; reflexivity.
        -- split; [reflexivity|]. unfold cursor_after.
           rewrite last_cons_or, (T3 Hne). destruct (last l); reflexivity.
    + eexists. split; [reflexivity|]. exact (T3 Hne).
Qed.


(** [mapped] on a concrete world, by going through its slot table. *)
Ltac prove_mapped :=
  unfold mapped;
  split; [vm_compute; reflexivity |];
  split; [vm_compute; discriminate |];
  apply map_Forall_to_list; vm_compute;
  repeat (constructor; [discriminate |]); constructor.



(** The same subscriber reading forward: the activation message is
    skipped and, no slot following it, the read returns the empty
    message. *)
Lemma first_read_forward :
  exists w',
    ReadMessage 2 101 kReadNext first_read_world = Some (Ok Message_empty, w')
    /\ Subscriber.CurrentSlot (sub 101 w') = Some 160.
Proof.
  eexists. split; [vm_compute; reflexivity|]. vm_compute. reflexivity.
Qed.

(** ** Reading: dropped messages *)

Lemma wrap_int64_small (v : Z) :
  - 2 ^ 63 <= v < 2 ^ 63 -> wrap_int64 v = v.
Proof.
  intros H. unfold wrap_int64, wrap_signed.
  change (2 ^ (64 - 1)) with (2 ^ 63). rewrite Z.mod_small; lia.
Qed.

(** What the code hands to the callback when the ordinals have a gap: the
    difference of the two ordinals. *)
Lemma report_drop_gap (s L n : Z) (w : World.t) (callback : Callback) :
  let k := MessageSlot.ordinal (CCB.slot n (World.ccb w)) in
  L <> -1 -> k <> L + 1 ->
  - 2 ^ 63 <= L + 1 < 2 ^ 63 -> - 2 ^ 63 <= k - L < 2 ^ 63 ->
  World.dropped_message_callbacks_ w !! s = Some callback ->
  report_drop s L n w = add_event (EvDroppedMessages callback s (k - L)) w.
Proof.
  intros k HL Hk R1 R2 Hcb. unfold report_drop. fold k.
  rewrite (wrap_int64_small _ R1), (wrap_int64_small _ R2), Hcb.
  rewrite (proj2 (Z.eqb_neq L (-1)) HL), (proj2 (Z.eqb_neq k (L + 1)) Hk).
  reflexivity.
Qed.

(** Without a gap, or for the first slot a subscriber reads, nobody is
    called. *)
Lemma report_drop_in_order (s L n : Z) (w : World.t) :
  L = -1 \/ MessageSlot.ordinal (CCB.slot n (World.ccb w)) = wrap_int64 (L + 1) ->
  report_drop s L n w = w.
Proof.
  intros [->|H]; unfold report_drop; [reflexivity|].
  rewrite H, Z.eqb_refl, andb_false_r. reflexivity.
Qed.

(** C1: a subscriber with a registered callback that saw ordinal 1 and
    whose next slot carries ordinal 5 (ordinals 2, 3 and 4 were dropped):
    the read returns the message with ordinal 5 and the callback is called
    exactly once, with 4, the difference of the two ordinals, and not with
    the number of dropped messages, 3. *)
Theorem ReadMessage_drop_callback_count :
  GetCurrentOrdinal 200 Scenario.dropped_world = 1
  /\ exists w',
       ReadMessage 1 200 kReadNext Scenario.dropped_world
       = Some (Ok (Message_of 2 4224 5 1000), w')
       /\ GetCurrentOrdinal 200 w' = 5
       /\ World.trace w'
          = World.trace Scenario.dropped_world
            ++ [EvClearPollFd 200; EvDroppedMessages 77 200 4].
Proof.
  split; [reflexivity|].
  exists (snd (take_slot 200 kReadNext true Scenario.dropped_world)).
  repeat split; vm_compute; reflexivity.
Qed.

(** The same from the start of Scenario D: the subscriber reads the first
    message, the publisher sends four more into the three-slot ring, and
    the subscriber's next read jumps four ordinals ahead, over the three
    messages it will never see; the callback is handed 4. *)
Lemma dropped_messages_end_to_end :
  let w1 := Scenario.read (Scenario.publish Scenario.drop_start) in
  let w2 :=
    Scenario.read
      (Scenario.publish
         (Scenario.publish (Scenario.publish (Scenario.publish (snd w1))))) in
  fst w1 = Some (Message_of 2 4128 2 1000)
  /\ fst w2 = Some (Message_of 2 4320 6 1000)
  /\ dropped_message_calls (World.trace (snd w2))
     = [EvDroppedMessages 77 200 4].
Proof.
  cbn zeta. split; [vm_compute; reflexivity|].
  split; [vm_compute; reflexivity|].
  vm_compute. reflexivity.
Qed.

(** * channel.h: alignment, buffer addresses and the slot lists *)

(** ** Alignment and buffer addressing (channel.h) *)

Lemma Aligned_align_up (k v : Z) :
  0 <= k -> Aligned (2 ^ k) v = align_up v (2 ^ k).
Proof.
  intros Hk. unfold Aligned, align_up.
  replace (2 ^ k - 1) with (Z.ones k) by (rewrite Z.ones_equiv; lia).
  rewrite <- Z.ldiff_land, Z.ldiff_ones_r by exact Hk.
  rewrite Z.shiftr_div_pow2, Z.shiftl_mul_pow2 by exact Hk. reflexivity.
Qed.

Lemma align_up_bounds (v a : Z) :
  0 < a ->
  align_up v a mod a = 0
  /\ v <= align_up v a < v + a
  /\ (v mod a = 0 -> align_up v a = v).
Proof.
  intros Hp. unfold align_up.
  pose proof (Z.div_mod (v + (a - 1)) a ltac:(lia)) as D.
  pose proof (Z.mod_pos_bound (v + (a - 1)) a Hp) as B.
  split; [apply Z.mod_mul; lia|]. split; [nia|].
  intros Hm.
  assert (E : (v + (a - 1)) / a = v / a).
  { pose proof (Z.div_mod v a ltac:(lia)) as Dv. rewrite Hm in Dv.
    symmetry. apply (Z.div_unique (v + (a - 1)) a (v / a) (a - 1)); lia. }
  rewrite E. pose proof (Z.div_mod v a ltac:(lia)). lia.
Qed.

Lemma Aligned_int64_fits (a v : Z) :
  is_int64 (v + (a - 1)) -> Aligned_int64 a v = Aligned a v.
Proof.
  intros H. unfold Aligned_int64, Aligned.
  rewrite (wrap_int64_small _ H). reflexivity.
Qed.

(** An aligned value below [2 ^ 63] leaves room for the alignment. *)
Lemma multiple_below (k r : Z) :
  0 <= k < 63 -> r mod 2 ^ k = 0 -> r < 2 ^ 63 -> r + (2 ^ k - 1) < 2 ^ 63.
Proof.
  intros Hk Hm Hr.
  assert (Hp : 0 < 2 ^ k) by (apply Z.pow_pos_nonneg; lia).
  apply Z.mod_divide in Hm; [|lia]. destruct Hm as [q ->].
  replace (2 ^ 63) with (2 ^ (63 - k) * 2 ^ k) in *
    by (rewrite <- Z.pow_add_r by lia; f_equal; lia).
  assert (q < 2 ^ (63 - k)) by nia. nia.
Qed.

(** Past the largest value whose sum fits, 64-bit wrap-around makes the
    result negative: the value is no longer rounded up. *)
Lemma Aligned_int64_wraps : Aligned_int64 32 (2 ^ 63 - 1) = - 2 ^ 63.
Proof. reflexivity. Qed.

(** X1: [Aligned], channel.h, on [int64_t]: for a power-of-two alignment
    [2 ^ k] that is an [int64_t] (k < 63) and a value [v] whose sum with
    [2 ^ k - 1] does not exceed the largest [int64_t], the 64-bit
    computation is [Aligned], and its result is an [int64_t], a multiple of
    the alignment, the least one that is not below the value (it exceeds it
    by less than the alignment), the value itself when that is aligned, and
    aligning twice is aligning once. *)
Theorem Aligned_rounds_up (k v : Z) :
  0 <= k < 63 -> is_int64 v -> v + (2 ^ k - 1) < 2 ^ 63 ->
  Aligned_int64 (2 ^ k) v = Aligned (2 ^ k) v
  /\ is_int64 (Aligned_int64 (2 ^ k) v)
  /\ Aligned_int64 (2 ^ k) v mod 2 ^ k = 0
  /\ v <= Aligned_int64 (2 ^ k) v < v + 2 ^ k
  /\ (v mod 2 ^ k = 0 -> Aligned_int64 (2 ^ k) v = v)
  /\ Aligned_int64 (2 ^ k) (Aligned_int64 (2 ^ k) v) = Aligned_int64 (2 ^ k) v.
Proof.
  intros Hk Hv Hs. assert (Hp : 0 < 2 ^ k) by (apply Z.pow_pos_nonneg; lia).
  assert (E : Aligned_int64 (2 ^ k) v = align_up v (2 ^ k)).
  { rewrite Aligned_int64_fits by (unfold is_int64 in *; lia).
    apply Aligned_align_up. lia. }
  destruct (align_up_bounds v (2 ^ k) Hp) as (Hm & Hb & Hi).
  rewrite E. split; [symmetry; apply Aligned_align_up; lia|].
  split; [unfold is_int64 in *; lia|].
  split; [exact Hm|]. split; [exact Hb|]. split; [exact Hi|].
  pose proof (multiple_below k (align_up v (2 ^ k)) Hk Hm ltac:(lia)) as Hr.
  rewrite Aligned_int64_fits by (unfold is_int64 in *; lia).
  rewrite Aligned_align_up by lia.
  apply (align_up_bounds (align_up v (2 ^ k)) (2 ^ k) Hp). exact Hm.
Qed.

Lemma Aligned_rounds_up_witness :
  Aligned_int64 32 65 = Aligned 32 65
  /\ is_int64 (Aligned_int64 32 65)
  /\ Aligned_int64 32 65 mod 32 = 0
  /\ 65 <= Aligned_int64 32 65 < 65 + 32
  /\ (65 mod 32 = 0 -> Aligned_int64 32 65 = 65)
  /\ Aligned_int64 32 (Aligned_int64 32 65) = Aligned_int64 32 65.
Proof.
  apply (Aligned_rounds_up 5 65); [lia | unfold is_int64; lia | lia].
Defined.

(** X2: [Channel::GetBufferAddress], [Channel::Prefix]: the buffer of a
    slot starts right after its 32-byte prefix; the buffers of two slots do
    not overlap, the later prefix starting at or after the end of the
    earlier buffer; slot 0 starts at the base; [n] slots fit in [n] strides;
    and every buffer is 32-byte aligned with respect to the base. *)
Theorem buffer_slots_laid_out (ch : Channel.t) (i j n : Z) (slot : MessageSlot.t) :
  0 <= Channel.slot_size_ ch ->
  0 <= i < j -> j < n ->
  Channel.Prefix ch slot + sizeof_MessagePrefix
  = Channel.GetBufferAddress ch (MessageSlot.id slot)
  /\ Channel.GetBufferAddress ch i + Channel.slot_size_ ch
     <= Channel.GetBufferAddress ch j - sizeof_MessagePrefix
  /\ Channel.buffers_ ch + sizeof_MessagePrefix = Channel.GetBufferAddress ch 0
  /\ Channel.GetBufferAddress ch j + Channel.slot_size_ ch
     <= Channel.buffers_ ch + n * buffer_stride ch
  /\ (Channel.GetBufferAddress ch j - Channel.buffers_ ch) mod 32 = 0.
Proof.
  intros Hs Hij Hn. unfold Channel.Prefix, Channel.GetBufferAddress, buffer_stride.
  assert (Hm : Aligned 32 (Channel.slot_size_ ch) mod 32 = 0
               /\ Channel.slot_size_ ch <= Aligned 32 (Channel.slot_size_ ch)).
  { change 32 with (2 ^ 5) at 1 3. rewrite (Aligned_align_up 5) by lia.
    destruct (align_up_bounds (Channel.slot_size_ ch) (2 ^ 5) ltac:(lia))
      as (A & B & _). split; [exact A|lia]. }
  destruct Hm as [Hm Hb]. change sizeof_MessagePrefix with 32.
  set (a := Aligned 32 (Channel.slot_size_ ch)) in *.
  split; [lia|]. split; [nia|]. split; [lia|]. split; [nia|].
  apply Z.mod_divide in Hm; [|lia]. destruct Hm as [q Hq].
  replace (Channel.buffers_ ch + (32 + a) * j + 32 - Channel.buffers_ ch)
    with ((j + q * j + 1) * 32) by lia.
  apply Z.mod_mul. lia.
Qed.

Lemma buffer_slots_laid_out_witness :
  Channel.Prefix odd_channel second_slot + sizeof_MessagePrefix
    = Channel.GetBufferAddress odd_channel (MessageSlot.id second_slot)
  /\ Channel.GetBufferAddress odd_channel 1 + Channel.slot_size_ odd_channel
       <= Channel.GetBufferAddress odd_channel 2 - sizeof_MessagePrefix
  /\ Channel.buffers_ odd_channel + sizeof_MessagePrefix
       = Channel.GetBufferAddress odd_channel 0
  /\ Channel.GetBufferAddress odd_channel 2 + Channel.slot_size_ odd_channel
       <= Channel.buffers_ odd_channel + 3 * buffer_stride odd_channel
  /\ (Channel.GetBufferAddress odd_channel 2 - Channel.buffers_ odd_channel) mod 32 = 0.
Proof.
  apply (buffer_slots_laid_out odd_channel 1 2 3 second_slot).
  - vm_compute. discriminate.
  - lia.
  - lia.
Defined.

(** ** The links of the slot lists *)

Lemma slot_prev_update (p q : Z) (f : MessageSlot.t -> MessageSlot.t) (c : CCB.t) :
  slot_prev q (CCB.update p f c)
  = if decide (p = q)
    then SlotListElement.prev (MessageSlot.element (f (CCB.slot q c)))
    else slot_prev q c.
Proof.
  unfold slot_prev. destruct (decide (p = q)) as [->|Hne].
  - rewrite slot_update_eq. reflexivity.
  - rewrite slot_update_ne by exact Hne. reflexivity.
Qed.

Lemma slot_next_update' (p q : Z) (f : MessageSlot.t -> MessageSlot.t) (c : CCB.t) :
  slot_next q (CCB.update p f c)
  = if decide (p = q)
    then SlotListElement.next (MessageSlot.element (f (CCB.slot q c)))
    else slot_next q c.
Proof.
  unfold slot_next. destruct (decide (p = q)) as [->|Hne].
  - rewrite slot_update_eq. reflexivity.
  - rewrite slot_update_ne by exact Hne. reflexivity.
Qed.

Lemma slot_prev_with_list q l h c : slot_prev q (CCB.with_list l h c) = slot_prev q c.
Proof. destruct l; reflexivity. Qed.

Lemma slot_next_with_list q l h c : slot_next q (CCB.with_list l h c) = slot_next q c.
Proof. destruct l; reflexivity. Qed.

Lemma list_of_with_list_ne l l' h c :
  l <> l' -> CCB.list_of l' (CCB.with_list l h c) = CCB.list_of l' c.
Proof. destruct l, l'; intros H; try reflexivity; contradiction. Qed.

Lemma next_set_next v s :
  SlotListElement.next (MessageSlot.element (set_next v s)) = v.
Proof. reflexivity. Qed.

Lemma next_set_prev v s :
  SlotListElement.next (MessageSlot.element (set_prev v s))
  = SlotListElement.next (MessageSlot.element s).
Proof. reflexivity. Qed.

Lemma prev_set_prev v s :
  SlotListElement.prev (MessageSlot.element (set_prev v s)) = v.
Proof. reflexivity. Qed.

Lemma prev_set_next v s :
  SlotListElement.prev (MessageSlot.element (set_next v s))
  = SlotListElement.prev (MessageSlot.element s).
Proof. reflexivity. Qed.

Lemma next_of_slot q c :
  SlotListElement.next (MessageSlot.element (CCB.slot q c)) = slot_next q c.
Proof. reflexivity. Qed.

Lemma prev_of_slot q c :
  SlotListElement.prev (MessageSlot.element (CCB.slot q c)) = slot_prev q c.
Proof. reflexivity. Qed.

Create Rewrite HintDb links.
#[local] Hint Rewrite slot_next_with_list slot_prev_with_list slot_next_update'
  slot_prev_update next_set_next next_set_prev prev_set_prev prev_set_next
  next_of_slot prev_of_slot list_of_update list_of_with_list : links.

Ltac links :=
  autorewrite with links;
  repeat case_decide; try solve [intuition congruence].

Ltac frame_lists :=
  let l' := fresh "l'" in
  let Hl := fresh "Hl" in
  intros l' Hl;
  rewrite ?list_of_update, ?list_of_with_list_ne by congruence;
  rewrite ?list_of_update, ?list_of_with_list_ne by congruence;
  reflexivity.

Ltac four_links :=
  split; [intros ?; links | split; [intros ?; links | split; [links; try (destruct (CCB.list_of _ _); reflexivity) | frame_lists]]].

(** What [ListInsertAtEnd] does to the links and to the headers. *)
Lemma ListInsertAtEnd_links (L : ListId) (e : Z) (c : CCB.t) :
  let t := SlotList.last (CCB.list_of L c) in
  let c' := ListInsertAtEnd L e c in
  (forall q, slot_next q c' = if decide (t <> 0 /\ q = t) then e else slot_next q c)
  /\ (forall q, slot_prev q c' = if decide (t <> 0 /\ q = e) then t else slot_prev q c)
  /\ CCB.list_of L c'
     = SlotList.mk (if decide (t = 0) then e else SlotList.first (CCB.list_of L c)) e
  /\ (forall l', l' <> L -> CCB.list_of l' c' = CCB.list_of l' c).
Proof.
  cbn zeta. unfold ListInsertAtEnd, ToCCBOffset, FromCCBOffset.
  set (t := SlotList.last (CCB.list_of L c)).
  destruct (Z.eqb_spec t 0) as [E|E].
  - four_links.
  - rewrite !list_of_update. fold t. four_links.
Qed.

(** What [ListRemove] does to the links and to the headers. *)
Lemma ListRemove_links (L : ListId) (e : Z) (c : CCB.t) :
  let a := slot_prev e c in
  let b := slot_next e c in
  let c' := ListRemove L e c in
  (forall q, slot_next q c'
             = if decide (q = e) then 0
               else if decide (a <> 0 /\ q = a) then b else slot_next q c)
  /\ (forall q, slot_prev q c'
                = if decide (q = e) then 0
                  else if decide (b <> 0 /\ q = b) then a else slot_prev q c)
  /\ CCB.list_of L c'
     = SlotList.mk (if decide (a = 0) then b else SlotList.first (CCB.list_of L c))
                   (if decide (b = 0) then a else SlotList.last (CCB.list_of L c))
  /\ (forall l', l' <> L -> CCB.list_of l' c' = CCB.list_of l' c).
Proof.
  cbn zeta. unfold ListRemove, FromCCBOffset.
  set (a := slot_prev e c). set (b := slot_next e c).
  destruct (Z.eqb_spec a 0) as [Ea|Ea].
  - rewrite slot_next_with_list, slot_prev_with_list. fold a b.
    destruct (Z.eqb_spec b 0) as [Eb|Eb]; four_links.
  - assert (Eb' : slot_next e (CCB.update a (set_next b) c) = b).
    { subst b. links. }
    assert (Ea' : slot_prev e (CCB.update a (set_next b) c) = a).
    { subst a. links. }
    rewrite Eb', Ea'.
    destruct (Z.eqb_spec b 0) as [Eb|Eb]; four_links.
Qed.

(** ** Lists of slots *)

Lemma slot_at_app_l (l1 l2 : list Z) (i : nat) :
  (i < length l1)%nat -> slot_at (l1 ++ l2) i = slot_at l1 i.
Proof. intros H. unfold slot_at. rewrite lookup_app_l by exact H. reflexivity. Qed.

Lemma slot_at_app_r (l1 l2 : list Z) (i : nat) :
  (length l1 <= i)%nat -> slot_at (l1 ++ l2) i = slot_at l2 (i - length l1).
Proof. intros H. unfold slot_at. rewrite lookup_app_r by exact H. reflexivity. Qed.

Lemma slot_at_ge (l : list Z) (i : nat) : (length l <= i)%nat -> slot_at l i = 0.
Proof. intros H. unfold slot_at. rewrite lookup_ge_None_2 by exact H. reflexivity. Qed.

Lemma slot_at_lookup (l : list Z) (i : nat) (p : Z) :
  l !! i = Some p -> slot_at l i = p.
Proof. intros H. unfold slot_at. rewrite H. reflexivity. Qed.

Lemma slot_at_Some (l : list Z) (i : nat) :
  (i < length l)%nat -> l !! i = Some (slot_at l i).
Proof.
  intros H. unfold slot_at. destruct (l !! i) eqn:E; [reflexivity|].
  apply lookup_ge_None in E. lia.
Qed.

Lemma slot_at_nonzero (l : list Z) (i : nat) :
  slot_at l i <> 0 -> l !! i = Some (slot_at l i).
Proof.
  unfold slot_at. destruct (l !! i) eqn:E; cbn; [reflexivity|congruence].
Qed.

Lemma linked_nonzero (c : CCB.t) (l : list Z) (p : Z) :
  linked c l -> p ∈ l -> p <> 0.
Proof.
  intros H Hin. apply list_elem_of_lookup in Hin as [i Hi].
  exact (proj1 (H i p Hi)).
Qed.

Lemma last_slot_at (l : list Z) :
  default 0 (last l) = match length l with O => 0 | S n => slot_at l n end.
Proof.
  rewrite last_lookup. unfold slot_at. destruct l as [|x l']; reflexivity.
Qed.

Lemma holds_list_empty_iff (L : ListId) (l : list Z) (c : CCB.t) :
  holds_list L l c ->
  (SlotList.last (CCB.list_of L c) = 0 <-> l = [])
  /\ (SlotList.first (CCB.list_of L c) = 0 <-> l = []).
Proof.
  intros (Hf & Hl & Hk & _). rewrite Hf, Hl. split; split.
  - destruct (last l) as [x|] eqn:E; cbn.
    + intros ->. exfalso. apply (linked_nonzero c l 0 Hk); [|reflexivity].
      rewrite last_lookup in E. apply list_elem_of_lookup. eauto.
    + intros _. apply last_None. exact E.
  - intros ->. reflexivity.
  - destruct l as [|x l]; [reflexivity|]. cbn. intros ->.
    exfalso. apply (linked_nonzero c (0 :: l) 0 Hk); [|reflexivity]. left.
  - intros ->. reflexivity.
Qed.

(** ** The lists of the scenarios *)

Ltac concrete_list :=
  split; [reflexivity|split; [reflexivity|split;
    [intros i p Hi;
     repeat (destruct i as [|i];
             [injection Hi as <-; split; [discriminate|split; reflexivity]|]);
     discriminate
    |apply (bool_decide_unpack _); vm_compute; reflexivity]]].

Lemma fresh_free_list :
  holds_list free_list [160; 320; 480] (Scenario.fresh_ccb "chan" 64 3).
Proof. concrete_list. Qed.

Lemma in_use_active_list o1 o2 :
  holds_list active_list [160; 320] (Scenario.ccb_in_use o1 o2).
Proof. concrete_list. Qed.

Lemma in_use_busy_list o1 o2 :
  holds_list busy_list [480] (Scenario.ccb_in_use o1 o2).
Proof. concrete_list. Qed.

(** ** Inserting at the end *)

Lemma insert_at_end_holds (L : ListId) (l : list Z) (e : Z) (c : CCB.t) :
  holds_list L l c ->
  e <> 0 -> e ∉ l ->
  slot_next e c = 0 -> (l = [] -> slot_prev e c = 0) ->
  holds_list L (l ++ [e]) (ListInsertAtEnd L e c).
Proof.
  intros H He Hnin Hnext Hprev.
  destruct (holds_list_empty_iff L l c H) as [Hempty _].
  destruct H as (Hf & Hl & Hk & Hn).
  destruct (ListInsertAtEnd_links L e c) as (Ln & Lp & Lh & _).
  set (t := SlotList.last (CCB.list_of L c)) in *.
  assert (Ht : forall n, length l = S n -> slot_at l n = t).
  { intros n Hlen. subst t. rewrite Hl, last_slot_at, Hlen. reflexivity. }
  unfold holds_list. rewrite Lh. cbn [SlotList.first SlotList.last].
  split; [|split; [|split]].
  - destruct l as [|x l'].
    + destruct (decide (t = 0)) as [_|N]; [reflexivity|]. tauto.
    + destruct (decide (t = 0)) as [E|_]; [apply Hempty in E; discriminate|].
      rewrite Hf. reflexivity.
  - rewrite last_snoc. reflexivity.
  - intros i p Hi. apply lookup_app_Some in Hi as [Hi|[Hge Hi]].
    + destruct (Hk i p Hi) as (Hp0 & Hpp & Hpn).
      pose proof (lookup_lt_Some _ _ _ Hi) as Hlt.
      assert (Hpe : p <> e).
      { intros ->. apply Hnin. apply list_elem_of_lookup. eauto. }
      split; [exact Hp0|]. split.
      * rewrite Lp. destruct (decide (t <> 0 /\ p = e)) as [[_ ?]|_]; [contradiction|].
        rewrite Hpp. destruct i as [|j]; [reflexivity|].
        rewrite slot_at_app_l by lia. reflexivity.
      * rewrite Ln. destruct (decide (S i = length l)) as [Elen|Nlen].
        -- assert (p = t).
           { rewrite <- (Ht i) by lia. symmetry. apply slot_at_lookup. exact Hi. }
           subst p. destruct (decide (t <> 0 /\ t = t)) as [_|N]; [|tauto].
           rewrite slot_at_app_r by lia. rewrite Elen, Nat.sub_diag. reflexivity.
        -- destruct (decide (t <> 0 /\ p = t)) as [[_ ->]|_].
           ++ exfalso. destruct (length l) as [|n] eqn:Hlen; [lia|].
              assert (l !! n = Some t).
              { specialize (Ht n eq_refl). unfold slot_at in Ht.
                destruct (l !! n) eqn:E; cbn in Ht; [congruence|].
                apply lookup_ge_None in E. lia. }
              assert (i = n) by (eapply NoDup_lookup; eauto). lia.
           ++ rewrite Hpn, slot_at_app_l by lia. reflexivity.
    + destruct (i - length l)%nat as [|k] eqn:Ek; [|discriminate].
      injection Hi as <-. assert (i = length l) by lia. subst i.
      split; [exact He|]. split.
      * rewrite Lp. destruct l as [|x l'] eqn:El.
        -- destruct (decide (t <> 0 /\ e = e)) as [[N _]|_].
           ++ exfalso. apply N. apply Hempty. reflexivity.
           ++ cbn. auto.
        -- destruct (decide (t <> 0 /\ e = e)) as [_|N].
           ++ cbn [length]. rewrite slot_at_app_l by (cbn; lia).
              symmetry. apply Ht. reflexivity.
           ++ exfalso. apply N. split; [|reflexivity].
              intros E. apply Hempty in E. discriminate.
      * rewrite Ln. destruct (decide (t <> 0 /\ e = t)) as [[N E]|_].
        -- exfalso. apply Hnin. destruct (length l) as [|n] eqn:Hlen.
           ++ exfalso. apply N, Hempty. destruct l; [reflexivity|discriminate].
           ++ specialize (Ht n eq_refl). unfold slot_at in Ht.
              destruct (l !! n) eqn:E'; cbn in Ht.
              ** apply list_elem_of_lookup. exists n. congruence.
              ** congruence.
        -- rewrite Hnext. symmetry. apply slot_at_ge. rewrite length_app. cbn. lia.
  - apply NoDup_app. split; [exact Hn|]. split; [|apply NoDup_singleton].
    intros x Hx Hx'. apply list_elem_of_singleton in Hx'. subst x. contradiction.
Qed.

(** X3: [Channel::ListInsertAtEnd]: putting an unlinked slot at the end of
    a well-formed list gives the well-formed list with the slot appended:
    the header's [last] is the slot, [first] is unchanged unless the list
    was empty, the slot's [prev] is the old last slot, its [next] is 0, and
    the headers of the other lists are untouched. *)
Theorem ListInsertAtEnd_appends (L : ListId) (l : list Z) (e : Z) (c : CCB.t) :
  holds_list L l c ->
  e <> 0 -> e ∉ l ->
  slot_next e c = 0 -> (l = [] -> slot_prev e c = 0) ->
  let c' := ListInsertAtEnd L e c in
  holds_list L (l ++ [e]) c'
  /\ SlotList.last (CCB.list_of L c') = e
  /\ SlotList.first (CCB.list_of L c') = default e (head l)
  /\ slot_next e c' = 0
  /\ slot_prev e c' = default 0 (last l)
  /\ (forall L', L' <> L -> CCB.list_of L' c' = CCB.list_of L' c).
Proof.
  intros H He Hnin Hnext Hprev c'.
  pose proof (insert_at_end_holds L l e c H He Hnin Hnext Hprev) as H'.
  fold c' in H'. destruct (ListInsertAtEnd_links L e c) as (_ & _ & _ & Lo).
  destruct H' as (Hf & Hl & Hk & Hn).
  assert (Hat : (l ++ [e]) !! length l = Some e).
  { rewrite lookup_app_r by lia. rewrite Nat.sub_diag. reflexivity. }
  destruct (Hk _ _ Hat) as (_ & Hp & Hx).
  split; [exact (conj Hf (conj Hl (conj Hk Hn)))|].
  split; [rewrite Hl, last_snoc; reflexivity|].
  split; [rewrite Hf; unfold slot_at; destruct l; reflexivity|].
  split; [rewrite Hx; apply slot_at_ge; rewrite length_app; cbn; lia|].
  split; [|exact Lo].
  rewrite Hp, last_slot_at. destruct (length l) as [|n] eqn:E; [reflexivity|].
  apply slot_at_app_l. lia.
Qed.

Lemma ListInsertAtEnd_appends_witness :
  holds_list active_list ([160; 320] ++ [480])
    (ListInsertAtEnd active_list 480 (Scenario.ccb_in_use 1 5))
  /\ SlotList.last
       (CCB.list_of active_list
          (ListInsertAtEnd active_list 480 (Scenario.ccb_in_use 1 5))) = 480
  /\ SlotList.first
       (CCB.list_of active_list
          (ListInsertAtEnd active_list 480 (Scenario.ccb_in_use 1 5)))
     = default 480 (head [160; 320])
  /\ slot_next 480 (ListInsertAtEnd active_list 480 (Scenario.ccb_in_use 1 5)) = 0
  /\ slot_prev 480 (ListInsertAtEnd active_list 480 (Scenario.ccb_in_use 1 5))
     = default 0 (last [160; 320])
  /\ (forall L', L' <> active_list ->
        CCB.list_of L'
          (ListInsertAtEnd active_list 480 (Scenario.ccb_in_use 1 5))
        = CCB.list_of L' (Scenario.ccb_in_use 1 5)).
Proof.
  apply (ListInsertAtEnd_appends active_list [160; 320] 480
           (Scenario.ccb_in_use 1 5)).
  - apply in_use_active_list.
  - discriminate.
  - apply (bool_decide_unpack _). vm_compute. reflexivity.
  - reflexivity.
  - discriminate.
Defined.

(** ** Removing *)

Lemma remove_holds (L : ListId) (l1 l2 : list Z) (e : Z) (c : CCB.t) :
  holds_list L (l1 ++ e :: l2) c ->
  holds_list L (l1 ++ l2) (ListRemove L e c)
  /\ slot_prev e (ListRemove L e c) = 0
  /\ slot_next e (ListRemove L e c) = 0.
Proof.
  intros (Hf & Hl & Hk & Hn).
  destruct (ListRemove_links L e c) as (Ln & Lp & Lh & _).
  set (l := l1 ++ e :: l2) in *.
  assert (Hlen : length l = (length l1 + S (length l2))%nat).
  { subst l. rewrite length_app. reflexivity. }
  assert (Hat : l !! length l1 = Some e).
  { subst l. rewrite lookup_app_r by lia. rewrite Nat.sub_diag. reflexivity. }
  assert (Hinj : forall i j p, l !! i = Some p -> l !! j = Some p -> i = j).
  { intros i j p. apply NoDup_lookup. exact Hn. }
  assert (Hnz : forall i, (i < length l)%nat -> slot_at l i <> 0).
  { intros i Hi. apply (linked_nonzero c l); [exact Hk|].
    apply list_elem_of_lookup. exists i. apply slot_at_Some. exact Hi. }
  destruct (Hk _ _ Hat) as (He & Ha & Hb).
  set (a := slot_prev e c) in *. set (b := slot_next e c) in *.
  assert (Hl1 : forall i, (i < length l1)%nat -> slot_at l i = slot_at l1 i).
  { intros i Hi. subst l. apply slot_at_app_l. exact Hi. }
  assert (Hl2 : forall i, slot_at l (S (length l1 + i)) = slot_at l2 i).
  { intros i. subst l. rewrite slot_at_app_r by lia.
    replace (S (length l1 + i) - length l1)%nat with (S i) by lia. reflexivity. }
  assert (Hj1 : forall i, (i < length l1)%nat -> slot_at (l1 ++ l2) i = slot_at l i).
  { intros i Hi. rewrite slot_at_app_l, Hl1 by lia. reflexivity. }
  assert (Hj2 : forall i, slot_at (l1 ++ l2) (length l1 + i) = slot_at l (S (length l1 + i))).
  { intros i. rewrite slot_at_app_r, Hl2 by lia. f_equal. lia. }
  assert (Ha0 : a = 0 <-> length l1 = 0%nat).
  { rewrite Ha. destruct (length l1) as [|j] eqn:E; [tauto|].
    split; [|discriminate]. intros E0. exfalso. apply (Hnz j); [lia|exact E0]. }
  assert (Hb0 : b = 0 <-> length l2 = 0%nat).
  { rewrite Hb. split; intros E.
    - destruct (length l2) eqn:E2; [reflexivity|].
      exfalso. apply (Hnz (S (length l1))); [lia|exact E].
    - apply slot_at_ge. lia. }
  unfold holds_list. rewrite Lh. cbn [SlotList.first SlotList.last].
  split; [split; [|split; [|split]]|split].
  - destruct (decide (a = 0)) as [E|N].
    + apply Ha0 in E. destruct l1; [|discriminate]. cbn.
      rewrite Hb. reflexivity.
    + rewrite Hf. symmetry. apply Hj1. lia.
  - rewrite !last_slot_at, length_app. destruct (decide (b = 0)) as [E|N].
    + apply Hb0 in E. rewrite E, Nat.add_0_r. rewrite Ha.
      destruct (length l1) as [|j] eqn:E1; [reflexivity|].
      rewrite slot_at_app_l by lia. apply Hl1. lia.
    + rewrite Hl, last_slot_at, Hlen.
      destruct (length l2) as [|k] eqn:E2; [exfalso; apply N, Hb0; reflexivity|].
      replace (length l1 + S (S k))%nat with (S (S (length l1 + k))) by lia.
      replace (length l1 + S k)%nat with (S (length l1 + k)) by lia.
      rewrite Hj2. reflexivity.
  - intros i p Hi.
    assert (Hlt : (i < length l1 + length l2)%nat).
    { apply lookup_lt_Some in Hi. rewrite length_app in Hi. exact Hi. }
    destruct (decide (i < length l1)%nat) as [Hi1|Hi1].
    + assert (Hp : l !! i = Some p).
      { subst l. rewrite lookup_app_l by lia. rewrite lookup_app_l in Hi by lia. exact Hi. }
      destruct (Hk _ _ Hp) as (Hp0 & Hpp & Hpn).
      assert (Hpe : p <> e).
      { intros ->. specialize (Hinj _ _ _ Hp Hat). lia. }
      split; [exact Hp0|]. split.
      * rewrite Lp. destruct (decide (p = e)) as [?|_]; [contradiction|].
        destruct (decide (b <> 0 /\ p = b)) as [[Nb ->]|_].
        -- exfalso. rewrite Hb in Hp, Nb. apply slot_at_nonzero in Nb.
           specialize (Hinj _ _ _ Hp Nb). lia.
        -- rewrite Hpp. destruct i as [|j]; [reflexivity|].
           symmetry. apply Hj1. lia.
      * rewrite Ln. destruct (decide (p = e)) as [?|_]; [contradiction|].
        destruct (decide (S i = length l1)) as [E|N].
        -- assert (p = a).
           { rewrite Ha, <- E. symmetry. apply slot_at_lookup. exact Hp. }
           subst p. destruct (decide (a <> 0 /\ a = a)) as [_|N]; [|tauto].
           rewrite Hb. replace (S i) with (length l1 + 0)%nat by lia.
           rewrite Hj2. f_equal. lia.
        -- destruct (decide (a <> 0 /\ p = a)) as [[Na ->]|_].
           ++ exfalso. rewrite Ha in Hp, Na.
              destruct (length l1) as [|j] eqn:E1; [congruence|].
              apply slot_at_nonzero in Na. specialize (Hinj _ _ _ Hp Na). lia.
           ++ rewrite Hpn. symmetry. apply Hj1. lia.
    + assert (Hp : l !! S i = Some p).
      { subst l. rewrite lookup_app_r by lia. rewrite lookup_app_r in Hi by lia.
        replace (S i - length l1)%nat with (S (i - length l1)) by lia. exact Hi. }
      destruct (Hk _ _ Hp) as (Hp0 & Hpp & Hpn).
      assert (Hpe : p <> e).
      { intros ->. specialize (Hinj _ _ _ Hp Hat). lia. }
      split; [exact Hp0|]. split.
      * rewrite Lp. destruct (decide (p = e)) as [?|_]; [contradiction|].
        destruct (decide (i = length l1)) as [E|N].
        -- assert (p = b).
           { rewrite Hb, <- E. symmetry. apply slot_at_lookup. exact Hp. }
           subst p. destruct (decide (b <> 0 /\ b = b)) as [_|N]; [|tauto].
           rewrite Ha, <- E. destruct i as [|j]; [reflexivity|].
           symmetry. apply Hj1. lia.
        -- destruct (decide (b <> 0 /\ p = b)) as [[Nb ->]|_].
           ++ exfalso. rewrite Hb in Hp, Nb. apply slot_at_nonzero in Nb.
              specialize (Hinj _ _ _ Hp Nb). lia.
           ++ rewrite Hpp. destruct i as [|j]; [lia|].
              replace (slot_at (l1 ++ l2) j)
                with (slot_at (l1 ++ l2) (length l1 + (j - length l1))) by (f_equal; lia).
              rewrite Hj2. f_equal. lia.
      * rewrite Ln. destruct (decide (p = e)) as [?|_]; [contradiction|].
        destruct (decide (a <> 0 /\ p = a)) as [[Na ->]|_].
        -- exfalso. rewrite Ha in Hp, Na.
           destruct (length l1) as [|j] eqn:E1; [congruence|].
           apply slot_at_nonzero in Na. specialize (Hinj _ _ _ Hp Na). lia.
        -- rewrite Hpn.
           replace (slot_at (l1 ++ l2) (S i))
             with (slot_at (l1 ++ l2) (length l1 + (S i - length l1))) by (f_equal; lia).
           rewrite Hj2. f_equal. lia.
  - subst l. apply NoDup_app in Hn as (H1 & H2 & H3).
    apply NoDup_cons in H3 as [H3 H4].
    apply NoDup_app. split; [exact H1|]. split; [|exact H4].
    intros x Hx Hx'. apply (H2 x Hx). right. exact Hx'.
  - rewrite Lp. destruct (decide (e = e)); [reflexivity|congruence].
  - rewrite Ln. destruct (decide (e = e)); [reflexivity|congruence].
Qed.

(** X4: [Channel::ListRemove]: removing a slot from anywhere in a
    well-formed list leaves the well-formed list of the other slots in
    their order, clears both links of the removed slot, keeps the header
    in step with the remaining slots and leaves the other lists' headers
    alone. *)
Theorem ListRemove_removes (L : ListId) (l1 l2 : list Z) (e : Z) (c : CCB.t) :
  holds_list L (l1 ++ e :: l2) c ->
  let c' := ListRemove L e c in
  holds_list L (l1 ++ l2) c'
  /\ (e ∉ l1 ++ l2)
  /\ slot_prev e c' = 0 /\ slot_next e c' = 0
  /\ SlotList.first (CCB.list_of L c') = default 0 (head (l1 ++ l2))
  /\ SlotList.last (CCB.list_of L c') = default 0 (last (l1 ++ l2))
  /\ (forall L', L' <> L -> CCB.list_of L' c' = CCB.list_of L' c).
Proof.
  intros H c'. destruct (remove_holds L l1 l2 e c H) as (H' & Hp & Hn).
  fold c' in H', Hp, Hn.
  destruct (ListRemove_links L e c) as (_ & _ & _ & Lo).
  split; [exact H'|]. split.
  { destruct H as (_ & _ & _ & Hd).
    apply NoDup_app in Hd as (_ & Hd1 & Hd2). apply NoDup_cons in Hd2 as [Hd2 _].
    intros Hin. apply elem_of_app in Hin as [Hin|Hin]; [|contradiction].
    apply (Hd1 e Hin). left. }
  split; [exact Hp|]. split; [exact Hn|].
  destruct H' as (Hf & Hl & _).
  split; [rewrite Hf; unfold slot_at; destruct (l1 ++ l2); reflexivity|].
  split; [exact Hl|exact Lo].
Qed.

Lemma ListRemove_removes_witness :
  holds_list free_list ([160] ++ [480])
    (ListRemove free_list 320 (Scenario.fresh_ccb "chan" 64 3))
  /\ (320 ∉ [160] ++ [480])
  /\ slot_prev 320 (ListRemove free_list 320 (Scenario.fresh_ccb "chan" 64 3)) = 0
  /\ slot_next 320 (ListRemove free_list 320 (Scenario.fresh_ccb "chan" 64 3)) = 0
  /\ SlotList.first
       (CCB.list_of free_list
          (ListRemove free_list 320 (Scenario.fresh_ccb "chan" 64 3)))
     = default 0 (head ([160] ++ [480]))
  /\ SlotList.last
       (CCB.list_of free_list
          (ListRemove free_list 320 (Scenario.fresh_ccb "chan" 64 3)))
     = default 0 (last ([160] ++ [480]))
  /\ (forall L', L' <> free_list ->
        CCB.list_of L'
          (ListRemove free_list 320 (Scenario.fresh_ccb "chan" 64 3))
        = CCB.list_of L' (Scenario.fresh_ccb "chan" 64 3)).
Proof.
  apply (ListRemove_removes free_list [160] [480] 320). apply fresh_free_list.
Defined.

(** ** From one list to another *)

Lemma holds_list_frame (L : ListId) (l : list Z) (c c' : CCB.t) :
  holds_list L l c ->
  CCB.list_of L c' = CCB.list_of L c ->
  (forall q, q ∈ l -> slot_prev q c' = slot_prev q c /\ slot_next q c' = slot_next q c) ->
  holds_list L l c'.
Proof.
  intros (Hf & Hl & Hk & Hn) Hh Hq. unfold holds_list. rewrite Hh.
  split; [exact Hf|]. split; [exact Hl|]. split; [|exact Hn].
  intros i p Hi. destruct (Hk i p Hi) as (Hp0 & Hpp & Hpn).
  destruct (Hq p) as [E1 E2]; [apply list_elem_of_lookup; eauto|].
  rewrite E1, E2. auto.
Qed.

Lemma holds_list_neighbours (L : ListId) (l1 l2 : list Z) (e : Z) (c : CCB.t) :
  holds_list L (l1 ++ e :: l2) c ->
  (slot_prev e c <> 0 -> slot_prev e c ∈ l1)
  /\ (slot_next e c <> 0 -> slot_next e c ∈ l2).
Proof.
  intros (_ & _ & Hk & _).
  assert (Hat : (l1 ++ e :: l2) !! length l1 = Some e).
  { rewrite lookup_app_r by lia. rewrite Nat.sub_diag. reflexivity. }
  destruct (Hk _ _ Hat) as (_ & Ha & Hb). rewrite Ha, Hb. split.
  - destruct (length l1) as [|j] eqn:E; [congruence|]. intros N.
    apply slot_at_nonzero in N. rewrite lookup_app_l in N by lia.
    apply list_elem_of_lookup. eauto.
  - intros N. apply slot_at_nonzero in N.
    rewrite lookup_app_r in N by lia.
    replace (S (length l1) - length l1)%nat with 1%nat in N by lia.
    apply list_elem_of_lookup. exists 0%nat. exact N.
Qed.

Lemma holds_list_last_in (L : ListId) (l : list Z) (c : CCB.t) :
  holds_list L l c ->
  SlotList.last (CCB.list_of L c) <> 0 -> SlotList.last (CCB.list_of L c) ∈ l.
Proof.
  intros (_ & Hl & _ & _). rewrite Hl. destruct (last l) as [x|] eqn:E; cbn.
  - intros _. rewrite last_lookup in E. apply list_elem_of_lookup. eauto.
  - congruence.
Qed.

(** X5: [Channel::ListRemove] then [Channel::ListInsertAtEnd], as
    [AddToBusyList] and [AddToActiveList] are used: moving a slot from one
    list to the end of another, the two lists sharing no slot, leaves both
    lists well formed: the source without the slot, the target with the
    slot appended. *)
Theorem move_between_lists (A B : ListId) (la1 la2 lb : list Z) (e : Z)
    (c : CCB.t) :
  A <> B ->
  holds_list A (la1 ++ e :: la2) c ->
  holds_list B lb c ->
  (forall x, x ∈ lb -> x ∉ la1 ++ e :: la2) ->
  let c' := ListInsertAtEnd B e (ListRemove A e c) in
  holds_list A (la1 ++ la2) c' /\ holds_list B (lb ++ [e]) c'.
Proof.
  intros HAB HA HB Hdisj c'.
  destruct (remove_holds A la1 la2 e c HA) as (HA1 & Hp1 & Hn1).
  destruct (holds_list_neighbours A la1 la2 e c HA) as [Hpa Hnb].
  destruct (ListRemove_links A e c) as (Rn & Rp & _ & Rh).
  set (c1 := ListRemove A e c) in *.
  assert (He_nb : e ∉ lb).
  { intros Hin. apply (Hdisj e Hin). apply elem_of_app. right. left. }
  assert (HB1 : holds_list B lb c1).
  { apply (holds_list_frame B lb c c1 HB).
    - apply Rh. congruence.
    - intros q Hq.
      assert (Hqa : q ∉ la1 ++ e :: la2) by (apply Hdisj; exact Hq).
      assert (q <> e) by (intros ->; contradiction).
      rewrite Rn, Rp.
      destruct (decide (q = e)) as [?|_]; [contradiction|]. split.
      + destruct (decide (slot_next e c <> 0 /\ q = slot_next e c)) as [[N ->]|_];
          [|reflexivity].
        exfalso. apply Hqa. apply elem_of_app. right. right. auto.
      + destruct (decide (slot_prev e c <> 0 /\ q = slot_prev e c)) as [[N ->]|_];
          [|reflexivity].
        exfalso. apply Hqa. apply elem_of_app. left. auto. }
  assert (He0 : e <> 0).
  { destruct HA as (_ & _ & Hk & _). apply (linked_nonzero c _ e Hk).
    apply elem_of_app. right. left. }
  split.
  - destruct (ListInsertAtEnd_links B e c1) as (In & Ip & _ & Ih).
    apply (holds_list_frame A (la1 ++ la2) c1 c' HA1).
    + apply Ih. exact HAB.
    + intros q Hq.
      assert (Hq' : q ∈ la1 ++ e :: la2).
      { apply elem_of_app in Hq as [?|?]; apply elem_of_app;
          [left|right; right]; assumption. }
      assert (Hqe : q <> e).
      { intros ->. destruct HA as (_ & _ & _ & Hn).
        apply NoDup_app in Hn as (_ & H2 & H3). apply NoDup_cons in H3 as [H3 _].
        apply elem_of_app in Hq as [Hq|Hq]; [|contradiction].
        apply (H2 e Hq). left. }
      unfold c'. rewrite In, Ip. split.
      * destruct (decide (SlotList.last (CCB.list_of B c1) <> 0 /\ q = e))
          as [[_ ?]|_]; [contradiction|reflexivity].
      * destruct (decide (SlotList.last (CCB.list_of B c1) <> 0
                          /\ q = SlotList.last (CCB.list_of B c1))) as [[N E]|_];
          [|reflexivity].
        exfalso. apply (Hdisj q); [|exact Hq'].
        rewrite E. apply (holds_list_last_in B lb c1 HB1 N).
  - apply insert_at_end_holds; auto.
Qed.

Lemma move_between_lists_witness :
  holds_list busy_list ([] ++ [])
    (ListInsertAtEnd active_list 480
       (ListRemove busy_list 480 (Scenario.ccb_in_use 1 5)))
  /\ holds_list active_list ([160; 320] ++ [480])
       (ListInsertAtEnd active_list 480
          (ListRemove busy_list 480 (Scenario.ccb_in_use 1 5))).
Proof.
  apply (move_between_lists busy_list active_list [] [] [160; 320] 480).
  - discriminate.
  - apply in_use_busy_list.
  - apply in_use_active_list.
  - intros x Hx. apply (bool_decide_unpack _).
    apply elem_of_cons in Hx as [->|Hx];
      [|apply list_elem_of_singleton in Hx as ->]; vm_compute; reflexivity.
Defined.

(** X6: [Channel::ListInsertAtEnd], [Channel::ListRemove]: the list
    primitives change nothing but links and headers: every slot keeps its
    id, reference counts, ordinal, message size and owners, and the
    counters of the CCB keep their values. *)
Theorem list_ops_touch_links_only (L : ListId) (e q : Z) (c : CCB.t) :
  payload (CCB.slot q (ListInsertAtEnd L e c)) = payload (CCB.slot q c)
  /\ payload (CCB.slot q (ListRemove L e c)) = payload (CCB.slot q c)
  /\ counters_of (ListInsertAtEnd L e c) = counters_of c
  /\ counters_of (ListRemove L e c) = counters_of c.
Proof.
  split; [|split; [|split]].
  - apply (proj_ListInsertAtEnd payload). reflexivity.
  - apply (proj_ListRemove payload). reflexivity.
  - apply counters_ListInsertAtEnd.
  - apply counters_ListRemove.
Qed.

(** ** Filling a list *)

Lemma ListInit_holds (L : ListId) (c : CCB.t) : holds_list L [] (ListInit L c).
Proof.
  unfold holds_list, ListInit. rewrite list_of_with_list. cbn.
  split; [reflexivity|]. split; [reflexivity|]. split; [|constructor].
  intros i p Hi. discriminate.
Qed.

Lemma ListElementInit_links (e : Z) (c : CCB.t) :
  let c' := ListElementInit e c in
  (forall q, slot_next q c' = if decide (q = e) then 0 else slot_next q c)
  /\ (forall q, slot_prev q c' = if decide (q = e) then 0 else slot_prev q c)
  /\ (forall L, CCB.list_of L c' = CCB.list_of L c).
Proof.
  unfold ListElementInit. cbn zeta. split; [|split].
  - intros q. rewrite slot_next_update'. destruct (decide (e = q)) as [->|N].
    + rewrite decide_True by reflexivity. reflexivity.
    + rewrite decide_False by congruence. reflexivity.
  - intros q. rewrite slot_prev_update. destruct (decide (e = q)) as [->|N].
    + rewrite decide_True by reflexivity. reflexivity.
    + rewrite decide_False by congruence. reflexivity.
  - intros L. apply list_of_update.
Qed.

Lemma fill_list_from (L : ListId) (es : list Z) :
  forall (l : list Z) (c : CCB.t),
    holds_list L l c -> NoDup (l ++ es) -> 0 ∉ es ->
    holds_list L (l ++ es) (fill_list L es c).
Proof.
  induction es as [|e es IH]; intros l c H Hn H0.
  - rewrite app_nil_r. exact H.
  - cbn [fill_list foldl]. fold (fill_list L es).
    replace (l ++ e :: es) with ((l ++ [e]) ++ es) by (rewrite <- app_assoc; reflexivity).
    assert (Hn' : NoDup ((l ++ [e]) ++ es)) by (rewrite <- app_assoc; exact Hn).
    apply IH; [|exact Hn'|intros Hin; apply H0; right; exact Hin].
    destruct (ListElementInit_links e c) as (En & Ep & Eh).
    assert (He : e ∉ l).
    { apply NoDup_app in Hn as (_ & Hd & _). intros Hin.
      apply (Hd e Hin). left. }
    apply insert_at_end_holds.
    + apply (holds_list_frame L l c); [exact H|apply Eh|].
      intros q Hq. rewrite En, Ep.
      destruct (decide (q = e)) as [->|_]; [contradiction|]. auto.
    + intros ->. apply H0. left.
    + exact He.
    + rewrite En. rewrite decide_True by reflexivity. reflexivity.
    + intros _. rewrite Ep. rewrite decide_True by reflexivity. reflexivity.
Qed.

(** X7: [Channel::ListInit], [Channel::ListElementInit],
    [Channel::ListInsertAtEnd]: initialising a list and then, for each of
    several distinct non-null slots, initialising the slot's links and
    putting it at the end, yields the well-formed list of these slots in
    the order of insertion, whatever the links were before. *)
Theorem fill_list_holds (L : ListId) (es : list Z) (c : CCB.t) :
  NoDup es -> 0 ∉ es ->
  holds_list L es (fill_list L es (ListInit L c))
  /\ SlotList.first (CCB.list_of L (fill_list L es (ListInit L c)))
     = default 0 (head es)
  /\ SlotList.last (CCB.list_of L (fill_list L es (ListInit L c)))
     = default 0 (last es).
Proof.
  intros Hn H0.
  assert (H : holds_list L es (fill_list L es (ListInit L c))).
  { apply (fill_list_from L es [] (ListInit L c)); [|exact Hn|exact H0].
    apply ListInit_holds. }
  split; [exact H|]. destruct H as (Hf & Hl & _). split; [|exact Hl].
  rewrite Hf. unfold slot_at. destruct es; reflexivity.
Qed.

Lemma fill_list_holds_witness :
  holds_list free_list [160; 320; 480]
    (fill_list free_list [160; 320; 480]
       (ListInit free_list (Scenario.fresh_ccb "chan" 64 3)))
  /\ SlotList.first
       (CCB.list_of free_list
          (fill_list free_list [160; 320; 480]
             (ListInit free_list (Scenario.fresh_ccb "chan" 64 3))))
     = default 0 (head [160; 320; 480])
  /\ SlotList.last
       (CCB.list_of free_list
          (fill_list free_list [160; 320; 480]
             (ListInit free_list (Scenario.fresh_ccb "chan" 64 3))))
     = default 0 (last [160; 320; 480]).
Proof.
  apply fill_list_holds.
  - apply (bool_decide_unpack _). vm_compute. reflexivity.
  - apply (bool_decide_unpack _). vm_compute. reflexivity.
Defined.

(** * client.cc: the connection, reloading, reading and the objects *)

(** ** One exchange with the server *)

Lemma exchange_ok_serialize (x : Exchange.t) :
  exchange_ok x = true -> Exchange.serialize_ok x = true.
Proof.
  unfold exchange_ok. intros H.
  repeat (apply andb_prop in H as [H _]). exact H.
Qed.

Lemma exchange_good (req : Request) (w : World.t) :
  exchange_ok (next_exchange w) = true ->
  SendRequestReceiveResponse req w
  = (Ok (Exchange.response (next_exchange w), Exchange.fds (next_exchange w)),
     add_event (EvRequest req) (World.with_rpcs (S (World.rpcs w)) w)).
Proof.
  unfold exchange_ok, next_exchange, SendRequestReceiveResponse. intros H.
  apply andb_prop in H as [H H5]. apply andb_prop in H as [H H4].
  apply andb_prop in H as [H H3]. apply andb_prop in H as [H1 H2].
  cbn zeta. rewrite H1, H2, H3, H4, H5. reflexivity.
Qed.

Lemma exchange_unserialized (req : Request) (w : World.t) :
  Exchange.serialize_ok (next_exchange w) = false ->
  SendRequestReceiveResponse req w
  = (Failed (InternalError "Failed to serialize request"),
     World.with_rpcs (S (World.rpcs w)) w).
Proof.
  unfold next_exchange, SendRequestReceiveResponse. intros ->. reflexivity.
Qed.

Lemma exchange_broken (req : Request) (w : World.t) :
  Exchange.serialize_ok (next_exchange w) = true ->
  exchange_ok (next_exchange w) = false ->
  exists s,
    SendRequestReceiveResponse req w
    = (Failed s,
       socket_Close (add_event (EvRequest req)
                       (World.with_rpcs (S (World.rpcs w)) w))).
Proof.
  unfold next_exchange, exchange_ok, SendRequestReceiveResponse. intros -> H.
  cbn [negb andb] in *.
  destruct (Status_ok (Exchange.send_status _)); cbn [negb andb] in *; [|eauto].
  destruct (Status_ok (Exchange.receive_status _)); cbn [negb andb] in *; [|eauto].
  destruct (Exchange.parse_ok _); cbn [negb andb] in *; [|eauto].
  destruct (Status_ok (Exchange.receive_fds_status _)); cbn [negb andb] in *;
    [discriminate|eauto].
Qed.

Lemma exchange_keeps (req : Request) (w : World.t) :
  let w' := snd (SendRequestReceiveResponse req w) in
  World.publishers w' = World.publishers w
  /\ World.subscribers w' = World.subscribers w
  /\ World.scb w' = World.scb w
  /\ World.ccb w' = World.ccb w
  /\ World.buffers w' = World.buffers w
  /\ World.env w' = World.env w
  /\ World.next_object w' = World.next_object w
  /\ World.dropped_message_callbacks_ w' = World.dropped_message_callbacks_ w
  /\ World.rpcs w' = S (World.rpcs w).
Proof.
  unfold SendRequestReceiveResponse. cbn zeta.
  repeat (match goal with |- context [if ?b then _ else _] => destruct b end);
    cbn; repeat split; reflexivity.
Qed.

Lemma exchange_inv (req : Request) (w : World.t) (r : Response.t * list Z)
    (w' : World.t) :
  SendRequestReceiveResponse req w = (Ok r, w') ->
  r = (Exchange.response (next_exchange w), Exchange.fds (next_exchange w))
  /\ w' = add_event (EvRequest req) (World.with_rpcs (S (World.rpcs w)) w).
Proof.
  unfold SendRequestReceiveResponse, next_exchange. cbn zeta.
  repeat (match goal with |- context [if ?b then _ else _] => destruct b end);
    try discriminate.
  intros [= <- <-]. split; reflexivity.
Qed.

Lemma pub_exchange (req : Request) (p : Z) (w : World.t) :
  pub p (snd (SendRequestReceiveResponse req w)) = pub p w.
Proof.
  unfold pub. rewrite (proj1 (exchange_keeps req w)). reflexivity.
Qed.

Lemma sub_exchange (req : Request) (s : Z) (w : World.t) :
  sub s (snd (SendRequestReceiveResponse req w)) = sub s w.
Proof.
  unfold sub. rewrite (proj1 (proj2 (exchange_keeps req w))). reflexivity.
Qed.

Lemma counters_exchange (req : Request) (k : Z) (w : World.t) :
  counters k (snd (SendRequestReceiveResponse req w)) = counters k w.
Proof.
  unfold counters.
  rewrite (proj1 (proj2 (proj2 (exchange_keeps req w)))). reflexivity.
Qed.

(** X8: [Client::SendRequestReceiveResponse]: an exchange never touches
    the shared memory or the objects of the client; when every step works
    the response and the descriptors are handed on; a request that cannot
    be serialized fails with the socket left as it was and nothing sent;
    any later failure closes the socket. *)
Theorem SendRequestReceiveResponse_outcomes (req : Request) (w : World.t) :
  let x := next_exchange w in
  let r := SendRequestReceiveResponse req w in
  same_memory w (snd r)
  /\ World.publishers (snd r) = World.publishers w
  /\ World.subscribers (snd r) = World.subscribers w
  /\ World.rpcs (snd r) = S (World.rpcs w)
  /\ (exchange_ok x = true ->
      r = (Ok (Exchange.response x, Exchange.fds x),
           add_event (EvRequest req) (World.with_rpcs (S (World.rpcs w)) w)))
  /\ (Exchange.serialize_ok x = false ->
      fst r = Failed (InternalError "Failed to serialize request")
      /\ World.socket_connected (snd r) = World.socket_connected w
      /\ World.trace (snd r) = World.trace w)
  /\ (Exchange.serialize_ok x = true -> exchange_ok x = false ->
      (exists s, fst r = Failed s)
      /\ World.socket_connected (snd r) = false
      /\ World.trace (snd r) = World.trace w ++ [EvRequest req; EvSocketClose]).
Proof.
  unfold next_exchange, exchange_ok, same_memory, SendRequestReceiveResponse.
  cbn zeta. destruct (server (World.env w) (World.rpcs w)) as [ser snd_ rcv prs rfd resp fds].
  cbn [Exchange.serialize_ok Exchange.send_status Exchange.receive_status
       Exchange.parse_ok Exchange.receive_fds_status Exchange.response Exchange.fds].
  destruct ser; cbn [negb andb].
  2:{ cbn. repeat split; try discriminate; auto. }
  destruct (Status_ok snd_) eqn:E1; cbn [negb andb].
  2:{ cbn. rewrite <- app_assoc. repeat split; try discriminate; eauto. }
  destruct (Status_ok rcv) eqn:E2; cbn [negb andb].
  2:{ cbn. rewrite <- app_assoc. repeat split; try discriminate; eauto. }
  destruct prs; cbn [negb andb].
  2:{ cbn. rewrite <- app_assoc. repeat split; try discriminate; eauto. }
  destruct (Status_ok rfd) eqn:E3; cbn [negb andb].
  2:{ cbn. rewrite <- app_assoc. repeat split; try discriminate; eauto. }
  cbn. repeat split; try discriminate; auto.
Qed.

(** ** Connecting *)

Lemma Init_unfold (server_socket client_name : string) (w : World.t) :
  World.socket_connected w = false ->
  Init server_socket client_name w
  = if Status_ok (connect_status (World.env w)) then
      match SendRequestReceiveResponse (InitRequest client_name)
              (World.with_socket_connected true
                 (add_event (EvConnect server_socket) w)) with
      | (Ok r, w2) =>
          (Ok tt,
           World.with_scb_fd (fd_at (snd r) (Response.init_scb_fd_index (fst r)))
                             w2)
      | (Failed s, w2) => (Failed s, w2)
      end
    else (Failed (connect_status (World.env w)),
          add_event (EvConnect server_socket) w).
Proof.
  intros Hc. unfold Init. rewrite Hc. unfold bind, socket_Connect.
  cbn [World.env add_event World.with_trace].
  destruct (Status_ok (connect_status (World.env w))); cbn [negb]; [|reflexivity].
  destruct (SendRequestReceiveResponse _ _) as [[r|s] w2]; reflexivity.
Qed.

(** X9: [Client::Init]: for a client that is not connected: a failed
    connect sends no request; a successful exchange leaves the client
    connected with the SCB descriptor the response names; an exchange that
    breaks after the request was serialized leaves the client disconnected;
    but when the request cannot be serialized the socket stays connected,
    so that every further [Init] is refused as a second call. *)
Theorem Init_outcomes (server_socket client_name : string) (w : World.t) :
  World.socket_connected w = false ->
  let x := next_exchange w in
  let r := Init server_socket client_name w in
  same_memory w (snd r)
  /\ (Status_ok (connect_status (World.env w)) = false ->
      r = (Failed (connect_status (World.env w)),
           add_event (EvConnect server_socket) w))
  /\ (Status_ok (connect_status (World.env w)) = true ->
      exchange_ok x = true ->
      fst r = Ok tt
      /\ World.socket_connected (snd r) = true
      /\ World.scb_fd_ (snd r)
         = fd_at (Exchange.fds x)
                 (Response.init_scb_fd_index (Exchange.response x))
      /\ World.trace (snd r)
         = World.trace w
           ++ [EvConnect server_socket; EvRequest (InitRequest client_name)])
  /\ (Status_ok (connect_status (World.env w)) = true ->
      Exchange.serialize_ok x = true -> exchange_ok x = false ->
      (exists s, fst r = Failed s)
      /\ World.socket_connected (snd r) = false
      /\ World.scb_fd_ (snd r) = World.scb_fd_ w)
  /\ (Status_ok (connect_status (World.env w)) = true ->
      Exchange.serialize_ok x = false ->
      fst r = Failed (InternalError "Failed to serialize request")
      /\ World.socket_connected (snd r) = true
      /\ World.scb_fd_ (snd r) = World.scb_fd_ w
      /\ forall a b,
           Init a b (snd r)
           = (Failed (InternalError
                "Client is already connected to the server; Init() called twice perhaps?"),
              snd r)).
Proof.
  intros Hc x r. subst x r. rewrite (Init_unfold _ _ _ Hc).
  set (w1 := World.with_socket_connected true _).
  assert (Hx : next_exchange w1 = next_exchange w) by reflexivity.
  destruct (Status_ok (connect_status (World.env w))) eqn:Ec.
  2:{ cbn. repeat split; try discriminate. }
  destruct (Exchange.serialize_ok (next_exchange w)) eqn:Es.
  - destruct (exchange_ok (next_exchange w)) eqn:Eo.
    + rewrite (exchange_good _ w1) by (rewrite Hx; exact Eo).
      cbn. rewrite <- app_assoc. repeat split; try discriminate; auto.
    + destruct (exchange_broken (InitRequest client_name) w1) as [s ->];
        [rewrite Hx; exact Es|rewrite Hx; exact Eo|].
      cbn. repeat split; try discriminate; eauto.
  - rewrite (exchange_unserialized _ w1) by (rewrite Hx; exact Es).
    assert (Ho : exchange_ok (next_exchange w) = false).
    { destruct (exchange_ok _) eqn:E; [|reflexivity].
      apply exchange_ok_serialize in E. congruence. }
    rewrite Ho. cbn. repeat split; try discriminate; auto.
Qed.

Lemma Init_outcomes_witness :
  fst (Init "/tmp/subspace" "client" Scenario.unconnected) = Ok tt
  /\ World.socket_connected
       (snd (Init "/tmp/subspace" "client"
               (Faults.world false OkStatus Faults.lost))) = false
  /\ World.socket_connected
       (snd (Init "/tmp/subspace" "client"
               (Faults.world false OkStatus Faults.unserializable))) = true.
Proof.
  split; [|split].
  - apply (Init_outcomes "/tmp/subspace" "client" Scenario.unconnected eq_refl);
      reflexivity.
  - apply (Init_outcomes "/tmp/subspace" "client"
             (Faults.world false OkStatus Faults.lost) eq_refl); reflexivity.
  - apply (Init_outcomes "/tmp/subspace" "client"
             (Faults.world false OkStatus Faults.unserializable) eq_refl);
      reflexivity.
Defined.

(** ** A client without a connection *)

Lemma CheckConnected_fails (w : World.t) :
  World.socket_connected w = false -> CheckConnected w = (Failed not_connected, w).
Proof. intros H. unfold CheckConnected. rewrite H. reflexivity. Qed.

Lemma CheckConnected_passes (w : World.t) :
  World.socket_connected w = true -> CheckConnected w = (Ok tt, w).
Proof. intros H. unfold CheckConnected. rewrite H. reflexivity. Qed.

Lemma bind_fails {A B} (m : M A) (k : A -> M B) (w w' : World.t) (s : Status) :
  m w = (Failed s, w') -> bind m k w = (Failed s, w').
Proof. intros H. unfold bind. rewrite H. reflexivity. Qed.

Lemma bind_passes {A B} (m : M A) (k : A -> M B) (w w' : World.t) (a : A) :
  m w = (Ok a, w') -> bind m k w = k a w'.
Proof. intros H. unfold bind. rewrite H. reflexivity. Qed.

(** X10: [Client::CheckConnected] in its callers: without a connection,
    creating a publisher or a subscriber, reloading, publishing, waiting
    and reading from a channel with publishers all fail with the same
    status and change nothing; [GetMessageBuffer] has cleared the poll
    descriptor before it fails. *)
Theorem not_connected_operations (w : World.t) :
  World.socket_connected w = false ->
  (forall name slot_size num_slots opts,
     CreatePublisher name slot_size num_slots opts w = (Failed not_connected, w))
  /\ (forall name opts, CreateSubscriber name opts w = (Failed not_connected, w))
  /\ (forall p, ReloadSubscribersIfNecessary p w = (Failed not_connected, w))
  /\ (forall s, ReloadReliablePublishersIfNecessary s w = (Failed not_connected, w))
  /\ (forall p, GetMessageBuffer p w
                = (Failed not_connected, add_event (EvClearPollFd p) w))
  /\ (forall p size, PublishMessage p size w = Some (Failed not_connected, w))
  /\ (forall wt p, WaitForReliablePublisher wt p w = (Failed not_connected, w))
  /\ (forall wt s, WaitForSubscriber wt s w = (Failed not_connected, w))
  /\ (forall fuel s mode,
        Subscriber.IsPlaceholder (sub s w) = false ->
        ReadMessage fuel s mode w = Some (Failed not_connected, w)).
Proof.
  intros H. pose proof (CheckConnected_fails w H) as Hc.
  assert (Hp : forall p, ReloadSubscribersIfNecessary p w = (Failed not_connected, w)).
  { intros p. apply bind_fails. exact Hc. }
  assert (Hs : forall s, ReloadReliablePublishersIfNecessary s w
                         = (Failed not_connected, w)).
  { intros s. apply bind_fails. exact Hc. }
  repeat split; intros.
  - apply bind_fails. exact Hc.
  - apply bind_fails. exact Hc.
  - apply Hp.
  - apply Hs.
  - unfold GetMessageBuffer. unfold bind at 1. cbn [emit modify].
    apply bind_fails. apply bind_fails. apply CheckConnected_fails. exact H.
  - unfold PublishMessage, PublishMessageInternal. rewrite Hp. reflexivity.
  - apply bind_fails. exact Hc.
  - apply bind_fails. exact Hc.
  - unfold ReadMessage. rewrite H0, Hs. reflexivity.
Qed.

Lemma not_connected_operations_witness :
  GetMessageBuffer 100 Scenario.unconnected
  = (Failed not_connected, add_event (EvClearPollFd 100) Scenario.unconnected)
  /\ PublishMessage 100 7 Scenario.unconnected
     = Some (Failed not_connected, Scenario.unconnected).
Proof.
  split.
  - apply (not_connected_operations Scenario.unconnected eq_refl).
  - apply (not_connected_operations Scenario.unconnected eq_refl).
Defined.

(** ** The dropped-message callbacks *)

(** X11: [Client::RegisterDroppedMessageCallback],
    [Client::UnregisterDroppedMessageCallback]: a registered callback is
    the one found for its subscriber and no other subscriber is affected;
    registering again replaces it; unregistering succeeds once, after which
    no callback is left (the client is as before when there was none), and
    a second unregistering fails and changes nothing. *)
Theorem dropped_message_callback_registry (s s' : Z) (cb cb' : Callback)
    (w : World.t) :
  let w1 := RegisterDroppedMessageCallback s cb w in
  World.dropped_message_callbacks_ w1 !! s = Some cb
  /\ (s' <> s ->
      World.dropped_message_callbacks_ w1 !! s'
      = World.dropped_message_callbacks_ w !! s')
  /\ RegisterDroppedMessageCallback s cb' w1
     = RegisterDroppedMessageCallback s cb' w
  /\ exists w2,
       UnregisterDroppedMessageCallback s w1 = (Ok tt, w2)
       /\ World.dropped_message_callbacks_ w2 !! s = None
       /\ (World.dropped_message_callbacks_ w !! s = None -> w2 = w)
       /\ exists message,
            UnregisterDroppedMessageCallback s w2
            = (Failed (InternalError message), w2).
Proof.
  cbn zeta. unfold RegisterDroppedMessageCallback, UnregisterDroppedMessageCallback.
  destruct w as [sc fd cbs pubs subs nx c bufs scb env rp tr].
  cbn [World.dropped_message_callbacks_ World.with_dropped_message_callbacks
       World.socket_connected World.scb_fd_ World.publishers World.subscribers
       World.next_object World.ccb World.buffers World.scb World.env World.rpcs
       World.trace].
  split; [apply lookup_insert_eq|].
  split; [intros N; apply lookup_insert_ne; congruence|].
  split; [rewrite insert_insert_eq; reflexivity|].
  rewrite lookup_insert_eq. eexists. split; [reflexivity|].
  unfold World.with_dropped_message_callbacks.
  cbn [World.dropped_message_callbacks_ World.socket_connected World.scb_fd_
       World.publishers World.subscribers World.next_object World.ccb
       World.buffers World.scb World.env World.rpcs World.trace].
  rewrite lookup_delete_eq.
  split; [reflexivity|]. split.
  - intros Hn. rewrite delete_insert_eq, delete_id by exact Hn. reflexivity.
  - eexists. reflexivity.
Qed.

(** ** Reloading the trigger descriptors *)

Lemma ReloadSubscribersIfNecessary_unfold (p : Z) (w : World.t) :
  World.socket_connected w = true ->
  let ch := Publisher.channel (pub p w) in
  ReloadSubscribersIfNecessary p w
  = if Channel.NumUpdates ch =? sub_updates p w then (Ok tt, w)
    else
      match SendRequestReceiveResponse (GetTriggersRequest (Channel.Name ch))
              (set_pub p
                 (fun o => Publisher.with_channel
                             (Channel.SetNumUpdates (sub_updates p w)
                                (Publisher.channel o)) o) w) with
      | (Ok r, w2) =>
          (Ok tt,
           set_pub p
             (fun o => Publisher.with_subscribers
                         (add_fds (snd r)
                            (GetTriggersResponse.sub_trigger_fd_indexes
                               (Response.get_triggers (fst r)))
                            (Publisher.subscribers_ o)) o)
             (set_pub p Publisher.ClearSubscribers w2))
      | (Failed s, w2) => (Failed s, w2)
      end.
Proof.
  intros Hc ch. unfold ReloadSubscribersIfNecessary.
  rewrite (bind_passes _ _ w w tt) by (apply CheckConnected_passes; exact Hc).
  unfold bind at 1. cbn [get]. fold ch. unfold sub_updates. fold ch.
  destruct (Channel.NumUpdates ch =? _); [reflexivity|].
  unfold bind at 1. unfold pub_channel, update_pub. cbn [modify].
  unfold bind at 1.
  destruct (SendRequestReceiveResponse _ _) as [[r|s] w2]; reflexivity.
Qed.

Lemma ReloadReliablePublishersIfNecessary_unfold (s : Z) (w : World.t) :
  World.socket_connected w = true ->
  let ch := Subscriber.channel (sub s w) in
  ReloadReliablePublishersIfNecessary s w
  = if Channel.NumUpdates ch =? pub_updates s w then (Ok tt, w)
    else
      match SendRequestReceiveResponse (GetTriggersRequest (Channel.Name ch))
              (set_sub s
                 (fun o => Subscriber.with_channel
                             (Channel.SetNumUpdates (pub_updates s w)
                                (Subscriber.channel o)) o) w) with
      | (Ok r, w2) =>
          (Ok tt,
           set_sub s
             (fun o => Subscriber.with_publishers
                         (add_fds (snd r)
                            (GetTriggersResponse.reliable_pub_trigger_fd_indexes
                               (Response.get_triggers (fst r)))
                            (Subscriber.reliable_publishers_ o)) o)
             (set_sub s Subscriber.ClearPublishers w2))
      | (Failed st, w2) => (Failed st, w2)
      end.
Proof.
  intros Hc ch. unfold ReloadReliablePublishersIfNecessary.
  rewrite (bind_passes _ _ w w tt) by (apply CheckConnected_passes; exact Hc).
  unfold bind at 1. cbn [get]. fold ch. unfold pub_updates. fold ch.
  destruct (Channel.NumUpdates ch =? _); [reflexivity|].
  unfold bind at 1. unfold sub_channel, update_sub. cbn [modify].
  unfold bind at 1.
  destruct (SendRequestReceiveResponse _ _) as [[r|st] w2]; reflexivity.
Qed.

Lemma add_fds_map (fds indexes acc : list Z) :
  add_fds fds indexes acc = acc ++ map (fd_at fds) indexes.
Proof.
  unfold add_fds. revert acc.
  induction indexes as [|i rest IH]; intros acc; cbn.
  - rewrite app_nil_r. reflexivity.
  - rewrite IH, <- app_assoc. reflexivity.
Qed.

Lemma wrap_uint16_small (v : Z) : is_uint16 v -> wrap_uint16 v = v.
Proof. unfold is_uint16, wrap_uint16. intros H. apply Z.mod_small. lia. Qed.

Lemma counters_set_pub (k p : Z) (f : Publisher.t -> Publisher.t) (w : World.t) :
  counters k (set_pub p f w) = counters k w.
Proof. reflexivity. Qed.

Lemma counters_set_sub (k s : Z) (f : Subscriber.t -> Subscriber.t) (w : World.t) :
  counters k (set_sub s f w) = counters k w.
Proof. reflexivity. Qed.

(** X12: [Client::ReloadSubscribersIfNecessary]: for a connected client
    the publisher ends up with the update count of the SCB whether or not
    the request succeeded, so that a second call does nothing as long as
    the client is still connected; with no change pending nothing happens
    at all; with a change pending exactly one request is made and, when it
    succeeds, the subscriber triggers are exactly the descriptors the
    response lists, in order. *)
Theorem ReloadSubscribersIfNecessary_settles (p : Z) (w : World.t) :
  World.socket_connected w = true ->
  is_uint16 (sub_updates p w) ->
  let r := ReloadSubscribersIfNecessary p w in
  let x := next_exchange w in
  sub_updates p (snd r) = sub_updates p w
  /\ Channel.NumUpdates (Publisher.channel (pub p (snd r))) = sub_updates p w
  /\ (World.socket_connected (snd r) = true ->
      ReloadSubscribersIfNecessary p (snd r) = (Ok tt, snd r))
  /\ (Channel.NumUpdates (Publisher.channel (pub p w)) = sub_updates p w ->
      r = (Ok tt, w))
  /\ (Channel.NumUpdates (Publisher.channel (pub p w)) <> sub_updates p w ->
      World.rpcs (snd r) = S (World.rpcs w)
      /\ (exchange_ok x = true ->
          fst r = Ok tt
          /\ Publisher.subscribers_ (pub p (snd r))
             = map (fd_at (Exchange.fds x))
                   (GetTriggersResponse.sub_trigger_fd_indexes
                      (Response.get_triggers (Exchange.response x)))
          /\ World.trace (snd r)
             = World.trace w
               ++ [EvRequest (GetTriggersRequest
                                (Channel.Name (Publisher.channel (pub p w))))])).
Proof.
  intros Hc Hu r x. subst r x.
  assert (Hsettled : forall w0,
            World.socket_connected w0 = true ->
            Channel.NumUpdates (Publisher.channel (pub p w0)) = sub_updates p w0 ->
            ReloadSubscribersIfNecessary p w0 = (Ok tt, w0)).
  { intros w0 H0 E. rewrite (ReloadSubscribersIfNecessary_unfold p w0 H0).
    cbn zeta. rewrite E, Z.eqb_refl. reflexivity. }
  destruct (Z.eq_dec (Channel.NumUpdates (Publisher.channel (pub p w)))
                     (sub_updates p w)) as [E|N].
  { rewrite (Hsettled w Hc E). cbn [fst snd].
    repeat split; auto; contradiction. }
  rewrite (ReloadSubscribersIfNecessary_unfold p w Hc). cbn zeta.
  apply Z.eqb_neq in N. rewrite N. apply Z.eqb_neq in N.
  set (req := GetTriggersRequest _).
  set (w1 := set_pub p _ w).
  pose proof (exchange_keeps req w1) as K.
  pose proof (pub_exchange req p w1) as Kp.
  assert (Hx : next_exchange w1 = next_exchange w) by reflexivity.
  assert (Hp1 : Channel.GetChannelId (Publisher.channel (pub p w1))
                = Channel.GetChannelId (Publisher.channel (pub p w))).
  { unfold w1. rewrite pub_set_pub. reflexivity. }
  assert (Hn1 : Channel.NumUpdates (Publisher.channel (pub p w1)) = sub_updates p w).
  { unfold w1. rewrite pub_set_pub. cbn. apply wrap_uint16_small. exact Hu. }
  assert (Core : forall w',
            (exists f, w' = f (snd (SendRequestReceiveResponse req w1))
                       /\ (forall w0, World.scb (f w0) = World.scb w0)
                       /\ (forall w0, Publisher.channel (pub p (f w0))
                                      = Publisher.channel (pub p w0))) ->
            sub_updates p w' = sub_updates p w
            /\ Channel.NumUpdates (Publisher.channel (pub p w')) = sub_updates p w).
  { intros w' (f & -> & Fs & Fc). unfold sub_updates at 1. unfold counters.
    rewrite Fs, Fc, Kp, Hp1. destruct K as (_ & _ & -> & _). split; [reflexivity|].
    exact Hn1. }
  destruct (SendRequestReceiveResponse req w1) as [[rr|st] w2] eqn:Er;
    cbn [fst snd] in *.
  - destruct (Core (set_pub p
                      (fun o => Publisher.with_subscribers
                         (add_fds (snd rr)
                            (GetTriggersResponse.sub_trigger_fd_indexes
                               (Response.get_triggers (fst rr)))
                            (Publisher.subscribers_ o)) o)
                      (set_pub p Publisher.ClearSubscribers w2))) as [C1 C2].
    { exists (fun w0 => set_pub p
                (fun o => Publisher.with_subscribers
                   (add_fds (snd rr)
                      (GetTriggersResponse.sub_trigger_fd_indexes
                         (Response.get_triggers (fst rr)))
                      (Publisher.subscribers_ o)) o)
                (set_pub p Publisher.ClearSubscribers w0)).
      split; [reflexivity|]. split; [reflexivity|].
      intros w0. rewrite !pub_set_pub. reflexivity. }
    split; [exact C1|]. split; [exact C2|]. split.
    { intros H1. apply Hsettled; [exact H1|]. rewrite C2, C1. reflexivity. }
    split; [intros; contradiction|]. intros _. split.
    { cbn. destruct K as (_ & _ & _ & _ & _ & _ & _ & _ & K). exact K. }
    intros Ho. rewrite (exchange_good req w1) in Er by (rewrite Hx; exact Ho).
    injection Er as <- <-. split; [reflexivity|]. split.
    + rewrite !pub_set_pub. cbn. rewrite Hx. apply add_fds_map.
    + reflexivity.
  - destruct (Core w2) as [C1 C2].
    { exists (fun w0 => w0). auto. }
    split; [exact C1|]. split; [exact C2|]. split.
    { intros H1. apply Hsettled; [exact H1|]. rewrite C2, C1. reflexivity. }
    split; [intros; contradiction|]. intros _. split.
    { destruct K as (_ & _ & _ & _ & _ & _ & _ & _ & K). exact K. }
    intros Ho. rewrite (exchange_good req w1) in Er by (rewrite Hx; exact Ho).
    discriminate.
Qed.

Lemma ReloadSubscribersIfNecessary_settles_witness :
  Publisher.subscribers_
    (pub 100 (snd (ReloadSubscribersIfNecessary 100 Faults.stale_publisher)))
  = [7; 8]
  /\ ReloadSubscribersIfNecessary 100
       (snd (ReloadSubscribersIfNecessary 100 Faults.stale_publisher))
     = (Ok tt, snd (ReloadSubscribersIfNecessary 100 Faults.stale_publisher)).
Proof.
  assert (Hc : World.socket_connected Faults.stale_publisher = true)
    by reflexivity.
  assert (Hu : is_uint16 (sub_updates 100 Faults.stale_publisher)).
  { unfold is_uint16. vm_compute. split; [discriminate|reflexivity]. }
  destruct (ReloadSubscribersIfNecessary_settles 100 Faults.stale_publisher Hc Hu)
    as (_ & _ & Hagain & _ & Hnew).
  split.
  - apply Hnew; [vm_compute; discriminate|reflexivity].
  - apply Hagain. vm_compute. reflexivity.
Defined.

(** X13: [Client::ReloadReliablePublishersIfNecessary]: the reload on the
    subscriber's side behaves in the same way: for a connected client the
    subscriber ends up with the update count of the SCB whatever the
    outcome, a second call does nothing while the client is connected, a
    pending change costs exactly one request and, when it succeeds, the
    triggers of the reliable publishers are exactly the descriptors the
    response lists, in order. *)
Theorem ReloadReliablePublishersIfNecessary_settles (s : Z) (w : World.t) :
  World.socket_connected w = true ->
  is_uint16 (pub_updates s w) ->
  let r := ReloadReliablePublishersIfNecessary s w in
  let x := next_exchange w in
  pub_updates s (snd r) = pub_updates s w
  /\ Channel.NumUpdates (Subscriber.channel (sub s (snd r))) = pub_updates s w
  /\ (World.socket_connected (snd r) = true ->
      ReloadReliablePublishersIfNecessary s (snd r) = (Ok tt, snd r))
  /\ (Channel.NumUpdates (Subscriber.channel (sub s w)) = pub_updates s w ->
      r = (Ok tt, w))
  /\ (Channel.NumUpdates (Subscriber.channel (sub s w)) <> pub_updates s w ->
      World.rpcs (snd r) = S (World.rpcs w)
      /\ (exchange_ok x = true ->
          fst r = Ok tt
          /\ Subscriber.reliable_publishers_ (sub s (snd r))
             = map (fd_at (Exchange.fds x))
                   (GetTriggersResponse.reliable_pub_trigger_fd_indexes
                      (Response.get_triggers (Exchange.response x)))
          /\ World.trace (snd r)
             = World.trace w
               ++ [EvRequest (GetTriggersRequest
                                (Channel.Name (Subscriber.channel (sub s w))))])).
Proof.
  intros Hc Hu r x. subst r x.
  assert (Hsettled : forall w0,
            World.socket_connected w0 = true ->
            Channel.NumUpdates (Subscriber.channel (sub s w0)) = pub_updates s w0 ->
            ReloadReliablePublishersIfNecessary s w0 = (Ok tt, w0)).
  { intros w0 H0 E. rewrite (ReloadReliablePublishersIfNecessary_unfold s w0 H0).
    cbn zeta. rewrite E, Z.eqb_refl. reflexivity. }
  destruct (Z.eq_dec (Channel.NumUpdates (Subscriber.channel (sub s w)))
                     (pub_updates s w)) as [E|N].
  { rewrite (Hsettled w Hc E). cbn [fst snd].
    repeat split; auto; contradiction. }
  rewrite (ReloadReliablePublishersIfNecessary_unfold s w Hc). cbn zeta.
  apply Z.eqb_neq in N. rewrite N. apply Z.eqb_neq in N.
  set (req := GetTriggersRequest _).
  set (w1 := set_sub s _ w).
  pose proof (exchange_keeps req w1) as K.
  pose proof (sub_exchange req s w1) as Kp.
  assert (Hx : next_exchange w1 = next_exchange w) by reflexivity.
  assert (Hp1 : Channel.GetChannelId (Subscriber.channel (sub s w1))
                = Channel.GetChannelId (Subscriber.channel (sub s w))).
  { unfold w1. rewrite sub_set_sub. reflexivity. }
  assert (Hn1 : Channel.NumUpdates (Subscriber.channel (sub s w1)) = pub_updates s w).
  { unfold w1. rewrite sub_set_sub. cbn. apply wrap_uint16_small. exact Hu. }
  assert (Core : forall w',
            (exists f, w' = f (snd (SendRequestReceiveResponse req w1))
                       /\ (forall w0, World.scb (f w0) = World.scb w0)
                       /\ (forall w0, Subscriber.channel (sub s (f w0))
                                      = Subscriber.channel (sub s w0))) ->
            pub_updates s w' = pub_updates s w
            /\ Channel.NumUpdates (Subscriber.channel (sub s w')) = pub_updates s w).
  { intros w' (f & -> & Fs & Fc). unfold pub_updates at 1. unfold counters.
    rewrite Fs, Fc, Kp, Hp1. destruct K as (_ & _ & -> & _). split; [reflexivity|].
    exact Hn1. }
  destruct (SendRequestReceiveResponse req w1) as [[rr|st0] w2] eqn:Er;
    cbn [fst snd] in *.
  - destruct (Core (set_sub s
                      (fun o => Subscriber.with_publishers
                         (add_fds (snd rr)
                            (GetTriggersResponse.reliable_pub_trigger_fd_indexes
                               (Response.get_triggers (fst rr)))
                            (Subscriber.reliable_publishers_ o)) o)
                      (set_sub s Subscriber.ClearPublishers w2))) as [C1 C2].
    { exists (fun w0 => set_sub s
                (fun o => Subscriber.with_publishers
                   (add_fds (snd rr)
                      (GetTriggersResponse.reliable_pub_trigger_fd_indexes
                         (Response.get_triggers (fst rr)))
                      (Subscriber.reliable_publishers_ o)) o)
                (set_sub s Subscriber.ClearPublishers w0)).
      split; [reflexivity|]. split; [reflexivity|].
      intros w0. rewrite !sub_set_sub. reflexivity. }
    split; [exact C1|]. split; [exact C2|]. split.
    { intros H1. apply Hsettled; [exact H1|]. rewrite C2, C1. reflexivity. }
    split; [intros; contradiction|]. intros _. split.
    { cbn. destruct K as (_ & _ & _ & _ & _ & _ & _ & _ & K). exact K. }
    intros Ho. rewrite (exchange_good req w1) in Er by (rewrite Hx; exact Ho).
    injection Er as <- <-. split; [reflexivity|]. split.
    + rewrite !sub_set_sub. cbn. rewrite Hx. apply add_fds_map.
    + reflexivity.
  - destruct (Core w2) as [C1 C2].
    { exists (fun w0 => w0). auto. }
    split; [exact C1|]. split; [exact C2|]. split.
    { intros H1. apply Hsettled; [exact H1|]. rewrite C2, C1. reflexivity. }
    split; [intros; contradiction|]. intros _. split.
    { destruct K as (_ & _ & _ & _ & _ & _ & _ & _ & K). exact K. }
    intros Ho. rewrite (exchange_good req w1) in Er by (rewrite Hx; exact Ho).
    discriminate.
Qed.

Lemma ReloadReliablePublishersIfNecessary_settles_witness :
  ReloadReliablePublishersIfNecessary 200
    (snd (ReloadReliablePublishersIfNecessary 200 Faults.stale_subscriber))
  = (Ok tt, snd (ReloadReliablePublishersIfNecessary 200 Faults.stale_subscriber)).
Proof.
  assert (Hc : World.socket_connected Faults.stale_subscriber = true)
    by reflexivity.
  assert (Hu : is_uint16 (pub_updates 200 Faults.stale_subscriber)).
  { unfold is_uint16. vm_compute. split; [discriminate|reflexivity]. }
  destruct (ReloadReliablePublishersIfNecessary_settles 200
              Faults.stale_subscriber Hc Hu) as (_ & _ & Hagain & _).
  apply Hagain. vm_compute. reflexivity.
Defined.

(** What [ReloadSubscriber] makes of the subscriber once the server has
    answered and the region is mapped. *)
Lemma ReloadSubscriber_unfold (s : Z) (w : World.t) :
  let ch := Subscriber.channel (sub s w) in
  let w1 := set_sub s
              (fun o => Subscriber.with_channel
                          (Channel.SetNumUpdates (pub_updates s w)
                             (Subscriber.channel o)) o) w in
  ReloadSubscriber s w
  = if Channel.NumUpdates ch =? pub_updates s w then (Ok tt, w)
    else if negb (World.socket_connected w) then (Failed not_connected, w1)
    else
      match SendRequestReceiveResponse
              (CreateSubscriberRequest (Channel.Name ch)
                 (Subscriber.GetSubscriberId (sub s w)) false false EmptyString)
              w1 with
      | (Failed st, w2) => (Failed st, w2)
      | (Ok r, w2) =>
          let sub_resp := Response.create_subscriber (fst r) in
          if negb (is_empty_string (CreateSubscriberResponse.error sub_resp))
          then (Failed (InternalError (CreateSubscriberResponse.error sub_resp)),
                w2)
          else
            let w3 :=
              set_sub s
                (fun o => Subscriber.with_channel
                   (Channel.SetSlots
                      (CreateSubscriberResponse.slot_size sub_resp)
                      (CreateSubscriberResponse.num_slots sub_resp)
                      (Subscriber.channel o)) o)
                (set_sub s
                   (fun o => Subscriber.with_channel
                               (Channel_Unmap (Subscriber.channel o)) o) w2) in
            match Channel_Map (Subscriber.channel (sub s w3)) (World.env w3) with
            | Failed st => (Failed st, w3)
            | Ok ch' =>
                (Ok tt,
                 set_sub s
                   (fun o => Subscriber.with_publishers
                      (add_fds (snd r)
                         (CreateSubscriberResponse.reliable_pub_trigger_fd_indexes
                            sub_resp)
                         (Subscriber.reliable_publishers_ o)) o)
                   (set_sub s Subscriber.ClearPublishers
                      (set_sub s
                         (Subscriber.SetPollFd
                            (fd_at (snd r)
                               (CreateSubscriberResponse.poll_fd_index sub_resp)))
                         (set_sub s
                            (Subscriber.SetTriggerFd
                               (fd_at (snd r)
                                  (CreateSubscriberResponse.trigger_fd_index
                                     sub_resp)))
                            (set_sub s (Subscriber.with_channel ch') w3)))))
            end
      end.
Proof.
  intros ch w1. unfold ReloadSubscriber.
  unfold bind at 1. cbn [get]. fold ch. unfold pub_updates. fold ch.
  destruct (Channel.NumUpdates ch =? _); [reflexivity|].
  unfold bind at 1. unfold sub_channel at 1, update_sub at 1. cbn [modify].
  unfold bind at 1. unfold CheckConnected.
  change (World.socket_connected (set_sub s _ w)) with (World.socket_connected w).
  destruct (World.socket_connected w); cbn [negb]; [|reflexivity].
  unfold bind at 1.
  destruct (SendRequestReceiveResponse _ _) as [[r|st] w2]; [|reflexivity].
  cbn zeta.
  destruct (negb (is_empty_string _)); [reflexivity|].
  unfold bind at 1. unfold sub_channel at 1, update_sub at 1. cbn [modify].
  unfold bind at 1. unfold sub_channel at 1, update_sub at 1. cbn [modify].
  unfold bind at 1. unfold Subscriber_Map.
  destruct (Channel_Map _ _) as [ch'|st]; reflexivity.
Qed.

Lemma ReloadSubscriber_facts (s : Z) (w : World.t) :
  is_uint16 (pub_updates s w) ->
  let r := ReloadSubscriber s w in
  same_memory w (snd r)
  /\ Subscriber.slot_ (sub s (snd r)) = Subscriber.slot_ (sub s w)
  /\ Channel.NumUpdates (Subscriber.channel (sub s (snd r))) = pub_updates s w
  /\ (pub_updates s (snd r) = pub_updates s w
      /\ ReloadSubscriber s (snd r) = (Ok tt, snd r))
  /\ (World.rpcs (snd r) <= S (World.rpcs w))%nat
  /\ (Channel.NumUpdates (Subscriber.channel (sub s w)) = pub_updates s w ->
      r = (Ok tt, w))
  /\ (World.socket_connected w = false ->
      World.rpcs (snd r) = World.rpcs w /\ World.trace (snd r) = World.trace w).
Proof.
  intros Hu r. subst r.
  assert (Hsettled : forall w0,
            Channel.NumUpdates (Subscriber.channel (sub s w0)) = pub_updates s w0 ->
            ReloadSubscriber s w0 = (Ok tt, w0)).
  { intros w0 E. rewrite (ReloadSubscriber_unfold s w0). cbn zeta.
    rewrite E, Z.eqb_refl. reflexivity. }
  destruct (Z.eq_dec (Channel.NumUpdates (Subscriber.channel (sub s w)))
                     (pub_updates s w)) as [E|N].
  { rewrite (Hsettled w E). cbn [fst snd]. unfold same_memory.
    repeat split; auto. }
  set (inv := fun w' : World.t =>
         same_memory w w'
         /\ Subscriber.slot_ (sub s w') = Subscriber.slot_ (sub s w)
         /\ Channel.NumUpdates (Subscriber.channel (sub s w')) = pub_updates s w
         /\ Channel.GetChannelId (Subscriber.channel (sub s w'))
            = Channel.GetChannelId (Subscriber.channel (sub s w))).
  assert (Hinv : forall w', inv w' ->
            same_memory w w'
            /\ Subscriber.slot_ (sub s w') = Subscriber.slot_ (sub s w)
            /\ Channel.NumUpdates (Subscriber.channel (sub s w')) = pub_updates s w
            /\ (pub_updates s w' = pub_updates s w
                /\ ReloadSubscriber s w' = (Ok tt, w'))).
  { intros w' (Hm & Hs & Hn & Hi). split; [exact Hm|]. split; [exact Hs|].
    split; [exact Hn|].
    assert (Hu' : pub_updates s w' = pub_updates s w).
    { unfold pub_updates, counters.
      rewrite Hi. destruct Hm as (_ & _ & ->). reflexivity. }
    split; [exact Hu'|]. apply Hsettled. rewrite Hn, Hu'. reflexivity. }
  assert (Hstep : forall (f : Subscriber.t -> Subscriber.t) w',
            (forall o, Subscriber.slot_ (f o) = Subscriber.slot_ o) ->
            (forall o, Channel.NumUpdates (Subscriber.channel (f o))
                       = Channel.NumUpdates (Subscriber.channel o)) ->
            (forall o, Channel.GetChannelId (Subscriber.channel (f o))
                       = Channel.GetChannelId (Subscriber.channel o)) ->
            inv w' -> inv (set_sub s f w')).
  { intros f w' F1 F2 F3 (Hm & Hs & Hn & Hi). unfold inv.
    rewrite sub_set_sub, F1, F2, F3. repeat split; try assumption;
      apply Hm. }
  rewrite (ReloadSubscriber_unfold s w). cbn zeta.
  apply Z.eqb_neq in N. rewrite N. apply Z.eqb_neq in N.
  set (w1 := set_sub s _ w).
  assert (I1 : inv w1).
  { unfold inv, w1. rewrite sub_set_sub. cbn.
    rewrite wrap_uint16_small by exact Hu. repeat split. }
  destruct (World.socket_connected w) eqn:Hc; cbn [negb].
  2:{ cbn [fst snd]. destruct (Hinv w1 I1) as (A & B & C & D1 & D2).
      repeat split; try assumption; try apply A; try contradiction.
      cbn. lia. }
  set (req := CreateSubscriberRequest _ _ _ _ _).
  pose proof (exchange_keeps req w1) as K. cbn zeta in K.
  pose proof (sub_exchange req s w1) as Ks.
  assert (R1 : World.rpcs w1 = World.rpcs w) by reflexivity.
  destruct (SendRequestReceiveResponse req w1) as [[rr|st] w2] eqn:Er;
    cbn [fst snd] in *.
  all: assert (I2 : inv w2)
    by (destruct I1 as ((M1 & M2 & M3) & I1); unfold inv, same_memory;
        rewrite Ks; destruct K as (_ & _ & -> & -> & -> & _);
        repeat split; try assumption; apply I1).
  all: assert (R2 : (World.rpcs w2 <= S (World.rpcs w))%nat)
    by (destruct K as (_ & _ & _ & _ & _ & _ & _ & _ & ->); rewrite R1; lia).
  2:{ destruct (Hinv w2 I2) as (A & B & C & D1 & D2).
      repeat split; try assumption; try apply A; try contradiction;
        discriminate. }
  destruct (negb (is_empty_string _)).
  { cbn [fst snd]. destruct (Hinv w2 I2) as (A & B & C & D1 & D2).
    repeat split; try assumption; try apply A; try contradiction;
      discriminate. }
  set (w3 := set_sub s _ (set_sub s _ w2)).
  assert (I3 : inv w3).
  { unfold w3. apply Hstep; [reflexivity..|]. apply Hstep; [reflexivity..|].
    exact I2. }
  assert (R3 : World.rpcs w3 = World.rpcs w2) by reflexivity.
  unfold Channel_Map.
  destruct (negb (Status_ok (map_status (World.env w3)))).
  { cbn [fst snd]. destruct (Hinv w3 I3) as (A & B & C & D1 & D2).
    repeat split; try assumption; try apply A; try contradiction;
      try discriminate. }
  cbn [fst snd].
  set (w4 := set_sub s _ (set_sub s _ (set_sub s _ (set_sub s _ (set_sub s _ w3))))).
  assert (I4 : inv w4).
  { unfold w4. do 4 (apply Hstep; [reflexivity..|]).
    destruct I3 as (Hm & Hs & Hn & Hi). unfold inv. rewrite sub_set_sub.
    repeat split; try assumption; apply Hm. }
  destruct (Hinv w4 I4) as (A & B & C & D1 & D2).
  repeat split; try assumption; try apply A; try contradiction;
    try discriminate.
Qed.

(** X14: [Client::ReloadSubscriber]: whatever the outcome, connected or
    not, a reload leaves the subscriber with the update count of the SCB,
    so that the next call reports success without contacting the server: a
    failed reload is not tried again until the count changes.  The shared
    memory and the subscriber's slot are untouched, at most one request is
    made, and none at all without a connection. *)
Theorem ReloadSubscriber_settles (s : Z) (w : World.t) :
  is_uint16 (pub_updates s w) ->
  let w' := snd (ReloadSubscriber s w) in
  ReloadSubscriber s w' = (Ok tt, w')
  /\ same_memory w w'
  /\ Subscriber.slot_ (sub s w') = Subscriber.slot_ (sub s w)
  /\ (World.rpcs w' <= S (World.rpcs w))%nat
  /\ (World.socket_connected w = false ->
      World.rpcs w' = World.rpcs w /\ World.trace w' = World.trace w).
Proof.
  intros Hu w'. subst w'.
  destruct (ReloadSubscriber_facts s w Hu) as (Hm & Hs & _ & (_ & Ha) & Hr & _ & Hd).
  split; [exact Ha|]. split; [exact Hm|]. split; [exact Hs|].
  split; [exact Hr|exact Hd].
Qed.

Lemma ReloadSubscriber_settles_witness :
  ReloadSubscriber 200
    (snd (ReloadSubscriber 200
            (World.with_socket_connected false Scenario.placeholder_world)))
  = (Ok tt,
     snd (ReloadSubscriber 200
            (World.with_socket_connected false Scenario.placeholder_world))).
Proof.
  apply (ReloadSubscriber_settles 200
           (World.with_socket_connected false Scenario.placeholder_world)).
  unfold is_uint16. vm_compute. split; [discriminate|reflexivity].
Defined.

(** X15: [Client::ReloadSubscriber]: a reload that succeeds after a change
    takes the slot geometry, the trigger and poll descriptors and the
    reliable publishers' triggers from the response, maps the region anew
    and keeps the name, the ids, the options and the current slot of the
    subscriber; the subscriber is a placeholder afterwards exactly when
    the response reports no slots. *)
Theorem ReloadSubscriber_remaps (s : Z) (w w' : World.t) :
  Channel.NumUpdates (Subscriber.channel (sub s w)) <> pub_updates s w ->
  ReloadSubscriber s w = (Ok tt, w') ->
  let x := next_exchange w in
  let resp := Response.create_subscriber (Exchange.response x) in
  let o := sub s w in
  let ch := Subscriber.channel o in
  sub s w'
  = Subscriber.mk
      (Channel.mk (Channel.name_ ch)
                  (CreateSubscriberResponse.num_slots resp)
                  (CreateSubscriberResponse.slot_size resp)
                  (Channel.channel_id_ ch) (Channel.type_ ch)
                  (wrap_uint16 (pub_updates s w))
                  (map_address (World.env w)))
      (Subscriber.slot_ o) (Subscriber.subscriber_id_ o)
      (Subscriber.options_ o)
      (fd_at (Exchange.fds x) (CreateSubscriberResponse.trigger_fd_index resp))
      (fd_at (Exchange.fds x) (CreateSubscriberResponse.poll_fd_index resp))
      (map (fd_at (Exchange.fds x))
           (CreateSubscriberResponse.reliable_pub_trigger_fd_indexes resp))
  /\ Subscriber.IsPlaceholder (sub s w')
     = (CreateSubscriberResponse.num_slots resp =? 0)
  /\ CreateSubscriberResponse.error resp = EmptyString
  /\ World.socket_connected w = true
  /\ World.trace w'
     = World.trace w
       ++ [EvRequest (CreateSubscriberRequest (Channel.name_ ch)
                        (Subscriber.subscriber_id_ o) false false EmptyString)].
Proof.
  intros N H x resp o ch. rewrite (ReloadSubscriber_unfold s w) in H.
  cbn zeta in H. apply Z.eqb_neq in N. rewrite N in H.
  destruct (World.socket_connected w) eqn:Hc; cbn [negb] in H; [|discriminate].
  set (w1 := set_sub s _ w) in H.
  assert (Hx : next_exchange w1 = next_exchange w) by reflexivity.
  destruct (SendRequestReceiveResponse _ w1) as [[rr|st] w2] eqn:Er;
    [|discriminate].
  apply exchange_inv in Er as [-> ->]. rewrite Hx in H. cbn [fst snd] in H.
  fold x in H. fold resp in H.
  destruct (is_empty_string (CreateSubscriberResponse.error resp)) eqn:Ee;
    cbn [negb] in H; [|discriminate].
  unfold Channel_Map in H.
  destruct (negb (Status_ok (map_status _))); [discriminate|].
  injection H as <-.
  split.
  { autorewrite with world. unfold w1. autorewrite with world. cbn.
    rewrite add_fds_map. reflexivity. }
  split.
  { autorewrite with world. reflexivity. }
  split.
  { destruct (CreateSubscriberResponse.error resp); [reflexivity|discriminate]. }
  split; [reflexivity|]. reflexivity.
Qed.

Lemma ReloadSubscriber_remaps_witness :
  Subscriber.IsPlaceholder
    (sub 200 (snd (ReloadSubscriber 200 Faults.waking_world)))
  = (3 =? 0).
Proof.
  apply (ReloadSubscriber_remaps 200 Faults.waking_world
           (snd (ReloadSubscriber 200 Faults.waking_world))).
  - vm_compute. discriminate.
  - vm_compute. reflexivity.
Defined.

(** ** Reading: requests and callbacks *)

Lemma grows_refl (P : Event -> Prop) (w : World.t) : grows P w w.
Proof. exists []. rewrite app_nil_r. split; [reflexivity|constructor]. Qed.

Lemma grows_trans (P : Event -> Prop) (w1 w2 w3 : World.t) :
  grows P w1 w2 -> grows P w2 w3 -> grows P w1 w3.
Proof.
  intros (n1 & E1 & F1) (n2 & E2 & F2). exists (n1 ++ n2).
  rewrite E2, E1, app_assoc. split; [reflexivity|].
  apply Forall_app. split; assumption.
Qed.

Lemma grows_event (P : Event -> Prop) (e : Event) (w : World.t) :
  P e -> grows P w (add_event e w).
Proof.
  intros H. exists [e]. split; [reflexivity|]. constructor; [exact H|constructor].
Qed.

Lemma grows_same (P : Event -> Prop) (w w' : World.t) :
  World.trace w' = World.trace w -> grows P w w'.
Proof.
  intros H. exists []. rewrite app_nil_r. split; [exact H|constructor].
Qed.

Lemma read_frame_refl (s : Z) (w : World.t) : read_frame s w w.
Proof. repeat split. apply grows_refl. Qed.

Lemma read_frame_trans (s : Z) (w1 w2 w3 : World.t) :
  read_frame s w1 w2 -> read_frame s w2 w3 -> read_frame s w1 w3.
Proof.
  intros (A1 & B1 & C1 & D1) (A2 & B2 & C2 & D2).
  split; [congruence|]. split; [congruence|]. split; [congruence|].
  apply (grows_trans _ w1 w2 w3 D1).
  destruct D2 as (n & E & F). exists n. split; [exact E|].
  eapply Forall_impl; [exact F|]. intros e. unfold own_callback.
  destruct e; auto. rewrite B1. auto.
Qed.

Lemma report_drop_quiet (s last n : Z) (w : World.t) :
  read_frame s w (report_drop s last n w).
Proof.
  unfold report_drop. destruct (_ && _); [|apply read_frame_refl].
  destruct (World.dropped_message_callbacks_ w !! s) as [cb|] eqn:E;
    [|apply read_frame_refl].
  repeat split. apply grows_event. cbn. auto.
Qed.

Lemma take_slot_quiet (s : Z) (mode : ReadMode) (clear : bool) (w : World.t) :
  read_frame s w (snd (take_slot s mode clear w)).
Proof.
  unfold take_slot.
  set (w0 := if clear then add_event (EvClearPollFd s) w else w).
  assert (H0 : read_frame s w w0).
  { unfold w0. destruct clear; [|apply read_frame_refl].
    repeat split. apply grows_event. exact I. }
  assert (H1 : forall c, read_frame s w (World.with_ccb c w0)).
  { intros c. apply (read_frame_trans s w w0); [exact H0|].
    repeat split. apply grows_same. reflexivity. }
  assert (Hmove :
    forall slot w1,
      (exists c, w1 = World.with_ccb c w0) ->
      read_frame s w
        (snd (match slot with
              | None => (None, add_event (EvTriggerReliablePublishers s) w1)
              | Some new_slot =>
                  (Some new_slot,
                   report_drop s
                     match Subscriber.CurrentSlot (sub s w0) with
                     | Some slot => MessageSlot.ordinal (CCB.slot slot (World.ccb w0))
                     | None => -1
                     end new_slot
                     (set_sub s (Subscriber.SetSlot (Some new_slot)) w1))
              end))).
  { intros slot w1 [c ->]. destruct slot as [n|]; cbn [snd].
    - apply (read_frame_trans s w (set_sub s (Subscriber.SetSlot (Some n))
                                            (World.with_ccb c w0))).
      + apply (read_frame_trans s w (World.with_ccb c w0)); [apply H1|].
        repeat split. apply grows_same. reflexivity.
      + apply report_drop_quiet.
    - apply (read_frame_trans s w (World.with_ccb c w0)); [apply H1|].
      repeat split. apply grows_event. exact I. }
  destruct mode.
  - unfold Subscriber_NextSlot. destruct (NextSlot _ _ _ _) as [slot c].
    apply Hmove. eauto.
  - unfold Subscriber_LastSlot. destruct (LastSlot _ _ _ _) as [slot c].
    apply Hmove. eauto.
Qed.

Lemma ReadMessageInternal_quiet (s : Z) (mode : ReadMode) :
  forall (fuel : nat) (pass clear : bool) (w : World.t) r (w' : World.t),
    ReadMessageInternal fuel s mode pass clear w = Some (r, w') ->
    read_frame s w w'.
Proof.
  induction fuel as [|fuel IH]; intros pass clear w r w' H; [discriminate|].
  cbn [ReadMessageInternal] in H.
  pose proof (take_slot_quiet s mode clear w) as T.
  destruct (take_slot s mode clear w) as [[n|] w1]; cbn [snd] in T.
  - destruct (is_activation s n w1 && negb pass).
    + apply (read_frame_trans s w w1); [exact T|]. eapply IH. exact H.
    + injection H as <- <-. exact T.
  - injection H as <- <-. exact T.
Qed.

Lemma grows_impl (P Q : Event -> Prop) (w w' : World.t) :
  (forall e, P e -> Q e) -> grows P w w' -> grows Q w w'.
Proof.
  intros H (n & E & F). exists n. split; [exact E|].
  eapply Forall_impl; [exact F|exact H].
Qed.

Lemma no_callback_own (s : Z) (w : World.t) (e : Event) :
  no_callback e -> own_callback s w e.
Proof. destruct e; cbn; auto. contradiction. Qed.

Lemma exchange_grows (req : Request) (w : World.t) :
  grows no_callback w (snd (SendRequestReceiveResponse req w)).
Proof.
  unfold SendRequestReceiveResponse. cbn zeta.
  repeat (match goal with |- context [if ?b then _ else _] => destruct b end);
    cbn [snd].
  all: first
    [ apply grows_same; reflexivity
    | apply (grows_trans _ _ (World.with_rpcs (S (World.rpcs w)) w));
      [apply grows_same; reflexivity|apply grows_event; exact I]
    | exists [EvRequest req; EvSocketClose]; split;
      [cbn; rewrite <- app_assoc; reflexivity
      |repeat (constructor; [exact I|]); constructor] ].
Qed.

Lemma ReloadReliablePublishersIfNecessary_quiet (s : Z) (w : World.t) :
  let w' := snd (ReloadReliablePublishersIfNecessary s w) in
  World.dropped_message_callbacks_ w' = World.dropped_message_callbacks_ w
  /\ grows no_callback w w'
  /\ (World.rpcs w' <= S (World.rpcs w))%nat
  /\ (Channel.NumUpdates (Subscriber.channel (sub s w)) = pub_updates s w
      \/ World.socket_connected w = false -> w' = w).
Proof.
  cbn zeta. destruct (World.socket_connected w) eqn:Hc.
  2:{ unfold ReloadReliablePublishersIfNecessary.
      rewrite (bind_fails _ _ w w _ (CheckConnected_fails w Hc)).
      cbn [snd]. repeat split; auto. apply grows_refl. }
  rewrite (ReloadReliablePublishersIfNecessary_unfold s w Hc). cbn zeta.
  destruct (Channel.NumUpdates _ =? pub_updates s w) eqn:E.
  { cbn [snd]. repeat split; auto. apply grows_refl. }
  apply Z.eqb_neq in E.
  set (req := GetTriggersRequest _). set (w1 := set_sub s _ w).
  pose proof (exchange_keeps req w1) as K. cbn zeta in K.
  pose proof (exchange_grows req w1) as G.
  destruct (SendRequestReceiveResponse req w1) as [[rr|st] w2]; cbn [snd] in *.
  - destruct K as (_ & _ & _ & _ & _ & _ & _ & Kc & Kr).
    split; [exact Kc|]. split.
    { apply (grows_trans _ w w1); [apply grows_same; reflexivity|].
      apply (grows_trans _ w1 w2); [exact G|]. apply grows_same. reflexivity. }
    split; [cbn; rewrite Kr; reflexivity|].
    intros [?|?]; [contradiction|discriminate].
  - destruct K as (_ & _ & _ & _ & _ & _ & _ & Kc & Kr).
    split; [exact Kc|]. split.
    { apply (grows_trans _ w w1); [apply grows_same; reflexivity|]. exact G. }
    split; [rewrite Kr; reflexivity|].
    intros [?|?]; [contradiction|discriminate].
Qed.

Lemma ReloadSubscriber_quiet (s : Z) (w : World.t) :
  let w' := snd (ReloadSubscriber s w) in
  World.dropped_message_callbacks_ w' = World.dropped_message_callbacks_ w
  /\ grows no_callback w w'.
Proof.
  cbn zeta. rewrite (ReloadSubscriber_unfold s w). cbn zeta.
  destruct (Channel.NumUpdates _ =? pub_updates s w).
  { cbn [snd]. split; [reflexivity|apply grows_refl]. }
  set (w1 := set_sub s _ w).
  destruct (negb (World.socket_connected w)).
  { cbn [snd]. split; [reflexivity|apply grows_same; reflexivity]. }
  set (req := CreateSubscriberRequest _ _ _ _ _).
  pose proof (exchange_keeps req w1) as K. cbn zeta in K.
  pose proof (exchange_grows req w1) as G.
  destruct K as (_ & _ & _ & _ & _ & _ & _ & Kc & _).
  assert (G1 : grows no_callback w (snd (SendRequestReceiveResponse req w1))).
  { apply (grows_trans _ w w1); [apply grows_same; reflexivity|exact G]. }
  destruct (SendRequestReceiveResponse req w1) as [[rr|st] w2]; cbn [snd] in *;
    [|split; [exact Kc|exact G1]].
  destruct (negb (is_empty_string _)); cbn [snd]; [split; [exact Kc|exact G1]|].
  destruct (Channel_Map _ _); cbn [snd].
  - split; [exact Kc|]. apply (grows_trans _ w w2); [exact G1|].
    apply grows_same. reflexivity.
  - split; [exact Kc|]. apply (grows_trans _ w w2); [exact G1|].
    apply grows_same. reflexivity.
Qed.

Lemma ReadMessage_frame (fuel : nat) (s : Z) (mode : ReadMode) (w : World.t)
    (r : StatusOr Message) (w' : World.t) :
  is_uint16 (pub_updates s w) ->
  ReadMessage fuel s mode w = Some (r, w') ->
  (World.rpcs w' <= S (World.rpcs w))%nat
  /\ World.dropped_message_callbacks_ w' = World.dropped_message_callbacks_ w
  /\ grows (own_callback s w) w w'
  /\ (Subscriber.IsPlaceholder (sub s w) = false ->
      Channel.NumUpdates (Subscriber.channel (sub s w)) = pub_updates s w ->
      World.rpcs w' = World.rpcs w).
Proof.
  intros Hu H. unfold ReadMessage in H.
  assert (Hread : forall w0,
    match ReloadReliablePublishersIfNecessary s w0 with
    | (Failed st, w1) => Some (Failed st, w1)
    | (Ok _, w1) => ReadMessageInternal fuel s mode false true w1
    end = Some (r, w') ->
    World.dropped_message_callbacks_ w' = World.dropped_message_callbacks_ w0
    /\ grows (own_callback s w0) w0 w'
    /\ (World.rpcs w' <= S (World.rpcs w0))%nat
    /\ (Channel.NumUpdates (Subscriber.channel (sub s w0)) = pub_updates s w0
        \/ World.socket_connected w0 = false -> World.rpcs w' = World.rpcs w0)).
  { intros w0 H0.
    pose proof (ReloadReliablePublishersIfNecessary_quiet s w0) as Q.
    cbn zeta in Q.
    destruct (ReloadReliablePublishersIfNecessary s w0) as [[u|st] w1];
      cbn [snd] in Q; destruct Q as (Qc & Qg & Qr & Qs).
    - apply ReadMessageInternal_quiet in H0 as (A & B & C & D).
      split; [congruence|]. split.
      { apply (grows_trans _ w0 w1).
        - apply (grows_impl no_callback); [apply no_callback_own|exact Qg].
        - destruct D as (n & E & F). exists n. split; [exact E|].
          eapply Forall_impl; [exact F|]. intros e. unfold own_callback.
          destruct e; auto. rewrite Qc. auto. }
      split; [rewrite A; exact Qr|].
      intros Hs. rewrite A, (Qs Hs). reflexivity.
    - injection H0 as <- <-. split; [exact Qc|]. split.
      { apply (grows_impl no_callback); [apply no_callback_own|exact Qg]. }
      split; [exact Qr|]. intros Hs. rewrite (Qs Hs). reflexivity. }
  destruct (Subscriber.IsPlaceholder (sub s w)) eqn:Hp.
  2:{ destruct (Hread w H) as (A & B & C & D).
      repeat split; auto. }
  pose proof (ReloadSubscriber_facts s w Hu) as F. cbn zeta in F.
  pose proof (ReloadSubscriber_quiet s w) as Q. cbn zeta in Q.
  destruct (ReloadSubscriber s w) as [status w1]; cbn [snd fst] in *.
  destruct F as (Fm & Fs & Fn & (Fu & Fa) & Fr & _).
  destruct Q as (Qc & Qg).
  destruct (negb _ || _).
  - injection H as <- <-. split; [exact Fr|]. split; [exact Qc|]. split.
    + apply (grows_trans _ w w1).
      * apply (grows_impl no_callback); [apply no_callback_own|exact Qg].
      * apply grows_event. exact I.
    + discriminate.
  - destruct (Hread w1 H) as (A & B & C & D).
    split.
    { rewrite D; [exact Fr|]. left. rewrite Fn, Fu. reflexivity. }
    split; [congruence|]. split; [|discriminate].
    apply (grows_trans _ w w1).
    + apply (grows_impl no_callback); [apply no_callback_own|exact Qg].
    + destruct B as (n & E & F). exists n. split; [exact E|].
      eapply Forall_impl; [exact F|]. intros e. unfold own_callback.
      destruct e; auto. rewrite Qc. auto.
Qed.

(** X16: [Client::ReadMessage]: a read contacts the server at most once:
    when the placeholder reload has asked the server, the reload of the
    reliable publishers that follows finds the count up to date.  A
    subscriber that is up to date makes no request, and a placeholder
    without a connection reads the empty message without any request. *)
Theorem ReadMessage_at_most_one_request (fuel : nat) (s : Z) (mode : ReadMode)
    (w : World.t) (r : StatusOr Message) (w' : World.t) :
  is_uint16 (pub_updates s w) ->
  ReadMessage fuel s mode w = Some (r, w') ->
  (World.rpcs w' <= S (World.rpcs w))%nat
  /\ (Subscriber.IsPlaceholder (sub s w) = false ->
      Channel.NumUpdates (Subscriber.channel (sub s w)) = pub_updates s w ->
      World.rpcs w' = World.rpcs w)
  /\ (Subscriber.IsPlaceholder (sub s w) = true ->
      World.socket_connected w = false ->
      World.rpcs w' = World.rpcs w /\ r = Ok Message_empty).
Proof.
  intros Hu H.
  destruct (ReadMessage_frame fuel s mode w r w' Hu H) as (Hr & _ & _ & Hq).
  split; [exact Hr|]. split; [exact Hq|].
  intros Hp Hc. unfold ReadMessage in H. rewrite Hp in H.
  pose proof (ReloadSubscriber_facts s w Hu) as F. cbn zeta in F.
  destruct F as (_ & _ & Fn & (Fu & _) & _ & _ & Fd).
  destruct (Fd Hc) as [Fr _].
  rewrite (ReloadSubscriber_unfold s w) in *. cbn zeta in *.
  destruct (Channel.NumUpdates (Subscriber.channel (sub s w)) =? pub_updates s w).
  - cbn [snd] in *. rewrite Hp in H. rewrite orb_true_r in H.
    injection H as <- <-. split; reflexivity.
  - rewrite Hc in *. cbn [negb snd] in *. cbn [orb] in H.
    injection H as <- <-. split; reflexivity.
Qed.

Lemma ReadMessage_at_most_one_request_witness :
  (World.rpcs (snd (Scenario.read Faults.waking_world))
   <= S (World.rpcs Faults.waking_world))%nat.
Proof.
  assert (Hu : is_uint16 (pub_updates 200 Faults.waking_world)).
  { unfold is_uint16. vm_compute. split; [discriminate|reflexivity]. }
  destruct (ReadMessage 2 200 kReadNext Faults.waking_world)
    as [[r w']|] eqn:E; [|vm_compute in E; discriminate].
  replace (snd (Scenario.read Faults.waking_world)) with w'.
  - apply (ReadMessage_at_most_one_request 2 200 kReadNext
             Faults.waking_world r w' Hu E).
  - unfold Scenario.read. rewrite E. destruct r; reflexivity.
Defined.

Lemma own_callback_none (s : Z) (w : World.t) (new : list Event) :
  World.dropped_message_callbacks_ w !! s = None ->
  Forall (own_callback s w) new -> dropped_message_calls new = [].
Proof.
  intros Hn F. induction F as [|e rest He _ IH]; [reflexivity|].
  unfold dropped_message_calls in *. cbn [List.filter].
  destruct e; try exact IH.
  destruct He as [_ He]. congruence.
Qed.

(** X17: [Client::ReadMessage], [Client::ReadMessageInternal]: a read
    leaves the registry of callbacks as it is, and the only callback it ever
    calls is the one registered for the subscriber that reads, with that
    subscriber as argument; without a registered callback no callback is
    called. *)
Theorem ReadMessage_calls_own_callback (fuel : nat) (s : Z) (mode : ReadMode)
    (w : World.t) (r : StatusOr Message) (w' : World.t) :
  is_uint16 (pub_updates s w) ->
  ReadMessage fuel s mode w = Some (r, w') ->
  World.dropped_message_callbacks_ w' = World.dropped_message_callbacks_ w
  /\ (exists new,
        World.trace w' = World.trace w ++ new
        /\ Forall (own_callback s w) new)
  /\ (World.dropped_message_callbacks_ w !! s = None ->
      dropped_message_calls (World.trace w')
      = dropped_message_calls (World.trace w)).
Proof.
  intros Hu H.
  destruct (ReadMessage_frame fuel s mode w r w' Hu H)
    as (_ & Hc & (new & E & F) & _).
  split; [exact Hc|]. split; [exists new; split; assumption|].
  intros Hn. rewrite E. unfold dropped_message_calls.
  rewrite List.filter_app.
  change (List.filter _ new) with (dropped_message_calls new).
  rewrite (own_callback_none s w new Hn F), app_nil_r. reflexivity.
Qed.

Lemma ReadMessage_calls_own_callback_witness :
  exists new,
    World.trace (snd (Scenario.read Scenario.dropped_world))
    = World.trace Scenario.dropped_world ++ new
    /\ Forall (own_callback 200 Scenario.dropped_world) new.
Proof.
  assert (Hu : is_uint16 (pub_updates 200 Scenario.dropped_world)).
  { unfold is_uint16. vm_compute. split; [discriminate|reflexivity]. }
  destruct (ReadMessage 2 200 kReadNext Scenario.dropped_world)
    as [[r w']|] eqn:E; [|vm_compute in E; discriminate].
  replace (snd (Scenario.read Scenario.dropped_world)) with w'.
  - apply (ReadMessage_calls_own_callback 2 200 kReadNext
             Scenario.dropped_world r w' Hu E).
  - unfold Scenario.read. rewrite E. destruct r; reflexivity.
Defined.

(** ** Reading: what a read hands out *)

(** X25: [Client::ReadMessage], [Client::ReadMessageInternal] reading
    forward: the read returns, within one call per slot ahead of the cursor
    and one more.  It skips every slot whose prefix carries the Activate
    flag and returns the message of the first slot without it, which
    becomes the current slot; when all the slots ahead carry the flag, or
    none is ahead, it returns the empty message with the cursor on the last
    slot of the list.  This holds for a subscriber that was mapped before
    the call and for a placeholder that the call wakes up. *)
Theorem ReadMessage_forward_skips_activation (s : Z) (n fuel : nat)
    (w w1 : World.t) (l : list Z) :
  read_entry s w = Some w1 ->
  mapped s w1 ->
  list_walk n (cursor_next s w1) (World.ccb w1) = Some l ->
  (length l < fuel)%nat ->
  exists w',
    ReadMessage fuel s kReadNext w
    = Some (Ok (match first_message s w1 l with
                | Some slot => message_at s slot w1
                | None => Message_empty
                end), w')
    /\ Subscriber.CurrentSlot (sub s w')
       = match first_message s w1 l with
         | Some slot => Some slot
         | None => cursor_after s w1 l
         end.
Proof.
  intros He Hmap W Hf.
  rewrite (ReadMessage_enters fuel s kReadNext w w1 He).
  exact (ReadMessageInternal_forward s l n fuel true w1 Hmap W Hf).
Qed.

Lemma ReadMessage_forward_skips_activation_witness :
  (exists w',
     ReadMessage 3 200 kReadNext Scenario.activation_world
     = Some (Ok (Message_of 2 4224 2 1000), w')
     /\ Subscriber.CurrentSlot (sub 200 w') = Some 320)
  /\ (exists w',
        ReadMessage 2 200 kReadNext Scenario.activation_only_world
        = Some (Ok Message_empty, w')
        /\ Subscriber.CurrentSlot (sub 200 w') = Some 160)
  /\ (exists w',
        ReadMessage 1 200 kReadNext Faults.waking_world
        = Some (Ok Message_empty, w')
        /\ Subscriber.CurrentSlot (sub 200 w') = None).
Proof.
  split; [|split].
  - apply (ReadMessage_forward_skips_activation 200 2 3
             Scenario.activation_world
             (snd (ReloadReliablePublishersIfNecessary 200
                     Scenario.activation_world)) [160; 320]).
    + vm_compute. reflexivity.
    + prove_mapped.
    + vm_compute. reflexivity.
    + cbn. lia.
  - apply (ReadMessage_forward_skips_activation 200 1 2
             Scenario.activation_only_world
             (snd (ReloadReliablePublishersIfNecessary 200
                     Scenario.activation_only_world)) [160]).
    + vm_compute. reflexivity.
    + prove_mapped.
    + vm_compute. reflexivity.
    + cbn. lia.
  - apply (ReadMessage_forward_skips_activation 200 0 1
             Faults.waking_world
             (snd (ReloadReliablePublishersIfNecessary 200
                     (snd (ReloadSubscriber 200 Faults.waking_world)))) []).
    + vm_compute. reflexivity.
    + prove_mapped.
    + vm_compute. reflexivity.
    + cbn. lia.
Defined.



(** ** Publishing *)

Lemma GetMessageBuffer_unfold (p : Z) (w : World.t) :
  GetMessageBuffer p w
  = match ReloadSubscribersIfNecessary p (add_event (EvClearPollFd p) w) with
    | (Failed st, w1) => (Failed st, w1)
    | (Ok _, w1) =>
        let o := pub p w1 in
        if Publisher.IsReliable o && bool_decide (Publisher.CurrentSlot o = None)
        then
          if Publisher.NumSubscribers o =? 0 then (Ok 0, w1)
          else
            match FindFreeSlot true (Publisher.GetPublisherId o) (World.ccb w1) with
            | (None, c) => (Ok 0, World.with_ccb c w1)
            | (Some s, c) =>
                current_buffer p
                  (set_pub p (Publisher.SetSlot (Some s)) (World.with_ccb c w1))
            end
        else current_buffer p w1
    end.
Proof.
  unfold GetMessageBuffer. unfold bind at 1. cbn [emit modify].
  unfold bind at 1.
  destruct (ReloadSubscribersIfNecessary p _) as [[u|st] w1]; [|reflexivity].
  unfold bind at 1. cbn [get]. cbn zeta.
  destruct (_ && _); [|reflexivity].
  destruct (_ =? 0); [reflexivity|].
  unfold bind at 1. unfold Publisher_FindFreeSlot.
  destruct (FindFreeSlot _ _ _) as [[s|] c]; reflexivity.
Qed.

Lemma current_buffer_unfold (p : Z) (w : World.t) :
  current_buffer p w
  = let o := pub p w in
    let buffer := GetCurrentBufferAddress (Publisher.channel o)
                    (Publisher.CurrentSlot o) (World.ccb w) in
    if buffer =? 0
    then (Failed (InternalError
                    ("Channel " ++ Channel.Name (Publisher.channel o)
                     ++ " has no buffer")%string), w)
    else (Ok buffer, w).
Proof.
  unfold current_buffer, bind, get. cbn zeta.
  destruct (_ =? 0); reflexivity.
Qed.

(** X18: [Client::GetMessageBuffer]: a publisher that already holds a slot
    is given the buffer of that very slot; no slot is allocated, the CCB and
    the buffers are unchanged, and the address handed out is never null. *)
Theorem GetMessageBuffer_holding (p slot : Z) (w : World.t) :
  Publisher.CurrentSlot (pub p w) = Some slot ->
  let r := GetMessageBuffer p w in
  let addr := Channel.GetBufferAddress (Publisher.channel (pub p w))
                (MessageSlot.id (CCB.slot slot (World.ccb w))) in
  World.ccb (snd r) = World.ccb w
  /\ World.buffers (snd r) = World.buffers w
  /\ Publisher.CurrentSlot (pub p (snd r)) = Some slot
  /\ (forall a, fst r = Ok a -> a = addr /\ addr <> 0)
  /\ (forall u w1,
        ReloadSubscribersIfNecessary p (add_event (EvClearPollFd p) w)
        = (Ok u, w1) ->
        r = (if addr =? 0
             then Failed (InternalError
                    ("Channel " ++ Channel.Name (Publisher.channel (pub p w))
                     ++ " has no buffer")%string)
             else Ok addr, w1)).
Proof.
  intros Hs r addr. subst r. rewrite GetMessageBuffer_unfold.
  pose proof (ReloadSubscribersIfNecessary_frame p (add_event (EvClearPollFd p) w))
    as F.
  destruct (ReloadSubscribersIfNecessary p _) as [[u|st] w1]; cbn [snd] in F;
    destruct F as (Fc & Fb & _ & _ & Fs & Fo & Fi & Fn & Fz & Fa);
    rewrite pub_add_event in *; cbn [World.ccb World.buffers add_event
                                      World.with_trace] in Fc, Fb.
  all: unfold Publisher.CurrentSlot in *.
  2:{ cbn [fst snd]. repeat split; auto; try congruence; intros; discriminate. }
  cbn zeta. rewrite Fs, Hs.
  rewrite bool_decide_eq_false_2 by discriminate. rewrite andb_false_r.
  rewrite current_buffer_unfold. cbn zeta. unfold Publisher.CurrentSlot.
  rewrite Fs, Hs. cbn [GetCurrentBufferAddress]. rewrite Fc.
  assert (Ea : Channel.GetBufferAddress (Publisher.channel (pub p w1))
                 (MessageSlot.id (CCB.slot slot (World.ccb w))) = addr).
  { unfold addr, Channel.GetBufferAddress. rewrite Fz, Fa. reflexivity. }
  rewrite Ea. unfold Channel.Name. rewrite Fn.
  destruct (addr =? 0) eqn:E0; cbn [fst snd].
  - repeat split; auto; try congruence; try (intros; discriminate).
  - apply Z.eqb_neq in E0.
    repeat split; auto; try congruence.
Qed.

Lemma GetMessageBuffer_holding_witness :
  World.ccb (snd (GetMessageBuffer 100 Scenario.unreliable_world))
  = World.ccb Scenario.unreliable_world
  /\ Publisher.CurrentSlot
       (pub 100 (snd (GetMessageBuffer 100 Scenario.unreliable_world)))
     = Some 160.
Proof.
  assert (Hs : Publisher.CurrentSlot (pub 100 Scenario.unreliable_world)
               = Some 160) by (vm_compute; reflexivity).
  destruct (GetMessageBuffer_holding 100 160 Scenario.unreliable_world Hs)
    as (Hc & _ & Hslot & _).
  split; [exact Hc|exact Hslot].
Defined.

(** X19: [Client::GetMessageBuffer]: a reliable publisher without a slot,
    that knows of a subscriber, takes the slot [FindFreeSlot] gives it:
    the slot becomes its current slot, is the last of the busy list, and
    the buffer handed out is the buffer of that slot. *)
Theorem GetMessageBuffer_allocates (p s : Z) (w w1 : World.t) (c' : CCB.t) :
  ReloadSubscribersIfNecessary p (add_event (EvClearPollFd p) w) = (Ok tt, w1) ->
  Publisher.IsReliable (pub p w) = true ->
  Publisher.CurrentSlot (pub p w) = None ->
  Publisher.NumSubscribers (pub p w1) <> 0 ->
  FindFreeSlot true (Publisher.GetPublisherId (pub p w)) (World.ccb w)
  = (Some s, c') ->
  let addr := Channel.GetBufferAddress (Publisher.channel (pub p w))
                (MessageSlot.id (CCB.slot s c')) in
  let w' := set_pub p (Publisher.SetSlot (Some s)) (World.with_ccb c' w1) in
  GetMessageBuffer p w
  = (if addr =? 0
     then Failed (InternalError
            ("Channel " ++ Channel.Name (Publisher.channel (pub p w))
             ++ " has no buffer")%string)
     else Ok addr, w')
  /\ Publisher.CurrentSlot (pub p w') = Some s
  /\ World.ccb w' = c'
  /\ SlotList.last (CCB.busy c') = s
  /\ s <> 0.
Proof.
  intros Hr Hrel Hnone Hsubs Hfind addr w'.
  pose proof (ReloadSubscribersIfNecessary_frame p (add_event (EvClearPollFd p) w))
    as F. rewrite Hr in F. cbn [snd] in F.
  destruct F as (Fc & Fb & _ & _ & Fs & Fo & Fi & Fn & Fz & Fa).
  rewrite pub_add_event in *.
  cbn [World.ccb World.buffers add_event World.with_trace] in Fc, Fb.
  rewrite GetMessageBuffer_unfold, Hr. cbn zeta.
  unfold Publisher.IsReliable, Publisher.CurrentSlot, Publisher.GetPublisherId in *.
  rewrite Fo, Fs, Fi, Hrel, Hnone, Fc.
  rewrite bool_decide_eq_true_2 by reflexivity. cbn [andb].
  apply Z.eqb_neq in Hsubs. rewrite Hsubs. rewrite Hfind.
  rewrite current_buffer_unfold. cbn zeta. fold w'.
  assert (Hp : pub p w' = Publisher.SetSlot (Some s) (pub p w1)).
  { unfold w'. rewrite pub_set_pub, pub_with_ccb. reflexivity. }
  assert (Hc : World.ccb w' = c') by reflexivity.
  rewrite Hp, Hc. cbn [Publisher.SetSlot Publisher.channel Publisher.CurrentSlot
                        Publisher.slot_ GetCurrentBufferAddress].
  assert (Ea : Channel.GetBufferAddress (Publisher.channel (pub p w1))
                 (MessageSlot.id (CCB.slot s c')) = addr).
  { unfold addr, Channel.GetBufferAddress. rewrite Fz, Fa. reflexivity. }
  rewrite Ea. unfold Channel.Name. rewrite Fn.
  split; [destruct (addr =? 0); reflexivity|].
  split; [reflexivity|]. split; [reflexivity|].
  pose proof (FindFreeSlot_busy true (Publisher.publisher_id_ (pub p w))
                (World.ccb w) s) as B.
  pose proof (FindFreeSlot_some_nonzero true (Publisher.publisher_id_ (pub p w))
                (World.ccb w) s) as Z0.
  rewrite Hfind in B, Z0. cbn [fst snd] in B, Z0. auto.
Qed.

Lemma GetMessageBuffer_allocates_witness :
  Publisher.CurrentSlot
    (pub 100
       (set_pub 100 (Publisher.SetSlot (Some 320))
          (World.with_ccb
             (snd (FindFreeSlot true 1 (World.ccb Faults.reliable_with_subscriber)))
             (add_event (EvClearPollFd 100) Faults.reliable_with_subscriber))))
  = Some 320.
Proof.
  apply (GetMessageBuffer_allocates 100 320 Faults.reliable_with_subscriber
           (add_event (EvClearPollFd 100) Faults.reliable_with_subscriber)
           (snd (FindFreeSlot true 1 (World.ccb Faults.reliable_with_subscriber)))).
  - vm_compute. reflexivity.
  - vm_compute. reflexivity.
  - vm_compute. reflexivity.
  - vm_compute. discriminate.
  - vm_compute. reflexivity.
Defined.

(** X20: [Client::PublishMessageInternal]: when reloading the subscribers
    fails, the publish fails with that status and nothing is published: the
    CCB, the buffers and the publisher's current slot are as before. *)
Theorem PublishMessage_reload_failure (p size : Z) (w w1 : World.t)
    (st : Status) :
  ReloadSubscribersIfNecessary p w = (Failed st, w1) ->
  PublishMessage p size w = Some (Failed st, w1)
  /\ World.ccb w1 = World.ccb w
  /\ World.buffers w1 = World.buffers w
  /\ Publisher.CurrentSlot (pub p w1) = Publisher.CurrentSlot (pub p w).
Proof.
  intros H. pose proof (ReloadSubscribersIfNecessary_frame p w) as F.
  rewrite H in F. cbn [snd] in F.
  destruct F as (Fc & Fb & _ & _ & Fs & _).
  unfold PublishMessage, PublishMessageInternal. rewrite H.
  repeat split; assumption.
Qed.

Lemma PublishMessage_reload_failure_witness :
  PublishMessage 100 7 Faults.cut_off
  = Some (Failed (OtherError 14 "connection reset"),
          snd (ReloadSubscribersIfNecessary 100 Faults.cut_off))
  /\ World.ccb (snd (ReloadSubscribersIfNecessary 100 Faults.cut_off))
     = World.ccb Faults.cut_off
  /\ World.buffers (snd (ReloadSubscribersIfNecessary 100 Faults.cut_off))
     = World.buffers Faults.cut_off
  /\ Publisher.CurrentSlot
       (pub 100 (snd (ReloadSubscribersIfNecessary 100 Faults.cut_off)))
     = Publisher.CurrentSlot (pub 100 Faults.cut_off).
Proof.
  apply (PublishMessage_reload_failure 100 7 Faults.cut_off).
  vm_compute. reflexivity.
Defined.

(** ** Frames of member functions *)

Section Keeps.
Context (F : World.t -> World.t -> Prop).
Hypothesis F_refl : forall w, F w w.
Hypothesis F_trans : forall w1 w2 w3, F w1 w2 -> F w2 w3 -> F w1 w3.

Lemma keeps_ret {A} (a : A) : keeps F (ret a).
Proof. intros w. apply F_refl. Qed.

Lemma keeps_fail {A} (st : Status) : keeps F (@fail A st).
Proof. intros w. apply F_refl. Qed.

Lemma keeps_get : keeps F get.
Proof. intros w. apply F_refl. Qed.

Lemma keeps_CheckConnected : keeps F CheckConnected.
Proof. intros w. unfold CheckConnected. destruct (negb _); apply F_refl. Qed.

Lemma keeps_modify (f : World.t -> World.t) :
  (forall w, F w (f w)) -> keeps F (modify f).
Proof. intros H w. apply H. Qed.

Lemma keeps_bind {A B} (m : M A) (k : A -> M B) :
  keeps F m -> (forall a, keeps F (k a)) -> keeps F (bind m k).
Proof.
  intros Hm Hk w. unfold bind. specialize (Hm w).
  destruct (m w) as [[a|st] w1]; cbn [snd] in *; [|exact Hm].
  apply (F_trans w w1); [exact Hm|apply Hk].
Qed.

Lemma keeps_if {A} (b : bool) (m1 m2 : M A) :
  keeps F m1 -> keeps F m2 -> keeps F (if b then m1 else m2).
Proof. destruct b; auto. Qed.
End Keeps.

(** ** The objects [CreatePublisher] makes *)

Lemma publishers_but_refl (k : Z) (w : World.t) : publishers_but k w w.
Proof. repeat split; auto. Qed.

Lemma publishers_but_trans (k : Z) (w1 w2 w3 : World.t) :
  publishers_but k w1 w2 -> publishers_but k w2 w3 -> publishers_but k w1 w3.
Proof.
  intros (A1 & P1 & B1 & C1) (A2 & P2 & B2 & C2).
  split; [|split; [auto|split; congruence]].
  intros q Hq. rewrite A2, A1 by exact Hq. reflexivity.
Qed.

Lemma publishers_but_same (k : Z) (w w' : World.t) :
  World.publishers w' = World.publishers w ->
  World.subscribers w' = World.subscribers w ->
  World.next_object w' = World.next_object w ->
  publishers_but k w w'.
Proof.
  intros A B C. split; [|split; [|split; assumption]].
  - intros q _. rewrite A. reflexivity.
  - rewrite A. auto.
Qed.

Lemma publishers_but_set_pub (k : Z) (f : Publisher.t -> Publisher.t)
    (w : World.t) :
  publishers_but k w (set_pub k f w).
Proof.
  split; [|split; [|split; reflexivity]].
  - intros q Hq. cbn. apply lookup_insert_ne. congruence.
  - intros _. cbn. rewrite lookup_insert_eq. eauto.
Qed.

Lemma keeps_update_pub (k : Z) (f : Publisher.t -> Publisher.t) :
  keeps (publishers_but k) (update_pub k f).
Proof. intros w. apply publishers_but_set_pub. Qed.

Lemma keeps_Publisher_Map (k : Z) : keeps (publishers_but k) (Publisher_Map k).
Proof.
  intros w. unfold Publisher_Map. destruct (Channel_Map _ _); cbn [snd].
  - apply publishers_but_set_pub.
  - apply publishers_but_refl.
Qed.

Lemma keeps_Publisher_FindFreeSlot (k : Z) (reliable : bool) (owner : Z) :
  keeps (publishers_but k) (Publisher_FindFreeSlot reliable owner).
Proof.
  intros w. unfold Publisher_FindFreeSlot. destruct (FindFreeSlot _ _ _).
  apply publishers_but_same; reflexivity.
Qed.

Lemma keeps_Publisher_Activate (k p slot : Z) (a b c : bool) :
  keeps (publishers_but k) (Publisher_ActivateSlotAndGetAnother p slot a b c).
Proof.
  intros w. unfold Publisher_ActivateSlotAndGetAnother.
  destruct (ActivateSlotAndGetAnother _ _ _ _ _ _ _ _ _) as [[msg c'] mem].
  apply publishers_but_same; reflexivity.
Qed.

Lemma keeps_emit (k : Z) (e : Event) : keeps (publishers_but k) (emit e).
Proof. intros w. apply publishers_but_same; reflexivity. Qed.

Ltac keeps_pub_step :=
  first
    [ apply keeps_ret; apply publishers_but_refl
    | apply keeps_fail; apply publishers_but_refl
    | apply keeps_get; apply publishers_but_refl
    | apply keeps_update_pub
    | apply keeps_Publisher_Map
    | apply keeps_Publisher_FindFreeSlot
    | apply keeps_Publisher_Activate
    | apply keeps_emit
    | apply keeps_modify; intros ?; apply publishers_but_same; reflexivity
    | match goal with
      | |- keeps _ (if ?b then _ else _) => destruct b
      | |- keeps _ (match ?x with Some _ => _ | None => _ end) => destruct x
      | |- keeps _ (bind _ _) =>
          apply keeps_bind; [apply publishers_but_trans| |intros ?]
      end ].

Lemma keeps_ActivateReliableChannel (k : Z) :
  keeps (publishers_but k) (ActivateReliableChannel k).
Proof.
  unfold ActivateReliableChannel, pub_channel. repeat keeps_pub_step.
Qed.

(** X21: [Client::CreatePublisher]: the publisher made is a new object: it
    is at the address no object had, the other publishers and all
    subscribers are untouched; and when the creation fails at any stage,
    also after the object was made, no object is left behind. *)
Theorem CreatePublisher_objects (channel_name : string)
    (slot_size num_slots : Z) (opts : PublisherOptions.t) (w : World.t)
    (res : StatusOr Z) (w' : World.t) :
  World.publishers w !! World.next_object w = None ->
  CreatePublisher channel_name slot_size num_slots opts w = (res, w') ->
  let k := World.next_object w in
  (forall q, q <> k -> World.publishers w' !! q = World.publishers w !! q)
  /\ World.subscribers w' = World.subscribers w
  /\ (forall p, res = Ok p ->
        p = k /\ World.next_object w' = k + 1
        /\ is_Some (World.publishers w' !! p))
  /\ (forall st, res = Failed st -> World.publishers w' = World.publishers w).
Proof.
  intros Hfresh H k. unfold CreatePublisher in H.
  unfold bind at 1 in H. unfold CheckConnected in H.
  destruct (negb (World.socket_connected w)).
  { injection H as <- <-. repeat split; auto; intros; discriminate. }
  unfold bind at 1 in H.
  set (req := CreatePublisherRequest _ _ _ _ _ _ _) in H.
  pose proof (exchange_keeps req w) as K. cbn zeta in K.
  destruct (SendRequestReceiveResponse req w) as [[rr|st] w2]; cbn [fst snd] in *;
    destruct K as (Kp & Ks & _ & _ & _ & _ & Kn & _).
  2:{ injection H as <- <-. rewrite Kp, Ks.
      repeat split; auto; intros; discriminate. }
  destruct (negb (is_empty_string _)).
  { injection H as <- <-. rewrite Kp, Ks.
    repeat split; auto; intros; discriminate. }
  unfold bind at 1 in H. cbn [get] in H. unfold bind at 1 in H. cbn [modify] in H.
  rewrite Kn in H. fold k in H.
  set (w3 := World.with_next_object _ _) in H.
  set (inner := bind (Publisher_Map k) _) in H.
  assert (Hin : keeps (publishers_but k) inner).
  { unfold inner, pub_channel.
    repeat first [apply keeps_ActivateReliableChannel | keeps_pub_step]. }
  specialize (Hin w3). destruct Hin as (Ha & Hp & Hs & Hn).
  assert (H3 : forall q, q <> k -> World.publishers w3 !! q = World.publishers w !! q).
  { intros q Hq. unfold w3. cbn. rewrite lookup_insert_ne by congruence.
    rewrite Kp. reflexivity. }
  assert (Hret : forall p w4, inner w3 = (Ok p, w4) -> p = k).
  { intros p w4 E. unfold inner in E.
    repeat (apply bind_ok in E as (? & ? & _ & E)).
    injection E as <- _. reflexivity. }
  unfold on_failure in H. destruct (inner w3) as [[p|st] w4] eqn:Ei;
    cbn [fst snd] in *; injection H as <- <-.
  - split; [intros q Hq; rewrite Ha, H3 by exact Hq; reflexivity|].
    split; [rewrite Hs; exact Ks|]. split; [|intros; discriminate].
    intros p' [= <-]. rewrite (Hret p w4 eq_refl). split; [reflexivity|].
    split; [rewrite Hn; reflexivity|].
    apply Hp. unfold w3. cbn. rewrite lookup_insert_eq. eauto.
  - split.
    { intros q Hq. cbn. rewrite lookup_delete_ne by congruence.
      rewrite Ha, H3 by exact Hq. reflexivity. }
    split; [cbn; rewrite Hs; exact Ks|]. split; [intros; discriminate|].
    intros _ _. cbn. apply map_eq. intros q.
    destruct (decide (q = k)) as [->|Hq].
    + rewrite lookup_delete_eq. symmetry. exact Hfresh.
    + rewrite lookup_delete_ne by congruence. rewrite Ha, H3 by exact Hq.
      reflexivity.
Qed.

Lemma CreatePublisher_objects_witness :
  World.subscribers Scenario.unreliable_world
  = World.subscribers (Scenario.world0 [] 3)
  /\ World.publishers
       (snd (CreatePublisher "chan" 64 3 Scenario.unreliable_opts
               (Faults.world true OkStatus Faults.lost)))
     = World.publishers (Faults.world true OkStatus Faults.lost).
Proof.
  split.
  - apply (CreatePublisher_objects "chan" 64 3 Scenario.unreliable_opts
             (Scenario.world0 [] 3)
             (fst (CreatePublisher "chan" 64 3 Scenario.unreliable_opts
                     (Scenario.world0 [] 3)))
             Scenario.unreliable_world).
    + reflexivity.
    + apply surjective_pairing.
  - destruct (CreatePublisher_objects "chan" 64 3 Scenario.unreliable_opts
                (Faults.world true OkStatus Faults.lost)
                (fst (CreatePublisher "chan" 64 3 Scenario.unreliable_opts
                        (Faults.world true OkStatus Faults.lost)))
                (snd (CreatePublisher "chan" 64 3 Scenario.unreliable_opts
                        (Faults.world true OkStatus Faults.lost)))
                eq_refl (surjective_pairing _)) as (_ & _ & _ & Hfail).
    apply (Hfail (OtherError 14 "connection reset")).
    vm_compute. reflexivity.
Defined.

(** ** The objects [CreateSubscriber] makes *)

Lemma subscribers_but_refl (k : Z) (w : World.t) : subscribers_but k w w.
Proof. repeat split; auto. Qed.

Lemma subscribers_but_trans (k : Z) (w1 w2 w3 : World.t) :
  subscribers_but k w1 w2 -> subscribers_but k w2 w3 -> subscribers_but k w1 w3.
Proof.
  intros (A1 & B1 & C1 & D1 & E1 & F1) (A2 & B2 & C2 & D2 & E2 & F2).
  split; [|repeat split; congruence].
  intros q Hq. rewrite A2, A1 by exact Hq. reflexivity.
Qed.

Lemma subscribers_but_set_sub (k : Z) (f : Subscriber.t -> Subscriber.t)
    (w : World.t) :
  subscribers_but k w (set_sub k f w).
Proof.
  split; [|repeat split; reflexivity].
  intros q Hq. cbn. apply lookup_insert_ne. congruence.
Qed.

Lemma keeps_update_sub (k : Z) (f : Subscriber.t -> Subscriber.t) :
  keeps (subscribers_but k) (update_sub k f).
Proof. intros w. apply subscribers_but_set_sub. Qed.

Lemma keeps_Subscriber_Map (k : Z) : keeps (subscribers_but k) (Subscriber_Map k).
Proof.
  intros w. unfold Subscriber_Map. destruct (Channel_Map _ _); cbn [snd].
  - apply subscribers_but_set_sub.
  - apply subscribers_but_refl.
Qed.

Ltac keeps_sub_step :=
  first
    [ apply keeps_ret; apply subscribers_but_refl
    | apply keeps_fail; apply subscribers_but_refl
    | apply keeps_get; apply subscribers_but_refl
    | apply keeps_update_sub
    | apply keeps_Subscriber_Map
    | match goal with
      | |- keeps _ (if ?b then _ else _) => destruct b
      | |- keeps _ (bind _ _) =>
          apply keeps_bind; [apply subscribers_but_trans| |intros ?]
      end ].

(** X22: [Client::CreateSubscriber]: creating a subscriber never touches
    the shared memory or the publishers; on success the new object holds no
    slot, carries the geometry, ids and descriptors of the response, the
    update count of the response as a [uint16_t] and the mapping, exactly one
    request was sent and the descriptor triggered is the subscriber's own
    trigger; on failure no object is left behind. *)
Theorem CreateSubscriber_objects (channel_name : string)
    (opts : SubscriberOptions.t) (w : World.t)
    (res : StatusOr (Z * Z)) (w' : World.t) :
  World.subscribers w !! World.next_object w = None ->
  CreateSubscriber channel_name opts w = (res, w') ->
  let k := World.next_object w in
  let x := next_exchange w in
  let resp := Response.create_subscriber (Exchange.response x) in
  same_memory w w'
  /\ World.publishers w' = World.publishers w
  /\ (forall q, q <> k -> World.subscribers w' !! q = World.subscribers w !! q)
  /\ (forall p fd, res = Ok (p, fd) ->
        p = k /\ World.next_object w' = k + 1
        /\ World.subscribers w' !! p
           = Some
               (Subscriber.mk
                  (Channel.mk channel_name
                     (CreateSubscriberResponse.num_slots resp)
                     (CreateSubscriberResponse.slot_size resp)
                     (CreateSubscriberResponse.channel_id resp)
                     (CreateSubscriberResponse.type resp)
                     (wrap_uint16 (CreateSubscriberResponse.num_pub_updates resp))
                     (map_address (World.env w)))
                  None
                  (CreateSubscriberResponse.subscriber_id resp) opts
                  (fd_at (Exchange.fds x)
                     (CreateSubscriberResponse.trigger_fd_index resp))
                  (fd_at (Exchange.fds x)
                     (CreateSubscriberResponse.poll_fd_index resp))
                  (map (fd_at (Exchange.fds x))
                     (CreateSubscriberResponse.reliable_pub_trigger_fd_indexes
                        resp)))
        /\ fd = fd_at (Exchange.fds x)
                  (CreateSubscriberResponse.trigger_fd_index resp)
        /\ World.trace w'
           = World.trace w
             ++ [EvRequest (CreateSubscriberRequest channel_name (-1)
                              (SubscriberOptions.IsReliable opts)
                              (SubscriberOptions.IsBridge opts)
                              (SubscriberOptions.Type_ opts))])
  /\ (forall st, res = Failed st -> World.subscribers w' = World.subscribers w).
Proof.
  intros Hfresh H k x resp. unfold CreateSubscriber in H.
  unfold bind at 1 in H. unfold CheckConnected in H.
  destruct (negb (World.socket_connected w)).
  { injection H as <- <-. unfold same_memory.
    repeat split; auto; intros; discriminate. }
  unfold bind at 1 in H.
  set (req := CreateSubscriberRequest _ _ _ _ _) in H.
  pose proof (exchange_keeps req w) as K. cbn zeta in K.
  destruct (SendRequestReceiveResponse req w) as [[rr|st] w2] eqn:Er;
    cbn [fst snd] in *;
    destruct K as (Kp & Ks & Kscb & Kccb & Kbuf & Kenv & Kn & _).
  2:{ injection H as <- <-. unfold same_memory. rewrite Kp, Ks.
      repeat split; auto; intros; discriminate. }
  apply exchange_inv in Er as [-> Ew2]. cbn [fst snd] in H.
  fold x in H. fold resp in H.
  destruct (negb (is_empty_string _)).
  { injection H as <- <-. unfold same_memory. rewrite Kp, Ks.
    repeat split; auto; intros; discriminate. }
  unfold bind at 1 in H. cbn [get] in H. unfold bind at 1 in H. cbn [modify] in H.
  rewrite Kn in H. fold k in H.
  set (w3 := World.with_next_object _ _) in H.
  set (inner := bind (Subscriber_Map k) _) in H.
  assert (Hin : keeps (subscribers_but k) inner).
  { unfold inner, sub_channel. repeat keeps_sub_step. }
  specialize (Hin w3). destruct Hin as (Ha & Hp & Hn & Hc & Hb & Hs).
  assert (H3 : forall q, q <> k -> World.subscribers w3 !! q = World.subscribers w !! q).
  { intros q Hq. unfold w3. cbn. rewrite lookup_insert_ne by congruence.
    rewrite Ks. reflexivity. }
  assert (Hmem : same_memory w (snd (inner w3))).
  { unfold same_memory. rewrite Hc, Hb, Hs. unfold w3. cbn.
    repeat split; assumption. }
  assert (Hpub : World.publishers (snd (inner w3)) = World.publishers w).
  { rewrite Hp. unfold w3. cbn. exact Kp. }
  unfold on_failure in H. destruct (inner w3) as [[p|st] w4] eqn:Ei;
    cbn [fst snd] in *; injection H as <- <-.
  - split; [exact Hmem|]. split; [exact Hpub|].
    split; [intros q Hq; rewrite Ha, H3 by exact Hq; reflexivity|].
    split; [|intros; discriminate].
    intros p' fd [= ->]. unfold inner, Subscriber_Map, Channel_Map in Ei.
    unfold bind at 1 in Ei.
    destruct (negb (Status_ok (map_status (World.env w3)))); [discriminate|].
    cbn -[set_sub sub] in Ei. injection Ei as <- <- <-.
    split; [reflexivity|]. split; [reflexivity|].
    assert (Hsub : forall f w0, World.subscribers (set_sub k f w0) !! k
                                = Some (f (sub k w0))).
    { intros f w0. cbn. apply lookup_insert_eq. }
    split.
    { rewrite Hsub. autorewrite with world.
      replace (sub k w3) with
        (new_Subscriber channel_name
           (CreateSubscriberResponse.slot_size resp)
           (CreateSubscriberResponse.num_slots resp)
           (CreateSubscriberResponse.channel_id resp)
           (CreateSubscriberResponse.subscriber_id resp)
           (CreateSubscriberResponse.type resp) opts).
      2:{ unfold w3, sub. cbn. rewrite lookup_insert_eq. reflexivity. }
      cbn. rewrite add_fds_map. cbn. rewrite Kenv. reflexivity. }
    split.
    { autorewrite with world. reflexivity. }
    cbn. rewrite Ew2. reflexivity.
  - split; [exact Hmem|]. split; [exact Hpub|].
    split.
    { intros q Hq. cbn. rewrite lookup_delete_ne by congruence.
      rewrite Ha, H3 by exact Hq. reflexivity. }
    split; [intros; discriminate|].
    intros _ _. cbn. apply map_eq. intros q.
    destruct (decide (q = k)) as [->|Hq].
    + rewrite lookup_delete_eq. symmetry. exact Hfresh.
    + rewrite lookup_delete_ne by congruence. rewrite Ha, H3 by exact Hq.
      reflexivity.
Qed.

Lemma CreateSubscriber_objects_witness :
  same_memory (Scenario.world0 [] 3)
    (snd (CreateSubscriber "chan" (SubscriberOptions.mk false false "t")
            (Scenario.world0 [] 3)))
  /\ World.publishers
       (snd (CreateSubscriber "chan" (SubscriberOptions.mk false false "t")
               (Scenario.world0 [] 3)))
     = World.publishers (Scenario.world0 [] 3).
Proof.
  destruct (CreateSubscriber_objects "chan" (SubscriberOptions.mk false false "t")
              (Scenario.world0 [] 3)
              (fst (CreateSubscriber "chan" (SubscriberOptions.mk false false "t")
                      (Scenario.world0 [] 3)))
              (snd (CreateSubscriber "chan" (SubscriberOptions.mk false false "t")
                      (Scenario.world0 [] 3)))
              eq_refl (surjective_pairing _)) as (Hm & Hp & _).
  split; [exact Hm|exact Hp].
Defined.

(** ** Polling and waiting *)

(** X23: [Client::GetPollFd] for a publisher: because the result lives in
    a [static] variable, an unreliable publisher is given the descriptor -1
    only until the function has served a reliable publisher; from then on
    it is given the poll descriptor of the reliable publisher served last. *)
Theorem GetPollFd_Publisher_static (p q : Z) (w w' : World.t) (st : pollfd) :
  Publisher.IsReliable (pub q w') = false ->
  fst (GetPollFd_Publisher q w' static_pollfd) = mk_pollfd (-1) POLLIN
  /\ (Publisher.IsReliable (pub p w) = true ->
      fst (GetPollFd_Publisher q w' (snd (GetPollFd_Publisher p w st)))
      = mk_pollfd (Publisher.poll_fd_ (pub p w)) POLLIN)
  /\ (Publisher.IsReliable (pub p w) = false ->
      snd (GetPollFd_Publisher p w st) = st).
Proof.
  intros Hq. unfold GetPollFd_Publisher. rewrite Hq. cbn.
  split; [reflexivity|]. split; intros ->; reflexivity.
Qed.

Lemma GetPollFd_Publisher_static_witness :
  fst (GetPollFd_Publisher 101 Faults.two_publishers static_pollfd)
  = mk_pollfd (-1) POLLIN
  /\ fst (GetPollFd_Publisher 101 Faults.two_publishers
            (snd (GetPollFd_Publisher 100 Faults.two_publishers static_pollfd)))
     = mk_pollfd 7 POLLIN.
Proof.
  destruct (GetPollFd_Publisher_static 100 101 Faults.two_publishers
              Faults.two_publishers static_pollfd)
    as (H1 & H2 & _); [vm_compute; reflexivity|].
  split; [exact H1|]. apply H2. vm_compute. reflexivity.
Defined.

(** X24: [Client::WaitForReliablePublisher], [Client::WaitForSubscriber]:
    waiting for a subscriber changes nothing; waiting for a reliable
    publisher changes only what reloading the subscribers changes; an
    unreliable publisher is refused before anything is reloaded; and
    without a coroutine the wait succeeds exactly when [poll] returns 1. *)
Theorem Wait_changes_nothing (wt : Waiter) (p s : Z) (w : World.t) :
  snd (WaitForSubscriber wt s w) = w
  /\ pub_frame p w (snd (WaitForReliablePublisher wt p w))
  /\ (World.socket_connected w = true ->
      Publisher.IsReliable (pub p w) = false ->
      WaitForReliablePublisher wt p w
      = (Failed (InternalError "Unreliable publishers can't wait"), w))
  /\ (World.socket_connected w = true ->
      fst (WaitForSubscriber wt s w)
      = if co_ wt
           || (poll wt (mk_pollfd (Subscriber.poll_fd_ (sub s w)) POLLIN) =? 1)
        then Ok tt
        else Failed (InternalError
               ("Error from poll waiting for subscriber: "
                ++ strerror_errno wt)%string))
  /\ (World.socket_connected w = true ->
      Publisher.IsReliable (pub p w) = true ->
      forall u w1,
        ReloadSubscribersIfNecessary p w = (Ok u, w1) ->
        WaitForReliablePublisher wt p w
        = (if co_ wt
              || (poll wt (mk_pollfd (Publisher.poll_fd_ (pub p w1)) POLLIN) =? 1)
           then Ok tt
           else Failed (InternalError
                  ("Error from poll waiting for reliable publisher: "
                   ++ strerror_errno wt)%string), w1)).
Proof.
  assert (Hsub : forall w0, snd (WaitForSubscriber wt s w0) = w0).
  { intros w0. unfold WaitForSubscriber, bind, CheckConnected, get.
    destruct (negb (World.socket_connected w0)); [reflexivity|].
    destruct (co_ wt); [reflexivity|]. cbn zeta.
    destruct (negb _); reflexivity. }
  split; [apply Hsub|]. split.
  { unfold WaitForReliablePublisher. unfold bind at 1. unfold CheckConnected.
    destruct (negb (World.socket_connected w)); cbn [snd].
    { repeat split. }
    unfold bind at 1. cbn [get].
    destruct (negb (Publisher.IsReliable (pub p w))); cbn [snd].
    { repeat split. }
    pose proof (ReloadSubscribersIfNecessary_frame p w) as F.
    unfold bind at 1.
    destruct (ReloadSubscribersIfNecessary p w) as [[u|st] w1]; cbn [snd] in *;
      [|exact F].
    unfold bind, get. destruct (co_ wt); [exact F|]. cbn zeta.
    destruct (negb _); exact F. }
  split.
  { intros Hc Hr. unfold WaitForReliablePublisher.
    rewrite (bind_passes _ _ w w tt (CheckConnected_passes w Hc)).
    unfold bind at 1. cbn [get]. rewrite Hr. reflexivity. }
  split.
  { intros Hc. unfold WaitForSubscriber.
    rewrite (bind_passes _ _ w w tt (CheckConnected_passes w Hc)).
    unfold bind, get. destruct (co_ wt); [reflexivity|]. cbn [orb].
    destruct (_ =? 1); reflexivity. }
  intros Hc Hr u w1 H. unfold WaitForReliablePublisher.
  rewrite (bind_passes _ _ w w tt (CheckConnected_passes w Hc)).
  unfold bind at 1. cbn [get]. rewrite Hr. cbn [negb].
  rewrite (bind_passes _ _ w w1 u H).
  unfold bind, get. destruct (co_ wt); [reflexivity|]. cbn [orb].
  destruct (_ =? 1); reflexivity.
Qed.
